(** * Credit-scoring dashboard: the API route handlers

    A shallow embedding of

      - [src/app/api/model/predict/route.ts]    (module [Predict]),
      - [src/app/api/shap/explain/route.ts]     (module [Shap]),
      - [src/app/api/fairness/analyze/route.ts] (module [Fairness]),
      - [src/app/api/model/train/route.ts]      (module [Train]),

    and the properties of them that the specification states.

    ** Modelling conventions

    - A JavaScript number is an exact rational, or one of NaN, +Infinity,
      -Infinity ([JsNum]).  Arithmetic is exact: the rounding of IEEE doubles
      is not modelled, and there is a single zero.  Finite results are kept
      in lowest terms, so that equal numbers are equal terms.  The
      theorems take the operations in the order in which the source
      performs them, and the intervals they give are closed.
    - A JSON scalar is a [JsValue]; a missing property reads as
      [JUndefined].  A JSON object whose fields are scalars is a finite map
      from property names to scalars ([gmap string JsValue]).  Request bodies
      are JSON objects.
      A property that an object does not hold reads as [JUndefined]: the
      names that every object inherits ([constructor], [toString], ...)
      are not modelled.
    - The two conversions of the language that exact rationals cannot
      express, from strings to numbers and from numbers to strings, are
      the fields of the class [Host]; every theorem holds for every host.
    - [Math.random()] and the clock are inputs of the handlers.
    - The handlers answer 500 when an exception reaches their [catch]
      block; on the inputs above none does, and the responses of the
      embedding are the 200 and 400 ones. *)

From Stdlib Require Import QArith Qabs Qreduction Lqa Lia ZArith Bool.
From stdpp Require Import gmap strings list fin_maps sorting.

(** ** Numbers *)

Module Num.

Inductive JsNum : Type :=
| NaN
| NegInf
| Fin (q : Q)
| PosInf.

(** A numeric literal of the source. *)
Definition num (q : Q) : JsNum := Fin (Qred q).

Definition of_nat (n : nat) : JsNum := num (inject_Z (Z.of_nat n)).

Definition Qlt_bool (a b : Q) : bool := negb (Qle_bool b a).

Definition js_neg (a : JsNum) : JsNum :=
  match a with
  | NaN => NaN
  | NegInf => PosInf
  | Fin q => num (- q)
  | PosInf => NegInf
  end.

Definition js_add (a b : JsNum) : JsNum :=
  match a, b with
  | NaN, _ | _, NaN => NaN
  | PosInf, NegInf | NegInf, PosInf => NaN
  | PosInf, _ | _, PosInf => PosInf
  | NegInf, _ | _, NegInf => NegInf
  | Fin p, Fin q => num (p + q)
  end.

Definition js_sub (a b : JsNum) : JsNum := js_add a (js_neg b).

(** The sign of a finite number: [Lt] negative, [Eq] zero, [Gt] positive. *)
Definition Qsign (q : Q) : comparison := (q ?= 0)%Q.

Definition js_mul (a b : JsNum) : JsNum :=
  match a, b with
  | NaN, _ | _, NaN => NaN
  | Fin p, Fin q => num (p * q)
  | PosInf, PosInf | NegInf, NegInf => PosInf
  | PosInf, NegInf | NegInf, PosInf => NegInf
  | PosInf, Fin q | Fin q, PosInf =>
      match Qsign q with Lt => NegInf | Eq => NaN | Gt => PosInf end
  | NegInf, Fin q | Fin q, NegInf =>
      match Qsign q with Lt => PosInf | Eq => NaN | Gt => NegInf end
  end.

Definition js_div (a b : JsNum) : JsNum :=
  match a, b with
  | NaN, _ | _, NaN => NaN
  | (PosInf | NegInf), (PosInf | NegInf) => NaN
  | Fin _, (PosInf | NegInf) => num 0
  | PosInf, Fin q => match Qsign q with Lt => NegInf | _ => PosInf end
  | NegInf, Fin q => match Qsign q with Lt => PosInf | _ => NegInf end
  | Fin p, Fin q =>
      if Qeq_bool q 0 then
        match Qsign p with Lt => NegInf | Eq => NaN | Gt => PosInf end
      else num (p / q)
  end.

Definition js_abs (a : JsNum) : JsNum :=
  match a with
  | NaN => NaN
  | NegInf | PosInf => PosInf
  | Fin q => num (Qabs q)
  end.

(** [a < b]; every comparison with NaN is false. *)
Definition js_lt (a b : JsNum) : bool :=
  match a, b with
  | NaN, _ | _, NaN => false
  | NegInf, NegInf => false
  | NegInf, _ => true
  | _, NegInf => false
  | PosInf, _ => false
  | _, PosInf => true
  | Fin p, Fin q => Qlt_bool p q
  end.

(** [a <= b]. *)
Definition js_le (a b : JsNum) : bool :=
  match a, b with
  | NaN, _ | _, NaN => false
  | NegInf, _ => true
  | _, NegInf => false
  | _, PosInf => true
  | PosInf, _ => false
  | Fin p, Fin q => Qle_bool p q
  end.

Definition js_gt (a b : JsNum) : bool := js_lt b a.
Definition js_ge (a b : JsNum) : bool := js_le b a.

(** [a === b] on numbers: NaN differs from itself. *)
Definition js_eq (a b : JsNum) : bool :=
  match a, b with
  | NegInf, NegInf | PosInf, PosInf => true
  | Fin p, Fin q => Qeq_bool p q
  | _, _ => false
  end.

(** ToBoolean on numbers: 0 and NaN are falsy. *)
Definition num_truthy (a : JsNum) : bool :=
  match a with
  | NaN => false
  | Fin q => negb (Qeq_bool q 0)
  | _ => true
  end.

(** [Math.max(a, b)] and [Math.min(a, b)]: NaN if either argument is. *)
Definition max2 (a b : JsNum) : JsNum :=
  match a, b with
  | NaN, _ | _, NaN => NaN
  | _, _ => if js_lt a b then b else a
  end.

Definition min2 (a b : JsNum) : JsNum :=
  match a, b with
  | NaN, _ | _, NaN => NaN
  | _, _ => if js_lt b a then b else a
  end.

(** [Math.max(...l)] and [Math.min(...l)]; of no argument they are
    -Infinity and +Infinity. *)
Definition Math_max (l : list JsNum) : JsNum := fold_left max2 l NegInf.
Definition Math_min (l : list JsNum) : JsNum := fold_left min2 l PosInf.

(** [l.reduce((a, b) => a + b, 0)]. *)
Definition sum (l : list JsNum) : JsNum := fold_left js_add l (num 0).

(** [Math.max(0.05, Math.min(0.95, p))]. *)
Definition clamp (p : JsNum) : JsNum := max2 (num 0.05) (min2 (num 0.95) p).

Definition is_finite (a : JsNum) : bool :=
  match a with Fin _ => true | _ => false end.

(** Neither NaN nor +Infinity. *)
Definition below_infinity (a : JsNum) : bool :=
  match a with Fin _ | NegInf => true | _ => false end.

(** A number is normal when its fraction is in lowest terms, that is when
    adding zero gives the same term back. *)
Definition normal (a : JsNum) : Prop := js_add a (num 0) = a.

End Num.
Export Num.

(** ** Values *)

Module Js.

Inductive JsValue : Type :=
| JUndefined
| JNull
| JBool (b : bool)
| JNum (n : JsNum)
| JStr (s : string).

(** The conversions between strings and numbers of the language. *)
Class Host : Type := {
  StringToNumber : string -> JsNum;
  NumberToString : JsNum -> string
}.

(** A JSON object with scalar fields. *)
Abbreviation Obj := (gmap string JsValue).

(** [o[k]] *)
Definition get (o : Obj) (k : string) : JsValue := default JUndefined (o !! k).

(** ToBoolean *)
Definition truthy (v : JsValue) : bool :=
  match v with
  | JUndefined | JNull => false
  | JBool b => b
  | JNum n => num_truthy n
  | JStr s => negb (String.eqb s "")
  end.

(** [a || b] *)
Definition or_else (a b : JsValue) : JsValue := if truthy a then a else b.

(** [a === b] *)
Definition strict_eq (a b : JsValue) : bool :=
  match a, b with
  | JUndefined, JUndefined | JNull, JNull => true
  | JBool x, JBool y => Bool.eqb x y
  | JNum x, JNum y => js_eq x y
  | JStr x, JStr y => String.eqb x y
  | _, _ => false
  end.

(** SameValueZero, the equality of [Set]: as [===], but NaN equals NaN. *)
Definition same_value_zero (a b : JsValue) : bool :=
  match a, b with
  | JNum NaN, JNum NaN => true
  | _, _ => strict_eq a b
  end.

Section Conversions.
Context `{Host}.

Definition ToNumber (v : JsValue) : JsNum :=
  match v with
  | JUndefined => NaN
  | JNull => num 0
  | JBool b => if b then num 1 else num 0
  | JNum n => n
  | JStr s => StringToNumber s
  end.

(** [String(v)], also the property key that [o[v]] uses. *)
Definition ToString (v : JsValue) : string :=
  match v with
  | JUndefined => "undefined"
  | JNull => "null"
  | JBool b => if b then "true" else "false"
  | JNum n => NumberToString n
  | JStr s => s
  end.

(** The relational operators against a number: both sides go through
    ToNumber (the right operand of every comparison in the source is a
    number). *)
Definition lt (v : JsValue) (n : JsNum) : bool := js_lt (ToNumber v) n.
Definition le (v : JsValue) (n : JsNum) : bool := js_le (ToNumber v) n.
Definition gt (v : JsValue) (n : JsNum) : bool := js_gt (ToNumber v) n.
Definition ge (v : JsValue) (n : JsNum) : bool := js_ge (ToNumber v) n.

(** [a / b] and [n * b] *)
Definition div (a b : JsValue) : JsNum := js_div (ToNumber a) (ToNumber b).
Definition mul (n : JsNum) (b : JsValue) : JsNum := js_mul n (ToNumber b).
End Conversions.

(** The [features] property of a request body: absent or a scalar, or an
    object. *)
Inductive Field : Type :=
| Scalar (v : JsValue)
| Object (o : Obj).

Definition field_truthy (f : Field) : bool :=
  match f with
  | Scalar v => truthy v
  | Object _ => true
  end.

(** The properties that a value offers to destructuring and to [f.name]:
    those of the object; a scalar has none of the names the handlers read. *)
Definition properties (f : Field) : Obj :=
  match f with
  | Scalar _ => ∅
  | Object o => o
  end.

End Js.
Export Js.

(** ** [model/predict/route.ts] *)

Module Predict.

Record Prediction : Type := {
  approved : bool;
  probability : JsNum;
  confidence : JsNum;
  riskScore : JsNum;
  reasoning : list string
}.

(** The two locals that the rules of [calculateCreditScore] update. *)
Record Score : Type := {
  score_probability : JsNum;
  score_reasoning : list string
}.

(** [probability += d], [probability -= d] and [reasoning.push(msg)]. *)
Definition plus (d : JsNum) (st : Score) : Score :=
  {| score_probability := js_add (score_probability st) d;
     score_reasoning := score_reasoning st |}.

Definition minus (d : JsNum) (st : Score) : Score :=
  {| score_probability := js_sub (score_probability st) d;
     score_reasoning := score_reasoning st |}.

Definition push (msg : string) (st : Score) : Score :=
  {| score_probability := score_probability st;
     score_reasoning := score_reasoning st ++ [msg] |}.

Section Rules.
Context `{Host}.

(** Credit Score Impact *)
Definition creditScoreImpact (creditScore : JsValue) (st : Score) : Score :=
  if ge creditScore (num 750) then
    push "Excellent credit score (750+)" (plus (num 0.25) st)
  else if ge creditScore (num 700) then
    push "Good credit score (700-749)" (plus (num 0.18) st)
  else if ge creditScore (num 650) then
    push "Fair credit score (650-699)" (plus (num 0.10) st)
  else if ge creditScore (num 600) then
    push "Below average credit score (600-649)" (plus (num 0.02) st)
  else
    push "Poor credit score (<600)" (minus (num 0.15) st).

(** Income Impact, on [incomeRatio = loanAmount / income] *)
Definition incomeImpact (incomeRatio : JsNum) (st : Score) : Score :=
  if js_lt incomeRatio (num 2) then
    push "Low loan-to-income ratio" (plus (num 0.15) st)
  else if js_lt incomeRatio (num 3) then
    push "Moderate loan-to-income ratio" (plus (num 0.08) st)
  else if js_lt incomeRatio (num 4) then
    push "High loan-to-income ratio" (minus (num 0.05) st)
  else
    push "Very high loan-to-income ratio" (minus (num 0.12) st).

(** Loan Amount Impact *)
Definition loanAmountImpact (loanAmount : JsValue) (st : Score) : Score :=
  if lt loanAmount (num 25000) then
    push "Small loan amount" (plus (num 0.10) st)
  else if lt loanAmount (num 50000) then
    plus (num 0.05) st
  else if gt loanAmount (num 100000) then
    push "Large loan amount" (minus (num 0.08) st)
  else st.

(** Debt-to-Income Impact *)
Definition debtToIncomeImpact (debtToIncome : JsValue) (st : Score) : Score :=
  if lt debtToIncome (num 0.3) then
    push "Low debt-to-income ratio" (plus (num 0.08) st)
  else if gt debtToIncome (num 0.5) then
    push "High debt-to-income ratio" (minus (num 0.10) st)
  else st.

(** Employment Length Impact *)
Definition employmentImpact (employmentLength : JsValue) (st : Score) : Score :=
  if ge employmentLength (num 5) then
    push "Stable employment history (5+ years)" (plus (num 0.06) st)
  else if ge employmentLength (num 2) then
    plus (num 0.03) st
  else
    push "Short employment history" (minus (num 0.04) st).

(** Age Impact *)
Definition ageImpact (age : JsValue) (st : Score) : Score :=
  if ge age (num 35) && le age (num 55) then
    push "Optimal age range for credit" (plus (num 0.05) st)
  else if lt age (num 25) then
    minus (num 0.03) st
  else st.

(** Home Ownership Impact *)
Definition homeOwnershipImpact (homeOwnership : JsValue) (st : Score) : Score :=
  if strict_eq homeOwnership (JStr "own") then
    push "Home ownership" (plus (num 0.04) st)
  else if strict_eq homeOwnership (JStr "mortgage") then
    plus (num 0.02) st
  else st.

(** Derogatory Marks Impact *)
Definition derogatoryImpact (derogatory : JsValue) (st : Score) : Score :=
  if gt derogatory (num 0) then
    push (ToString derogatory ++ " derogatory mark(s)")
         (minus (mul (num 0.10) derogatory) st)
  else st.

(** The destructuring defaults: [debtToIncome = loanAmount / (income || 1)]
    and [derogatory = 0] replace an undefined property. *)
Definition with_default (v d : JsValue) : JsValue :=
  match v with JUndefined => d | _ => v end.

Definition debtToIncome_of (features : Obj) : JsValue :=
  with_default (get features "debtToIncome")
    (JNum (div (get features "loanAmount")
               (or_else (get features "income") (JNum (num 1))))).

Definition derogatory_of (features : Obj) : JsValue :=
  with_default (get features "derogatory") (JNum (num 0)).

(** The value of [probability] before it is clamped, with [reasoning]. *)
Definition score (features : Obj) : Score :=
  let age := get features "age" in
  let income := get features "income" in
  let creditScore := get features "creditScore" in
  let loanAmount := get features "loanAmount" in
  let employmentLength := get features "employmentLength" in
  let homeOwnership := get features "homeOwnership" in
  let debtToIncome := debtToIncome_of features in
  let derogatory := derogatory_of features in
  let st := {| score_probability := num 0.5; score_reasoning := [] |} in
  let st := creditScoreImpact creditScore st in
  let incomeRatio := div loanAmount income in
  let st := incomeImpact incomeRatio st in
  let st := loanAmountImpact loanAmount st in
  let st := debtToIncomeImpact debtToIncome st in
  let st := employmentImpact employmentLength st in
  let st := ageImpact age st in
  let st := homeOwnershipImpact homeOwnership st in
  derogatoryImpact derogatory st.

(** [calculateCreditScore(features)]; [random] is what [Math.random()]
    returns if it is called. *)
Definition calculateCreditScore (features : Obj) (random : JsNum) : Prediction :=
  let st := score features in
  let probability := clamp (score_probability st) in
  let hasAllFeatures :=
    truthy (get features "creditScore") && truthy (get features "income")
    && truthy (get features "loanAmount") in
  let confidence :=
    if hasAllFeatures then js_add (num 0.78) (js_mul random (num 0.12))
    else num 0.65 in
  {| approved := js_gt probability (num 0.5);
     probability := probability;
     confidence := confidence;
     riskScore := js_mul (js_sub (num 1) probability) (num 100);
     reasoning := score_reasoning st |}.

(** The [shapValues] object that [POST] adds to the prediction. *)
Record ShapValues : Type := {
  shap_creditScore : JsNum;
  shap_income : JsNum;
  shap_loanAmount : JsNum;
  shap_debtToIncome : JsNum;
  shap_employmentLength : JsNum;
  shap_age : JsNum;
  shap_homeOwnership : JsNum
}.

Definition shapValues_of (features : Obj) : ShapValues :=
  {| shap_creditScore :=
       if ge (get features "creditScore") (num 700) then num 0.18 else num (-0.12);
     shap_income :=
       if ge (get features "income") (num 60000) then num 0.12 else num (-0.08);
     shap_loanAmount :=
       if le (get features "loanAmount") (num 50000) then num 0.08 else num (-0.10);
     shap_debtToIncome :=
       if js_lt (div (get features "loanAmount") (get features "income")) (num 3)
       then num 0.07 else num (-0.09);
     shap_employmentLength :=
       if ge (get features "employmentLength") (num 3) then num 0.05 else num (-0.03);
     shap_age :=
       if ge (get features "age") (num 30) && le (get features "age") (num 60)
       then num 0.04 else num (-0.02);
     shap_homeOwnership :=
       if strict_eq (get features "homeOwnership") (JStr "own")
       then num 0.03 else num (-0.01) |}.

(** The request body: its [features] property and its other properties. *)
Record Body : Type := {
  body_features : Field;
  body_fields : Obj
}.

Record Payload : Type := {
  prediction : Prediction;
  shapValues : ShapValues;
  modelVersion : string;
  timestamp : string;
  input : Obj
}.

Inductive Response : Type :=
| Ok (p : Payload)
| BadRequest (error : string).

Definition status (r : Response) : Z :=
  match r with Ok _ => 200 | BadRequest _ => 400 end.

(** The environment of one invocation: the draw of [Math.random()] and
    [new Date().toISOString()]. *)
Record Env : Type := {
  env_random : JsNum;
  env_now : string
}.

(** [body.features || body] *)
Definition features_of (body : Body) : Obj :=
  if field_truthy (body_features body) then properties (body_features body)
  else body_fields body.

Definition POST (env : Env) (body : Body) : Response :=
  let features := features_of body in
  if negb (truthy (get features "creditScore"))
     || negb (truthy (get features "income"))
     || negb (truthy (get features "loanAmount"))
  then BadRequest "Missing required fields: creditScore, income, loanAmount"
  else
    Ok {| prediction := calculateCreditScore features (env_random env);
          shapValues := shapValues_of features;
          modelVersion := "1.0.0";
          timestamp := env_now env;
          input := features |}.

End Rules.
End Predict.

(** ** [shap/explain/route.ts] *)

Module Shap.

Record ShapValue : Type := {
  feature : string;
  value : JsValue;
  contribution : JsNum;
  displayName : string
}.

(** [Array.prototype.sort] is stable: [insert_sorted cmp x l] puts [x] in
    front of the first element that the comparator orders after it, and
    [sort] inserts the elements from the last to the first, so that equal
    elements keep their order. *)
Fixpoint insert_sorted {A} (after : A -> A -> bool) (x : A) (l : list A) : list A :=
  match l with
  | [] => [x]
  | y :: l' => if after x y then y :: insert_sorted after x l' else x :: l
  end.

Definition sort {A} (after : A -> A -> bool) (l : list A) : list A :=
  fold_right (insert_sorted after) [] l.

(** The comparator [(a, b) => Math.abs(b.contribution) - Math.abs(a.contribution)]
    is positive, which puts [b] first, when [b] has the larger magnitude. *)
Definition compare_contribution (a b : ShapValue) : JsNum :=
  js_sub (js_abs (contribution b)) (js_abs (contribution a)).

Definition sorts_after (a b : ShapValue) : bool :=
  js_gt (compare_contribution a b) (num 0).

Section Explain.
Context `{Host}.

Definition creditContribution (creditScore : JsValue) : JsNum :=
  if ge creditScore (num 750) then num 0.22
  else if ge creditScore (num 700) then num 0.15
  else if ge creditScore (num 650) then num 0.08
  else if ge creditScore (num 600) then num 0.02
  else num (-0.12).

Definition incomeContribution (income : JsValue) : JsNum :=
  if ge income (num 80000) then num 0.15
  else if ge income (num 60000) then num 0.10
  else if ge income (num 40000) then num 0.05
  else if ge income (num 30000) then num 0
  else num (-0.08).

Definition loanContribution (loanAmount : JsValue) : JsNum :=
  if le loanAmount (num 25000) then num 0.08
  else if le loanAmount (num 50000) then num 0.04
  else if le loanAmount (num 75000) then num 0
  else if le loanAmount (num 100000) then num (-0.05)
  else num (-0.10).

Definition dtiContribution (debtToIncome : JsValue) : JsNum :=
  if lt debtToIncome (num 2) then num 0.10
  else if lt debtToIncome (num 3) then num 0.05
  else if lt debtToIncome (num 4) then num (-0.03)
  else num (-0.12).

Definition empContribution (employmentLength : JsValue) : JsNum :=
  if ge employmentLength (num 10) then num 0.08
  else if ge employmentLength (num 5) then num 0.06
  else if ge employmentLength (num 2) then num 0.03
  else if ge employmentLength (num 1) then num 0
  else num (-0.04).

Definition ageContribution (age : JsValue) : JsNum :=
  if ge age (num 35) && le age (num 55) then num 0.06
  else if ge age (num 25) && lt age (num 35) then num 0.03
  else if ge age (num 55) && le age (num 65) then num 0.02
  else if lt age (num 25) then num (-0.03)
  else num (-0.02).

Definition homeContribution (homeOwnership : JsValue) : JsNum :=
  if strict_eq homeOwnership (JStr "own") then num 0.05
  else if strict_eq homeOwnership (JStr "mortgage") then num 0.02
  else num 0.

Definition derogContribution (derogatory : JsValue) : JsNum :=
  if gt derogatory (num 0) then mul (num (-0.10)) derogatory else num 0.02.

(** The array in the order of the [push] calls, before it is sorted. *)
Definition pushed (features : Obj) : list ShapValue :=
  let creditScore := get features "creditScore" in
  let income := get features "income" in
  let loanAmount := get features "loanAmount" in
  let employmentLength := get features "employmentLength" in
  let age := get features "age" in
  let homeOwnership := get features "homeOwnership" in
  let debtToIncome := Predict.debtToIncome_of features in
  let derogatory := Predict.derogatory_of features in
  [ {| feature := "creditScore"; value := creditScore;
       contribution := creditContribution creditScore;
       displayName := "Credit Score" |};
    {| feature := "income"; value := income;
       contribution := incomeContribution income;
       displayName := "Annual Income" |};
    {| feature := "loanAmount"; value := loanAmount;
       contribution := loanContribution loanAmount;
       displayName := "Loan Amount" |};
    {| feature := "debtToIncome"; value := debtToIncome;
       contribution := dtiContribution debtToIncome;
       displayName := "Debt-to-Income Ratio" |};
    {| feature := "employmentLength"; value := employmentLength;
       contribution := empContribution employmentLength;
       displayName := "Employment Length" |};
    {| feature := "age"; value := age;
       contribution := ageContribution age;
       displayName := "Age" |};
    {| feature := "homeOwnership"; value := homeOwnership;
       contribution := homeContribution homeOwnership;
       displayName := "Home Ownership" |};
    {| feature := "derogatory"; value := derogatory;
       contribution := derogContribution derogatory;
       displayName := "Derogatory Marks" |} ].

(** [calculateShapValues(features, prediction)] *)
Definition calculateShapValues (features : Obj) (prediction : JsValue)
  : list ShapValue :=
  sort sorts_after (pushed features).

Record Importance : Type := {
  imp_feature : string;
  importance : JsNum;
  description : string
}.

Definition generateGlobalImportance : list Importance :=
  [ {| imp_feature := "Credit Score"; importance := num 0.28;
       description := "Primary indicator of creditworthiness" |};
    {| imp_feature := "Annual Income"; importance := num 0.19;
       description := "Ability to repay the loan" |};
    {| imp_feature := "Loan Amount"; importance := num 0.15;
       description := "Risk exposure level" |};
    {| imp_feature := "Debt-to-Income"; importance := num 0.12;
       description := "Existing financial obligations" |};
    {| imp_feature := "Employment Length"; importance := num 0.09;
       description := "Income stability indicator" |};
    {| imp_feature := "Age"; importance := num 0.08;
       description := "Life stage and experience" |};
    {| imp_feature := "Home Ownership"; importance := num 0.05;
       description := "Asset ownership status" |};
    {| imp_feature := "Credit Lines"; importance := num 0.03;
       description := "Credit management history" |};
    {| imp_feature := "Derogatory Marks"; importance := num 0.01;
       description := "Negative credit events" |} ].

Record Interpretation : Type := {
  decision : string;
  confidence : JsNum;
  mainFactors : list string;
  reasoning : string
}.

Record Individual : Type := {
  baseValue : JsNum;
  shapValues : list ShapValue;
  finalPrediction : JsNum;
  interpretation : Interpretation;
  waterfallData : list (string * JsNum)
}.

Record Global : Type := {
  featureImportance : list Importance;
  modelType : string;
  totalFeatures : nat
}.

Inductive Response : Type :=
| OkGlobal (g : Global)
| OkIndividual (e : Individual)
| BadRequest (error : string).

Definition status (r : Response) : Z :=
  match r with BadRequest _ => 400 | _ => 200 end.

(** The request body [{ features, prediction, type = 'individual' }]. *)
Record Request : Type := {
  req_features : Field;
  req_prediction : JsValue;
  req_type : JsValue
}.

(** [l.join(', ')] *)
Fixpoint join (l : list string) : string :=
  match l with
  | [] => ""
  | [s] => s
  | s :: l' => s ++ ", " ++ join l'
  end.

Definition POST (req : Request) : Response :=
  let type := Predict.with_default (req_type req) (JStr "individual") in
  if strict_eq type (JStr "global") then
    let globalImportance := generateGlobalImportance in
    OkGlobal {| featureImportance := globalImportance;
                modelType := "Random Forest Classifier";
                totalFeatures := length globalImportance |}
  else if negb (field_truthy (req_features req)) then
    BadRequest "Features required for individual explanation"
  else
    let features := properties (req_features req) in
    let predictionValue := or_else (req_prediction req) (JNum (num 0.5)) in
    let shapValues := calculateShapValues features predictionValue in
    let baseValue := num 0.5 in
    let totalContribution := sum (map contribution shapValues) in
    let finalPrediction := clamp (js_add baseValue totalContribution) in
    let topPositive :=
      map displayName
        (take 3 (List.filter (fun sv => js_gt (contribution sv) (num 0)) shapValues)) in
    let topNegative :=
      map displayName
        (take 3 (List.filter (fun sv => js_lt (contribution sv) (num 0)) shapValues)) in
    let interpretation :=
      {| decision := if js_gt finalPrediction (num 0.5) then "Approved" else "Rejected";
         confidence := js_mul (js_abs (js_sub finalPrediction (num 0.5))) (num 2);
         mainFactors :=
           if (0 <? length topPositive)%nat then topPositive else topNegative;
         reasoning :=
           if js_gt finalPrediction (num 0.5)
           then "Strong positive indicators: " ++ join topPositive
           else "Key concerns: " ++ join topNegative |} in
    OkIndividual
      {| baseValue := baseValue;
         shapValues := shapValues;
         finalPrediction := finalPrediction;
         interpretation := interpretation;
         waterfallData :=
           [("Base Value", baseValue)]
           ++ map (fun sv => (displayName sv, contribution sv)) shapValues
           ++ [("Final Prediction", finalPrediction)] |}.

End Explain.
End Shap.

(** ** [fairness/analyze/route.ts] *)

Module Fairness.

Record GroupMetrics : Type := {
  totalCount : nat;
  approvalRate : JsNum;
  truePositiveRate : JsNum;
  falsePositiveRate : JsNum;
  precision : JsNum
}.

(** A row of the data set. *)
Abbreviation Row := (gmap string JsValue).

(** [v === n] for a numeric literal [n] *)
Definition equals_number (n : Q) (v : JsValue) : bool :=
  strict_eq v (JNum (num n)).

(** [row.predicted === 1 || row.approved === 1] *)
Definition predicted_positive (row : Row) : bool :=
  equals_number 1 (get row "predicted") || equals_number 1 (get row "approved").

(** [row.actual === 1 || row.loan_status === 1] *)
Definition actual_positive (row : Row) : bool :=
  equals_number 1 (get row "actual") || equals_number 1 (get row "loan_status").

(** [row.actual === 0 || row.loan_status === 0] *)
Definition actual_negative (row : Row) : bool :=
  equals_number 0 (get row "actual") || equals_number 0 (get row "loan_status").

(** [a.length / b.length] *)
Definition ratio (a b : nat) : JsNum := js_div (of_nat a) (of_nat b).

Definition calculateGroupMetrics (data : list Row) (groupKey : string)
    (groupValue : JsValue) : GroupMetrics :=
  let groupData :=
    List.filter (fun row => strict_eq (get row groupKey) groupValue) data in
  let totalCount := length groupData in
  if (totalCount =? 0)%nat then
    {| totalCount := 0; approvalRate := num 0; truePositiveRate := num 0;
       falsePositiveRate := num 0; precision := num 0 |}
  else
    let approved := List.filter predicted_positive groupData in
    let approvalRate := ratio (length approved) totalCount in
    let actualPositive := List.filter actual_positive groupData in
    let actualNegative := List.filter actual_negative groupData in
    let truePositives :=
      length (List.filter (fun row => predicted_positive row && actual_positive row)
                groupData) in
    let falsePositives :=
      length (List.filter (fun row => predicted_positive row && actual_negative row)
                groupData) in
    let truePositiveRate :=
      if (0 <? length actualPositive)%nat
      then ratio truePositives (length actualPositive) else num 0 in
    let falsePositiveRate :=
      if (0 <? length actualNegative)%nat
      then ratio falsePositives (length actualNegative) else num 0 in
    let precision :=
      if (0 <? length approved)%nat
      then ratio truePositives (length approved) else num 0 in
    {| totalCount := totalCount; approvalRate := approvalRate;
       truePositiveRate := truePositiveRate;
       falsePositiveRate := falsePositiveRate; precision := precision |}.

(** The argument of [calculateFairnessScore]. *)
Record ScoreInput : Type := {
  in_demographicParityDifference : JsNum;
  in_equalOpportunityDifference : JsNum;
  in_disparateImpact : JsNum
}.

Definition calculateFairnessScore (metrics : ScoreInput) : JsNum :=
  let dpScore :=
    max2 (num 0)
      (js_sub (num 100)
         (js_mul (js_abs (in_demographicParityDifference metrics)) (num 100))) in
  let eoScore :=
    max2 (num 0)
      (js_sub (num 100)
         (js_mul (js_abs (in_equalOpportunityDifference metrics)) (num 100))) in
  let diScore :=
    if js_ge (in_disparateImpact metrics) (num 0.8)
       && js_le (in_disparateImpact metrics) (num 1.25)
    then num 100
    else max2 (num 0)
           (js_sub (num 100)
              (js_mul (js_abs (js_sub (num 1) (in_disparateImpact metrics)))
                 (num 100))) in
  js_div (js_add (js_add dpScore eoScore) diScore) (num 3).

(** [[...new Set(l)]]: the values of [l] without repetition, each at its
    first occurrence. *)
Definition add_unique (seen : list JsValue) (v : JsValue) : list JsValue :=
  if existsb (same_value_zero v) seen then seen else seen ++ [v].

Definition unique (l : list JsValue) : list JsValue := fold_left add_unique l [].

(** [groupMetrics[key] = m] on the object literal [{}]: an assignment to
    [__proto__] replaces the prototype and adds no property. *)
Definition assign (groupMetrics : gmap string GroupMetrics) (key : string)
    (m : GroupMetrics) : gmap string GroupMetrics :=
  if String.eqb key "__proto__" then groupMetrics else <[key := m]> groupMetrics.

Record Metrics : Type := {
  demographicParity : JsNum;
  demographicParityDifference : JsNum;
  equalOpportunity : JsNum;
  equalOpportunityDifference : JsNum;
  disparateImpact : JsNum;
  disparateImpactRatio : JsNum;
  statisticalParity : JsNum
}.

Record ComplianceStatus : Type := {
  _80PercentRule : bool;
  compliance_demographicParity : bool;
  compliance_equalOpportunity : bool
}.

(** The entries of [biasAnalysis]: one under the name of the protected
    attribute, and one under [age] when the first row has an age. *)
Record AgeMetrics : Type := {
  count : nat;
  bracket_approvalRate : JsNum
}.

Record AttributeBias : Type := {
  groups : gmap string GroupMetrics;
  bias_demographicParity : JsNum;
  bias_equalOpportunity : JsNum;
  bias_disparateImpact : JsNum
}.

Inductive BiasEntry : Type :=
| ByAttribute (b : AttributeBias)
| ByAge (groups : gmap string AgeMetrics).

(** The [fairness] object of the response. *)
Record Analysis : Type := {
  overallScore : JsNum;
  metrics : Metrics;
  groupMetrics : gmap string GroupMetrics;
  biasAnalysis : gmap string BiasEntry;
  recommendations : list string;
  protectedAttribute : JsValue;
  complianceStatus : ComplianceStatus
}.

Inductive Response : Type :=
| Ok (fairness : Analysis) (timestamp : string)
| BadRequest (error : string).

Definition status (r : Response) : Z :=
  match r with Ok _ _ => 200 | BadRequest _ => 400 end.

(** The [data] property of the request body. *)
Inductive Data : Type :=
| NotArray (v : Field)
| Array (rows : list Row).

(** The request body [{ data, protectedAttribute = 'gender' }]. *)
Record Request : Type := {
  req_data : Data;
  req_protectedAttribute : JsValue
}.

Definition data_truthy (data : Data) : bool :=
  match data with NotArray v => field_truthy v | Array _ => true end.

Definition isArray (data : Data) : bool :=
  match data with NotArray _ => false | Array _ => true end.

Definition rows_of (data : Data) : list Row :=
  match data with NotArray _ => [] | Array rows => rows end.

(** [!data || !Array.isArray(data) || data.length === 0] *)
Definition invalid_data (data : Data) : bool :=
  negb (data_truthy data) || negb (isArray data)
  || (length (rows_of data) =? 0)%nat.

Section Analyze.
Context `{Host}.

(** [data.map(row => row[protectedAttribute])]; the attribute is used as a
    property key. *)
Definition column (data : list Row) (protectedAttribute : JsValue) : list JsValue :=
  map (fun row => get row (ToString protectedAttribute)) data.

Definition uniqueGroups (data : list Row) (protectedAttribute : JsValue)
  : list JsValue :=
  unique (column data protectedAttribute).

(** The [forEach] that fills [groupMetrics]. *)
Definition collect (data : list Row) (protectedAttribute : JsValue)
    (groups : list JsValue) : gmap string GroupMetrics :=
  fold_left
    (fun groupMetrics group =>
       assign groupMetrics (ToString group)
         (calculateGroupMetrics data (ToString protectedAttribute) group))
    groups ∅.

(** [Object.values(groupMetrics)], in the order of the map rather than in
    the order of insertion: the handler takes the maximum, the minimum and
    the sum of these values, which do not depend on the order. *)
Definition values (groupMetrics : gmap string GroupMetrics) : list GroupMetrics :=
  (map_to_list groupMetrics).*2.

(** The four age brackets, in the order of the object literal. *)
Definition ageGroups : list (string * (JsValue -> bool)) :=
  [ ("18-30", fun age => ge age (num 18) && le age (num 30));
    ("31-45", fun age => ge age (num 31) && le age (num 45));
    ("46-60", fun age => ge age (num 46) && le age (num 60));
    ("60+", fun age => gt age (num 60)) ].

(** The [forEach] that fills [ageMetrics] with the non-empty brackets. *)
Definition ageMetrics (data : list Row) : gmap string AgeMetrics :=
  fold_left
    (fun ageMetrics bracket =>
       let groupData :=
         List.filter (fun r => bracket.2 (get r "age")) data in
       if (0 <? length groupData)%nat then
         let approved := length (List.filter predicted_positive groupData) in
         <[bracket.1 := {| count := length groupData;
                           bracket_approvalRate :=
                             ratio approved (length groupData) |}]> ageMetrics
       else ageMetrics)
    ageGroups ∅.

(** [biasAnalysis]; [data[0]] exists, the data being non-empty here. *)
Definition analyze_bias (data : list Row) (protectedAttribute : JsValue)
    (groupMetrics : gmap string GroupMetrics)
    (demographicParityDifference equalOpportunityDifference disparateImpact : JsNum)
  : gmap string BiasEntry :=
  let biasAnalysis : gmap string BiasEntry :=
    {[ ToString protectedAttribute :=
         ByAttribute
           {| groups := groupMetrics;
              bias_demographicParity := js_sub (num 1) demographicParityDifference;
              bias_equalOpportunity := js_sub (num 1) equalOpportunityDifference;
              bias_disparateImpact := disparateImpact |} ]} in
  match data with
  | first :: _ =>
      if truthy (get first "age")
      then <["age" := ByAge (ageMetrics data)]> biasAnalysis
      else biasAnalysis
  | [] => biasAnalysis
  end.

Definition recommend (disparateImpact demographicParityDifference
    equalOpportunityDifference : JsNum) : list string :=
  let r1 :=
    if js_lt disparateImpact (num 0.8) then
      ["Disparate impact detected: Approval rate ratio is below 80% threshold";
       "Consider reviewing feature selection and model training data for bias"]
    else [] in
  let r2 :=
    if js_gt demographicParityDifference (num 0.1) then
      ["Significant demographic parity gap detected (>10%)";
       "Implement fairness constraints during model training"]
    else [] in
  let r3 :=
    if js_gt equalOpportunityDifference (num 0.1) then
      ["Equal opportunity violation: Different TPR across groups";
       "Apply post-processing techniques to equalize TPR"]
    else [] in
  let recommendations := r1 ++ r2 ++ r3 in
  if (length recommendations =? 0)%nat then
    ["Model shows acceptable fairness metrics across protected groups";
     "Continue monitoring for fairness in production"]
  else recommendations.

Definition POST (now : string) (req : Request) : Response :=
  let data := req_data req in
  let protectedAttribute :=
    Predict.with_default (req_protectedAttribute req) (JStr "gender") in
  if invalid_data data then BadRequest "Invalid data provided"
  else
    let data := rows_of data in
    let uniqueGroups := uniqueGroups data protectedAttribute in
    if (length uniqueGroups <? 2)%nat then
      BadRequest "Need at least 2 groups for fairness analysis"
    else
      let groupMetrics := collect data protectedAttribute uniqueGroups in
      let approvalRates := map approvalRate (values groupMetrics) in
      let maxApprovalRate := Math_max approvalRates in
      let minApprovalRate := Math_min approvalRates in
      let demographicParityDifference := js_sub maxApprovalRate minApprovalRate in
      let tprValues := map truePositiveRate (values groupMetrics) in
      let maxTPR := Math_max tprValues in
      let minTPR := Math_min tprValues in
      let equalOpportunityDifference := js_sub maxTPR minTPR in
      let disparateImpact :=
        js_div minApprovalRate
          (if num_truthy maxApprovalRate then maxApprovalRate else num 1) in
      let avgApprovalRate :=
        js_div (sum approvalRates) (of_nat (length approvalRates)) in
      let statisticalParityDifference :=
        Math_max (map (fun rate => js_abs (js_sub rate avgApprovalRate)) approvalRates) in
      let fairnessScore :=
        calculateFairnessScore
          {| in_demographicParityDifference := demographicParityDifference;
             in_equalOpportunityDifference := equalOpportunityDifference;
             in_disparateImpact := disparateImpact |} in
      Ok {| overallScore := fairnessScore;
            metrics :=
              {| demographicParity := js_sub (num 1) demographicParityDifference;
                 demographicParityDifference := demographicParityDifference;
                 equalOpportunity := js_sub (num 1) equalOpportunityDifference;
                 equalOpportunityDifference := equalOpportunityDifference;
                 disparateImpact := disparateImpact;
                 disparateImpactRatio := disparateImpact;
                 statisticalParity := js_sub (num 1) statisticalParityDifference |};
            groupMetrics := groupMetrics;
            biasAnalysis :=
              analyze_bias data protectedAttribute groupMetrics
                demographicParityDifference equalOpportunityDifference
                disparateImpact;
            recommendations :=
              recommend disparateImpact demographicParityDifference
                equalOpportunityDifference;
            protectedAttribute := protectedAttribute;
            complianceStatus :=
              {| _80PercentRule := js_ge disparateImpact (num 0.8);
                 compliance_demographicParity :=
                   js_le demographicParityDifference (num 0.1);
                 compliance_equalOpportunity :=
                   js_le equalOpportunityDifference (num 0.1) |} |}
         now.

End Analyze.
End Fairness.

(** ** The scoring function in the words of the specification

    The specification describes [calculateCreditScore] as the base value 0.5
    plus a sum of hardcoded constants, each selected by thresholds over one
    feature, with a term of -0.10 per derogatory mark. *)

Module PredictSpec.
Section Terms.
Context `{Host}.

Definition creditScoreTerm (creditScore : JsValue) : JsNum :=
  if ge creditScore (num 750) then num 0.25
  else if ge creditScore (num 700) then num 0.18
  else if ge creditScore (num 650) then num 0.10
  else if ge creditScore (num 600) then num 0.02
  else num (-0.15).

Definition incomeTerm (incomeRatio : JsNum) : JsNum :=
  if js_lt incomeRatio (num 2) then num 0.15
  else if js_lt incomeRatio (num 3) then num 0.08
  else if js_lt incomeRatio (num 4) then num (-0.05)
  else num (-0.12).

Definition loanAmountTerm (loanAmount : JsValue) : JsNum :=
  if lt loanAmount (num 25000) then num 0.10
  else if lt loanAmount (num 50000) then num 0.05
  else if gt loanAmount (num 100000) then num (-0.08)
  else num 0.

Definition debtToIncomeTerm (debtToIncome : JsValue) : JsNum :=
  if lt debtToIncome (num 0.3) then num 0.08
  else if gt debtToIncome (num 0.5) then num (-0.10)
  else num 0.

Definition employmentTerm (employmentLength : JsValue) : JsNum :=
  if ge employmentLength (num 5) then num 0.06
  else if ge employmentLength (num 2) then num 0.03
  else num (-0.04).

Definition ageTerm (age : JsValue) : JsNum :=
  if ge age (num 35) && le age (num 55) then num 0.05
  else if lt age (num 25) then num (-0.03)
  else num 0.

Definition homeOwnershipTerm (homeOwnership : JsValue) : JsNum :=
  if strict_eq homeOwnership (JStr "own") then num 0.04
  else if strict_eq homeOwnership (JStr "mortgage") then num 0.02
  else num 0.

Definition derogatoryTerm (derogatory : JsValue) : JsNum :=
  if gt derogatory (num 0) then mul (num (-0.10)) derogatory else num 0.

(** The seven terms that thresholds select. *)
Definition threshold_terms (features : Obj) : list JsNum :=
  [ creditScoreTerm (get features "creditScore");
    incomeTerm (div (get features "loanAmount") (get features "income"));
    loanAmountTerm (get features "loanAmount");
    debtToIncomeTerm (Predict.debtToIncome_of features);
    employmentTerm (get features "employmentLength");
    ageTerm (get features "age");
    homeOwnershipTerm (get features "homeOwnership") ].

Definition terms (features : Obj) : list JsNum :=
  threshold_terms features ++ [derogatoryTerm (Predict.derogatory_of features)].

(** The number of derogatory marks: the [derogatory] field of the
    features, and 0 when the features have none. *)
Definition derogatory_marks (features : Obj) : JsValue :=
  match get features "derogatory" with
  | JUndefined => JNum (num 0)
  | _ => get features "derogatory"
  end.

(** The debt-to-income ratio: the [debtToIncome] field of the features,
    and the loan amount divided by the income (by 1 when the income is
    falsy) when the features have none. *)
Definition debt_to_income (features : Obj) : JsValue :=
  match get features "debtToIncome" with
  | JUndefined =>
      JNum (div (get features "loanAmount")
              (if truthy (get features "income") then get features "income"
               else JNum (num 1)))
  | _ => get features "debtToIncome"
  end.

(** The seven constants that the thresholds select, in the order of the
    rules. *)
Definition selected (features : Obj) : list JsNum :=
  [ creditScoreTerm (get features "creditScore");
    incomeTerm (div (get features "loanAmount") (get features "income"));
    loanAmountTerm (get features "loanAmount");
    debtToIncomeTerm (debt_to_income features);
    employmentTerm (get features "employmentLength");
    ageTerm (get features "age");
    homeOwnershipTerm (get features "homeOwnership") ].

(** The term of the derogatory marks: -0.10 for each mark. *)
Definition marks_term (features : Obj) : JsNum :=
  if gt (derogatory_marks features) (num 0)
  then mul (num (-0.10)) (derogatory_marks features)
  else num 0.

(** The base value with the eight terms added to it one after the other,
    [(((0.5 + t1) + t2) + ...) + t8]. *)
Definition accumulated (features : Obj) : JsNum :=
  fold_left js_add (selected features ++ [marks_term features]) (num 0.5).

End Terms.

(** Every constant that a threshold of [calculateCreditScore] can select. *)
Definition coefficients : list JsNum :=
  map num
    [0.25; 0.18; 0.10; 0.02; -0.15; 0.15; 0.08; -0.05; -0.12; 0.05; -0.08;
     -0.10; 0.06; 0.03; -0.04; -0.03; 0.04; 0]%Q.

(** The three fields that [POST] requires. *)
Definition required : list string := ["creditScore"; "income"; "loanAmount"].

(** A field is missing from an object when reading it gives [undefined]. *)
Definition missing (features : Obj) (k : string) : Prop :=
  get features k = JUndefined.

End PredictSpec.

(** ** The explanation in the words of the specification *)

Module ShapSpec.


Section Table.
Context `{Host}.



End Table.
End ShapSpec.

(** ** The fairness analysis in the words of the specification *)

Module FairnessSpec.

(** A rate: a finite number between 0 and 1. *)
Definition unit_interval (a : JsNum) : Prop :=
  exists q, a = num q /\ (0 <= q <= 1)%Q.

(** The minimum and the maximum of a list of numbers. *)
Definition least (m : JsNum) (l : list JsNum) : Prop :=
  m ∈ l /\ Forall (fun x => js_le m x = true) l.

Definition greatest (m : JsNum) (l : list JsNum) : Prop :=
  m ∈ l /\ Forall (fun x => js_le x m = true) l.

(** The submitted data is missing, not an array, or empty. *)
Definition no_rows (data : Fairness.Data) : Prop :=
  match data with
  | Fairness.NotArray _ => True
  | Fairness.Array rows => rows = []
  end.

(** The rows of a group, and the four denominators of its rates. *)
Definition group_rows (data : list Fairness.Row) (groupKey : string)
    (groupValue : JsValue) : list Fairness.Row :=
  List.filter (fun row => strict_eq (get row groupKey) groupValue) data.

Definition approved_rows (rows : list Fairness.Row) : list Fairness.Row :=
  List.filter Fairness.predicted_positive rows.

Definition positive_rows (rows : list Fairness.Row) : list Fairness.Row :=
  List.filter Fairness.actual_positive rows.

Definition negative_rows (rows : list Fairness.Row) : list Fairness.Row :=
  List.filter Fairness.actual_negative rows.

Section Groups.
Context `{Host}.

(** The protected attribute of a request. *)
Definition attribute_of (req : Fairness.Request) : JsValue :=
  Predict.with_default (Fairness.req_protectedAttribute req) (JStr "gender").

(** The protected attribute takes at least two distinct values among the
    rows. *)
Definition two_groups (rows : list Fairness.Row) (attribute : JsValue) : Prop :=
  exists r1 r2,
    r1 ∈ rows /\ r2 ∈ rows
    /\ same_value_zero (get r1 (ToString attribute)) (get r2 (ToString attribute))
       = false.

(** The approval rate of each group, a group being a distinct value of
    the protected attribute. *)
Definition group_rates (rows : list Fairness.Row) (attribute : JsValue)
  : list JsNum :=
  map (fun group =>
         Fairness.approvalRate
           (Fairness.calculateGroupMetrics rows (ToString attribute) group))
      (Fairness.uniqueGroups rows attribute).

(** The groups have distinct names, none of which is [__proto__]: no two
    of them share a property of [groupMetrics]. *)
Definition distinct_names (groups : list JsValue) : Prop :=
  NoDup (map ToString groups) /\ "__proto__" ∉ map ToString groups.

End Groups.
End FairnessSpec.

(** ** Inputs of the examples *)

Module Examples.

(** The examples convert no string to a number and no number to a string;
    they are stated at this host, and the lemmas that they instantiate hold
    at every host. *)
Definition example_host : Host :=
  {| StringToNumber := fun _ => NaN; NumberToString := fun _ => ""%string |}.

Definition object (fields : list (string * JsValue)) : Obj := list_to_map fields.

(** [{ creditScore: 720, income: 50000, loanAmount: 10000 }] *)
Definition applicant : Obj :=
  object [("creditScore", JNum (num 720)); ("income", JNum (num 50000));
          ("loanAmount", JNum (num 10000))].

Definition applicant_body : Predict.Body :=
  {| Predict.body_features := Object applicant; Predict.body_fields := ∅ |}.

(** Two invocations that differ in the draw of [Math.random()] only. *)
Definition first_call : Predict.Env :=
  {| Predict.env_random := num 0; Predict.env_now := "2024-01-01T00:00:00.000Z" |}.

Definition second_call : Predict.Env :=
  {| Predict.env_random := num 0.5; Predict.env_now := "2024-01-01T00:00:00.000Z" |}.

(** [{ creditScore: 0, income: 50000, loanAmount: 10000 }] *)
Definition zero_score : Obj :=
  object [("creditScore", JNum (num 0)); ("income", JNum (num 50000));
          ("loanAmount", JNum (num 10000))].

Definition zero_score_body : Predict.Body :=
  {| Predict.body_features := Object zero_score; Predict.body_fields := ∅ |}.

(** [{ creditScore: 720, income: 50000, loanAmount: 10000, derogatory: 7 }] *)
Definition seven_marks : Obj := <["derogatory" := JNum (num 7)]> applicant.

(** [{ features: { creditScore: 720, income: 50000, loanAmount: 10000 } }] *)
Definition explain_applicant : Shap.Request :=
  {| Shap.req_features := Object applicant; Shap.req_prediction := JUndefined;
     Shap.req_type := JUndefined |}.

Definition analyze (rows : list Fairness.Row) : Fairness.Request :=
  {| Fairness.req_data := Fairness.Array rows;
     Fairness.req_protectedAttribute := JUndefined |}.

(** Two groups, no approval:
    [[{ gender: 'M', approved: 0 }, { gender: 'F', approved: 0 }]] *)
Definition no_approvals : list Fairness.Row :=
  [ object [("gender", JStr "M"); ("approved", JNum (num 0))];
    object [("gender", JStr "F"); ("approved", JNum (num 0))] ].

(** Two groups, approval rates 1/2 and 1:
    [[{ gender: 'M', approved: 1 }, { gender: 'M', approved: 0 },
      { gender: 'F', approved: 1 }]] *)
Definition mixed : list Fairness.Row :=
  [ object [("gender", JStr "M"); ("approved", JNum (num 1))];
    object [("gender", JStr "M"); ("approved", JNum (num 0))];
    object [("gender", JStr "F"); ("approved", JNum (num 1))] ].

(** Two groups whose values have the same name:
    [[{ gender: null, approved: 1 }, { gender: 'null', approved: 0 }]] *)
Definition same_name : list Fairness.Row :=
  [ object [("gender", JNull); ("approved", JNum (num 1))];
    object [("gender", JStr "null"); ("approved", JNum (num 0))] ].

Definition noon : string := "2024-01-01T12:00:00.000Z".

End Examples.

(** ** [model/train/route.ts] *)

Module Train.

(** The features that [POST] extracts from a row. *)
Record Features : Type := {
  age : JsValue;
  income : JsValue;
  creditScore : JsValue;
  loanAmount : JsValue;
  employmentLength : JsValue;
  homeOwnership : JsValue;
  debtToIncome : JsValue;
  numCreditLines : JsValue;
  derogatory : JsValue;
  totalDebt : JsValue
}.

(** [row.a || row.b || d] *)
Definition either (row : Obj) (a b : string) (d : JsValue) : JsValue :=
  or_else (or_else (get row a) (get row b)) d.

Definition features_of (row : Obj) : Features :=
  {| age := or_else (get row "age") (JNum (num 0));
     income := or_else (get row "income") (JNum (num 0));
     creditScore := either row "credit_score" "creditScore" (JNum (num 0));
     loanAmount := either row "loan_amount" "loanAmount" (JNum (num 0));
     employmentLength :=
       either row "employment_length" "employmentLength" (JNum (num 0));
     homeOwnership := either row "home_ownership" "homeOwnership" (JStr "rent");
     debtToIncome := either row "debt_to_income" "debtToIncome" (JNum (num 0));
     numCreditLines :=
       either row "num_credit_lines" "numCreditLines" (JNum (num 0));
     derogatory := either row "derogatory_marks" "derogatory" (JNum (num 0));
     totalDebt := either row "total_debt" "totalDebt" (JNum (num 0)) |}.

(** [row.loan_status || row.approved || 0] *)
Definition label_of (row : Obj) : JsValue :=
  either row "loan_status" "approved" (JNum (num 0)).

Record TrainingMetrics : Type := {
  accuracy : JsNum;
  precision : JsNum;
  recall : JsNum;
  f1Score : JsNum;
  rocAuc : JsNum
}.

Record ClassDistribution : Type := {
  approved : nat;
  rejected : nat;
  approvalRate : JsNum
}.

(** The [featureImportance] literal, in the order of its properties. *)
Definition featureImportance : list (string * JsNum) :=
  [ ("creditScore", num 0.28); ("income", num 0.19); ("loanAmount", num 0.15);
    ("debtToIncome", num 0.12); ("employmentLength", num 0.09);
    ("age", num 0.08); ("totalDebt", num 0.05); ("numCreditLines", num 0.03);
    ("derogatory", num 0.01) ].

Record ModelMetadata : Type := {
  modelId : string;
  algorithm : string;
  trainedAt : string;
  datasetSize : nat;
  features : list string;
  metrics : TrainingMetrics;
  model_featureImportance : list (string * JsNum);
  classDistribution : ClassDistribution
}.

Inductive Response : Type :=
| Ok (model : ModelMetadata) (message : string)
| BadRequest (error : string).

Definition status (r : Response) : Z :=
  match r with Ok _ _ => 200 | BadRequest _ => 400 end.

(** The environment of one invocation: the four draws of [Math.random()]
    in the order of the calls, [Date.now()] and
    [new Date().toISOString()]. *)
Record Env : Type := {
  random_accuracy : JsNum;
  random_precision : JsNum;
  random_recall : JsNum;
  random_rocAuc : JsNum;
  now : JsNum;
  now_iso : string
}.

(** The request body [{ data }]. *)
Record Request : Type := { req_data : Fairness.Data }.

Section Handler.
Context `{Host}.

Definition POST (env : Env) (req : Request) : Response :=
  let data := req_data req in
  if Fairness.invalid_data data then BadRequest "Invalid training data provided"
  else
    let data := Fairness.rows_of data in
    let features := map features_of data in
    let labels := map label_of data in
    let approved :=
      length (List.filter (fun l => strict_eq l (JNum (num 1))) labels) in
    let rejected := (length labels - approved)%nat in
    let accuracy := js_add (num 0.873) (js_mul (random_accuracy env) (num 0.02)) in
    let precision := js_add (num 0.85) (js_mul (random_precision env) (num 0.03)) in
    let recall := js_add (num 0.88) (js_mul (random_recall env) (num 0.02)) in
    let f1Score :=
      js_div (js_mul (num 2) (js_mul precision recall)) (js_add precision recall) in
    let rocAuc := js_add (num 0.89) (js_mul (random_rocAuc env) (num 0.02)) in
    Ok {| modelId := "model_" ++ NumberToString (now env);
          algorithm := "Random Forest";
          trainedAt := now_iso env;
          datasetSize := length data;
          features := map fst featureImportance;
          metrics :=
            {| accuracy := accuracy; precision := precision; recall := recall;
               f1Score := f1Score; rocAuc := rocAuc |};
          model_featureImportance := featureImportance;
          classDistribution :=
            {| approved := approved; rejected := rejected;
               approvalRate := Fairness.ratio approved (length data) |} |}
       "Model trained successfully".

End Handler.
End Train.

(** ** Notions used by the further properties *)

Module MoreSpec.

(** [a] may come before [b] in the explanation: its contribution has at
    least the magnitude of that of [b]. *)
Definition by_magnitude (a b : Shap.ShapValue) : Prop :=
  js_le (js_abs (Shap.contribution b)) (js_abs (Shap.contribution a)) = true.

(** A draw of [Math.random()]: a number in [0, 1). *)
Definition draw (r : JsNum) : Prop :=
  exists q, r = Fin q /\ (0 <= q < 1)%Q.

(** A finite number between two bounds. *)
Definition between (lo hi : Q) (a : JsNum) : Prop :=
  exists q, a = Fin q /\ (lo <= q <= hi)%Q.

(** The reasons that the first two rules of [calculateCreditScore] push. *)
Definition creditScore_reasons : list string :=
  [ "Excellent credit score (750+)"; "Good credit score (700-749)";
    "Fair credit score (650-699)"; "Below average credit score (600-649)";
    "Poor credit score (<600)" ].

Definition income_reasons : list string :=
  [ "Low loan-to-income ratio"; "Moderate loan-to-income ratio";
    "High loan-to-income ratio"; "Very high loan-to-income ratio" ].

(** A rule of [calculateCreditScore] pushes at most one reason. *)
Definition pushes_at_most_one (rule : Predict.Score -> Predict.Score) : Prop :=
  forall st, exists msgs,
    Predict.score_reasoning (rule st) = Predict.score_reasoning st ++ msgs
    /\ (length msgs <= 1)%nat.

(** The host writes no number as [__proto__]. *)
Definition numerals `{Host} : Prop :=
  forall n, NumberToString n <> "__proto__".

(** The true positive rate of each group. *)
Definition group_tprs `{Host} (rows : list Fairness.Row) (attribute : JsValue)
  : list JsNum :=
  map (fun group =>
         Fairness.truePositiveRate
           (Fairness.calculateGroupMetrics rows (ToString attribute) group))
      (Fairness.uniqueGroups rows attribute).

(** The two recommendations of an analysis that raises no concern. *)
Definition acceptable : list string :=
  [ "Model shows acceptable fairness metrics across protected groups";
    "Continue monitoring for fairness in production" ].

(** No row is approved: neither [predicted] nor [approved] is the
    number 1. *)
Definition none_approved (rows : list Fairness.Row) : Prop :=
  Forall (fun row => Fairness.predicted_positive row = false) rows.

(** No row has NaN as the value of the attribute. *)
Definition no_NaN `{Host} (rows : list Fairness.Row) (attribute : JsValue) : Prop :=
  Forall (fun row => get row (ToString attribute) <> JNum NaN) rows.

End MoreSpec.

(** ** Inputs of the further examples *)

Module MoreExamples.
Import Examples.

(** A draw of [Math.random()]. *)
Definition half : JsNum := num 0.5.

(** The input of [calculateFairnessScore] for differences of 0.05 and
    0.02 and a disparate impact of 0.9. *)
Definition small_gap : Fairness.ScoreInput :=
  {| Fairness.in_demographicParityDifference := num 0.05;
     Fairness.in_equalOpportunityDifference := num 0.02;
     Fairness.in_disparateImpact := num 0.9 |}.

(** [[{ loan_status: 1 }, { approved: 1 }, { loan_status: 0, approved: 0 }]] *)
Definition labelled : list Fairness.Row :=
  [ object [("loan_status", JNum (num 1))];
    object [("approved", JNum (num 1))];
    object [("loan_status", JNum (num 0)); ("approved", JNum (num 0))] ].

Definition training : Train.Request :=
  {| Train.req_data := Fairness.Array labelled |}.

(** One invocation of the training handler: the four draws, [Date.now()]
    and the date. *)
Definition training_run : Train.Env :=
  {| Train.random_accuracy := num 0.5; Train.random_precision := num 0.25;
     Train.random_recall := num 0.75; Train.random_rocAuc := num 0;
     Train.now := num 1704110400000; Train.now_iso := noon |}.

End MoreExamples.
(** * Properties *)

(** ** Arithmetic *)

Module NumFacts.

Lemma Qlt_bool_iff (a b : Q) : Qlt_bool a b = true <-> (a < b)%Q.
Proof.
  unfold Qlt_bool. rewrite negb_true_iff, <- not_true_iff_false, Qle_bool_iff.
  split; [apply Qnot_le_lt | apply Qlt_not_le].
Qed.

Lemma Qlt_bool_false (a b : Q) : Qlt_bool a b = false <-> (b <= a)%Q.
Proof.
  unfold Qlt_bool. rewrite negb_false_iff. apply Qle_bool_iff.
Qed.

Lemma Qle_bool_false (a b : Q) : Qle_bool a b = false <-> (b < a)%Q.
Proof.
  rewrite <- not_true_iff_false, Qle_bool_iff.
  split; [apply Qnot_le_lt | apply Qlt_not_le].
Qed.

Lemma Qeq_bool_false (a b : Q) : Qeq_bool a b = false <-> ~ (a == b)%Q.
Proof. rewrite <- not_true_iff_false, Qeq_bool_iff. tauto. Qed.

(** Turn the boolean tests on rationals among the hypotheses and in the goal
    into propositions, and drop the normalisation. *)
Ltac qprop :=
  repeat match goal with
  | H : Qlt_bool _ _ = true |- _ => apply Qlt_bool_iff in H
  | H : Qlt_bool _ _ = false |- _ => apply Qlt_bool_false in H
  | H : Qle_bool _ _ = true |- _ => apply Qle_bool_iff in H
  | H : Qle_bool _ _ = false |- _ => apply Qle_bool_false in H
  | H : Qeq_bool _ _ = true |- _ => apply Qeq_bool_iff in H
  | H : Qeq_bool _ _ = false |- _ => apply Qeq_bool_false in H
  | H : context [Qred _] |- _ => rewrite Qred_correct in H
  | |- Qlt_bool _ _ = true => apply Qlt_bool_iff
  | |- Qlt_bool _ _ = false => apply Qlt_bool_false
  | |- Qle_bool _ _ = true => apply Qle_bool_iff
  | |- Qle_bool _ _ = false => apply Qle_bool_false
  | |- Qeq_bool _ _ = true => apply Qeq_bool_iff
  | |- Qeq_bool _ _ = false => apply Qeq_bool_false
  | |- context [Qred _] => rewrite Qred_correct
  end.

Lemma num_eq (p q : Q) : (p == q)%Q -> num p = num q.
Proof. intros E. unfold num. f_equal. by apply Qred_complete. Qed.

Lemma js_add_assoc (a b c : JsNum) :
  js_add (js_add a b) c = js_add a (js_add b c).
Proof.
  destruct a, b, c; cbn; try reflexivity.
  apply num_eq. qprop. ring.
Qed.

Lemma fold_left_js_add (l : list JsNum) (a b : JsNum) :
  fold_left js_add l (js_add a b) = js_add a (fold_left js_add l b).
Proof.
  revert b. induction l as [|x l IH]; intros b; cbn; [done|].
  by rewrite js_add_assoc, IH.
Qed.

Lemma clamp_NaN : clamp NaN = NaN.
Proof. reflexivity. Qed.

Lemma clamp_range (p : JsNum) :
  p <> NaN ->
  exists q, clamp p = Fin q /\ (0.05 <= q <= 0.95)%Q.
Proof.
  intros Hp. destruct p as [| |q|]; [done| | |].
  - exists (Qred 0.05). split; [reflexivity|]. qprop. split; lra.
  - unfold clamp, min2, max2, num. cbn.
    destruct (Qlt_bool q (Qred 0.95)) eqn:E1; cbn.
    + destruct (Qlt_bool (Qred 0.05) q) eqn:E2;
        eexists; (split; [reflexivity|]); qprop; split; lra.
    + eexists; (split; [reflexivity|]); qprop; split; lra.
  - exists (Qred 0.95). split; [reflexivity|]. qprop. split; lra.
Qed.

Lemma clamp_gt_half (p : JsNum) :
  js_gt (clamp p) (num 0.5) = js_gt p (num 0.5).
Proof.
  destruct p as [| |q|]; try reflexivity.
  unfold clamp, min2, max2, num, js_gt. cbn.
  destruct (Qlt_bool q (Qred 0.95)) eqn:E1; cbn.
  - destruct (Qlt_bool (Qred 0.05) q) eqn:E2; cbn; [done|].
    transitivity false; [reflexivity | symmetry; qprop; lra].
  - transitivity true; [reflexivity | symmetry; qprop; lra].
Qed.

Lemma below_infinity_add (a b : JsNum) :
  below_infinity a = true -> below_infinity b = true ->
  below_infinity (js_add a b) = true.
Proof. by destruct a, b. Qed.

Lemma below_infinity_sum (l : list JsNum) (a : JsNum) :
  below_infinity a = true -> Forall (fun x => below_infinity x = true) l ->
  below_infinity (fold_left js_add l a) = true.
Proof.
  intros Ha Hl. revert a Ha.
  induction Hl as [|x l Hx _ IH]; intros a Ha; cbn; [done|].
  by apply IH, below_infinity_add.
Qed.

Lemma js_le_refl (a : JsNum) : a <> NaN -> js_le a a = true.
Proof. destruct a; cbn; try done. intros _. qprop. lra. Qed.

Lemma js_le_trans (a b c : JsNum) :
  js_le a b = true -> js_le b c = true -> js_le a c = true.
Proof. destruct a, b, c; cbn; try done. intros. qprop. lra. Qed.

Lemma js_lt_le (a b : JsNum) : js_lt a b = true -> js_le a b = true.
Proof. destruct a, b; cbn; try done. intros. qprop. lra. Qed.

Lemma js_nlt_le (a b : JsNum) :
  a <> NaN -> b <> NaN -> js_lt a b = false -> js_le b a = true.
Proof. destruct a, b; cbn; try done. intros. qprop. lra. Qed.

Lemma max2_spec (a b : JsNum) :
  a <> NaN -> b <> NaN ->
  (max2 a b = a \/ max2 a b = b)
  /\ js_le a (max2 a b) = true /\ js_le b (max2 a b) = true.
Proof.
  intros Ha Hb.
  assert (Hm : max2 a b = if js_lt a b then b else a) by by destruct a, b.
  rewrite Hm. destruct (js_lt a b) eqn:E.
  - split; [by right|]. split; [by apply js_lt_le | by apply js_le_refl].
  - split; [by left|]. split; [by apply js_le_refl | by apply js_nlt_le].
Qed.

Lemma min2_spec (a b : JsNum) :
  a <> NaN -> b <> NaN ->
  (min2 a b = a \/ min2 a b = b)
  /\ js_le (min2 a b) a = true /\ js_le (min2 a b) b = true.
Proof.
  intros Ha Hb.
  assert (Hm : min2 a b = if js_lt b a then b else a) by by destruct a, b.
  rewrite Hm. destruct (js_lt b a) eqn:E.
  - split; [by right|]. split; [by apply js_lt_le | by apply js_le_refl].
  - split; [by left|]. split; [by apply js_le_refl | by apply js_nlt_le].
Qed.

Lemma fold_max2 (l : list JsNum) (acc : JsNum) :
  acc <> NaN -> Forall (fun x => x <> NaN) l ->
  let m := fold_left max2 l acc in
  m <> NaN /\ (m = acc \/ m ∈ l) /\ js_le acc m = true
  /\ Forall (fun x => js_le x m = true) l.
Proof.
  intros Hacc Hl. revert acc Hacc.
  induction Hl as [|x l Hx Hl IH]; intros acc Hacc; cbn.
  - split; [done|]. split; [by left|]. split; [by apply js_le_refl|done].
  - destruct (max2_spec acc x Hacc Hx) as (Hcase & Hle1 & Hle2).
    assert (Hacc' : max2 acc x <> NaN) by (destruct Hcase as [-> | ->]; done).
    destruct (IH _ Hacc') as (Hm & Hin & Hle & Hall).
    split; [done|]. split; [|split].
    + destruct Hin as [Hin|Hin]; [|right; by apply list_elem_of_further].
      rewrite Hin. destruct Hcase as [-> | ->]; [by left|right; apply list_elem_of_here].
    + by eapply js_le_trans.
    + apply Forall_cons. split; [by eapply js_le_trans|done].
Qed.

Lemma fold_min2 (l : list JsNum) (acc : JsNum) :
  acc <> NaN -> Forall (fun x => x <> NaN) l ->
  let m := fold_left min2 l acc in
  m <> NaN /\ (m = acc \/ m ∈ l) /\ js_le m acc = true
  /\ Forall (fun x => js_le m x = true) l.
Proof.
  intros Hacc Hl. revert acc Hacc.
  induction Hl as [|x l Hx Hl IH]; intros acc Hacc; cbn.
  - split; [done|]. split; [by left|]. split; [by apply js_le_refl|done].
  - destruct (min2_spec acc x Hacc Hx) as (Hcase & Hle1 & Hle2).
    assert (Hacc' : min2 acc x <> NaN) by (destruct Hcase as [-> | ->]; done).
    destruct (IH _ Hacc') as (Hm & Hin & Hle & Hall).
    split; [done|]. split; [|split].
    + destruct Hin as [Hin|Hin]; [|right; by apply list_elem_of_further].
      rewrite Hin. destruct Hcase as [-> | ->]; [by left|right; apply list_elem_of_here].
    + by eapply js_le_trans.
    + apply Forall_cons. split; [by eapply js_le_trans|done].
Qed.

Lemma finite_not_NaN (l : list JsNum) :
  Forall (fun x => is_finite x = true) l -> Forall (fun x => x <> NaN) l.
Proof. intros Hl. eapply Forall_impl; [exact Hl|]. by intros [| | |]. Qed.

(** [Math.max] of a non-empty list of finite numbers is an element of the
    list that no element exceeds, and [Math.min] likewise. *)
Lemma Math_max_spec (l : list JsNum) :
  l <> [] -> Forall (fun x => is_finite x = true) l ->
  Math_max l ∈ l /\ Forall (fun x => js_le x (Math_max l) = true) l.
Proof.
  intros Hne Hfin.
  destruct (fold_max2 l NegInf) as (_ & Hin & _ & Hall);
    [done|by apply finite_not_NaN|].
  fold (Math_max l) in Hin, Hall. split; [|done].
  destruct Hin as [Hin|Hin]; [|done].
  destruct l as [|x l]; [done|].
  apply Forall_cons in Hall as [Hx _]. apply Forall_cons in Hfin as [Hfx _].
  rewrite Hin in Hx. by destruct x.
Qed.

Lemma Math_min_spec (l : list JsNum) :
  l <> [] -> Forall (fun x => is_finite x = true) l ->
  Math_min l ∈ l /\ Forall (fun x => js_le (Math_min l) x = true) l.
Proof.
  intros Hne Hfin.
  destruct (fold_min2 l PosInf) as (_ & Hin & _ & Hall);
    [done|by apply finite_not_NaN|].
  fold (Math_min l) in Hin, Hall. split; [|done].
  destruct Hin as [Hin|Hin]; [|done].
  destruct l as [|x l]; [done|].
  apply Forall_cons in Hall as [Hx _]. apply Forall_cons in Hfin as [Hfx _].
  rewrite Hin in Hx. by destruct x.
Qed.

End NumFacts.

(** ** [model/predict] *)

Module PredictFacts.
Import NumFacts Predict PredictSpec.

Lemma normal_add (a b : JsNum) : normal (js_add a b).
Proof.
  unfold normal. destruct a, b; cbn; try reflexivity.
  apply num_eq. qprop. ring.
Qed.

Lemma normal_num (q : Q) : normal (num q).
Proof. unfold normal. cbn. apply num_eq. qprop. ring. Qed.

Lemma js_neg_mul_tenth (x : JsNum) :
  js_neg (js_mul (num 0.10) x) = js_mul (num (-0.10)) x.
Proof.
  destruct x as [| |q|]; try reflexivity.
  cbn. apply num_eq. qprop. ring.
Qed.

Section WithHost.
Context `{Host}.

(** Each rule adds its term to [probability]. *)
Ltac rule := intros; repeat case_match; cbn; try reflexivity; try done.

Lemma creditScoreImpact_adds v st :
  score_probability (creditScoreImpact v st)
  = js_add (score_probability st) (creditScoreTerm v).
Proof. unfold creditScoreImpact, creditScoreTerm. rule. Qed.

Lemma incomeImpact_adds r st :
  score_probability (incomeImpact r st)
  = js_add (score_probability st) (incomeTerm r).
Proof. unfold incomeImpact, incomeTerm. rule. Qed.

Lemma loanAmountImpact_adds v st :
  normal (score_probability st) ->
  score_probability (loanAmountImpact v st)
  = js_add (score_probability st) (loanAmountTerm v).
Proof. unfold loanAmountImpact, loanAmountTerm. rule. Qed.

Lemma debtToIncomeImpact_adds v st :
  normal (score_probability st) ->
  score_probability (debtToIncomeImpact v st)
  = js_add (score_probability st) (debtToIncomeTerm v).
Proof. unfold debtToIncomeImpact, debtToIncomeTerm. rule. Qed.

Lemma employmentImpact_adds v st :
  score_probability (employmentImpact v st)
  = js_add (score_probability st) (employmentTerm v).
Proof. unfold employmentImpact, employmentTerm. rule. Qed.

Lemma ageImpact_adds v st :
  normal (score_probability st) ->
  score_probability (ageImpact v st)
  = js_add (score_probability st) (ageTerm v).
Proof. unfold ageImpact, ageTerm. rule. Qed.

Lemma homeOwnershipImpact_adds v st :
  normal (score_probability st) ->
  score_probability (homeOwnershipImpact v st)
  = js_add (score_probability st) (homeOwnershipTerm v).
Proof. unfold homeOwnershipImpact, homeOwnershipTerm. rule. Qed.

Lemma derogatoryImpact_adds v st :
  normal (score_probability st) ->
  score_probability (derogatoryImpact v st)
  = js_add (score_probability st) (derogatoryTerm v).
Proof.
  intros Hn. unfold derogatoryImpact, derogatoryTerm.
  destruct (gt v (num 0)); [|by rewrite Hn].
  cbn [push minus score_probability].
  unfold js_sub, mul. by rewrite js_neg_mul_tenth.
Qed.

(** The accumulation of [calculateCreditScore] is the base value plus the
    sum of the terms. *)
Lemma score_is_sum (features : Obj) :
  score_probability (score features) = js_add (num 0.5) (sum (terms features)).
Proof.
  unfold score.
  rewrite derogatoryImpact_adds.
  2:{ rewrite homeOwnershipImpact_adds; [apply normal_add|].
      rewrite ageImpact_adds; [apply normal_add|].
      rewrite employmentImpact_adds. apply normal_add. }
  rewrite homeOwnershipImpact_adds.
  2:{ rewrite ageImpact_adds; [apply normal_add|].
      rewrite employmentImpact_adds. apply normal_add. }
  rewrite ageImpact_adds by (rewrite employmentImpact_adds; apply normal_add).
  rewrite employmentImpact_adds.
  rewrite debtToIncomeImpact_adds.
  2:{ rewrite loanAmountImpact_adds; [apply normal_add|].
      rewrite incomeImpact_adds. apply normal_add. }
  rewrite loanAmountImpact_adds by (rewrite incomeImpact_adds; apply normal_add).
  rewrite incomeImpact_adds, creditScoreImpact_adds.
  cbn [score_probability].
  unfold sum. rewrite <- fold_left_js_add.
  reflexivity.
Qed.

Lemma threshold_terms_coefficients (features : Obj) :
  Forall (fun t => t ∈ coefficients) (threshold_terms features).
Proof.
  unfold threshold_terms, creditScoreTerm, incomeTerm, loanAmountTerm,
    debtToIncomeTerm, employmentTerm, ageTerm, homeOwnershipTerm.
  repeat apply Forall_cons_2; [..|apply Forall_nil_2];
    repeat case_match; unfold coefficients; cbn [map];
    repeat first [apply list_elem_of_here | apply list_elem_of_further].
Qed.

Lemma derogatoryTerm_below_infinity (v : JsValue) :
  below_infinity (derogatoryTerm v) = true.
Proof.
  unfold derogatoryTerm, gt, mul, js_gt. case_match eqn:E; [|done].
  destruct (ToNumber v) as [| |q|]; try done.
Qed.

Lemma terms_below_infinity (features : Obj) :
  Forall (fun x => below_infinity x = true) (terms features).
Proof.
  unfold terms. apply Forall_app. split.
  - eapply Forall_impl; [apply threshold_terms_coefficients|].
    intros t Ht. unfold coefficients in Ht.
    apply list_elem_of_fmap in Ht as (q & -> & _). done.
  - apply Forall_cons_2; [apply derogatoryTerm_below_infinity | apply Forall_nil_2].
Qed.

Lemma score_not_NaN (features : Obj) :
  score_probability (score features) <> NaN.
Proof.
  rewrite score_is_sum.
  pose proof (below_infinity_sum (terms features) (num 0) eq_refl
                (terms_below_infinity features)) as Hs.
  fold (sum (terms features)) in Hs.
  destruct (sum (terms features)); done.
Qed.

(** The accumulation of [calculateCreditScore], in the order of its
    rules. *)
Lemma score_accumulated (features : Obj) :
  score_probability (score features) = accumulated features.
Proof.
  rewrite score_is_sum. unfold accumulated, sum.
  change (selected features ++ [marks_term features]) with (terms features).
  change (num 0.5) with (js_add (num 0.5) (num 0)) at 2.
  by rewrite fold_left_js_add.
Qed.

Lemma selected_coefficients (features : Obj) :
  Forall (fun t => t ∈ coefficients) (selected features).
Proof. exact (threshold_terms_coefficients features). Qed.

(** C3. The credit-scoring model is a fixed scoring function: the
    probability that [calculateCreditScore] computes is the base value 0.5
    to which eight terms are added one after the other, in the order of
    the rules: seven hardcoded constants selected by thresholds over the
    features, then -0.10 times the number of derogatory marks (the
    [derogatory] field, 0 when it is missing) when that number is
    positive. The function returns this value clamped, and the applicant
    is approved exactly when the returned probability exceeds 0.5, which
    is exactly when the accumulated value does. *)
Theorem C3_fixed_scoring_function (features : Obj) (random : JsNum) :
  let r := calculateCreditScore features random in
  score_probability (score features) = accumulated features
  /\ probability r = clamp (accumulated features)
  /\ approved r = js_gt (probability r) (num 0.5)
  /\ approved r = js_gt (accumulated features) (num 0.5)
  /\ Forall (fun t => t ∈ coefficients) (selected features).
Proof.
  cbn zeta. unfold calculateCreditScore. cbn [probability approved].
  split; [apply score_accumulated|]. rewrite score_accumulated.
  repeat split.
  - apply clamp_gt_half.
  - apply selected_coefficients.
Qed.

(** C10. The probability that [calculateCreditScore] returns lies in
    [0.05, 0.95], and the risk score, (1 - probability) * 100, lies in
    [5, 95]. *)
Theorem C10_probability_and_risk_bounds (features : Obj) (random : JsNum) :
  let r := calculateCreditScore features random in
  exists p s : Q,
    probability r = Fin p /\ (0.05 <= p <= 0.95)%Q
    /\ riskScore r = Fin s /\ (5 <= s <= 95)%Q
    /\ riskScore r = js_mul (js_sub (num 1) (probability r)) (num 100).
Proof.
  cbn zeta. unfold calculateCreditScore. cbn [probability riskScore].
  destruct (clamp_range _ (score_not_NaN features)) as (p & -> & Hp).
  exists p. eexists. split; [reflexivity|]. split; [exact Hp|].
  split; [reflexivity|]. split; [|reflexivity].
  destruct Hp. qprop. split; lra.
Qed.

(** C5, as amended. For one request body, any two invocations of [POST]
    return the same status; two successful responses agree on the decision,
    the probability, the risk score, the reasoning, the SHAP-like values,
    the model version and the echoed input, while the confidence is 0.78
    plus 0.12 times the draw of [Math.random()] of the invocation and the
    timestamp is the time of the invocation. *)
Theorem C5_deterministic_up_to_random_and_clock (env1 env2 : Env) (body : Body) :
  match POST env1 body, POST env2 body with
  | Ok p1, Ok p2 =>
      approved (prediction p1) = approved (prediction p2)
      /\ probability (prediction p1) = probability (prediction p2)
      /\ riskScore (prediction p1) = riskScore (prediction p2)
      /\ reasoning (prediction p1) = reasoning (prediction p2)
      /\ shapValues p1 = shapValues p2
      /\ modelVersion p1 = modelVersion p2
      /\ input p1 = input p2
      /\ confidence (prediction p1)
         = js_add (num 0.78) (js_mul (env_random env1) (num 0.12))
      /\ confidence (prediction p2)
         = js_add (num 0.78) (js_mul (env_random env2) (num 0.12))
      /\ timestamp p1 = env_now env1
      /\ timestamp p2 = env_now env2
  | BadRequest e1, BadRequest e2 => e1 = e2
  | _, _ => False
  end.
Proof.
  unfold POST.
  destruct (negb (truthy (get (features_of body) "creditScore"))
            || negb (truthy (get (features_of body) "income"))
            || negb (truthy (get (features_of body) "loanAmount"))) eqn:E;
    [reflexivity|].
  apply orb_false_iff in E as [E E3]. apply orb_false_iff in E as [E1 E2].
  apply negb_false_iff in E1, E2, E3.
  cbn. unfold calculateCreditScore. cbn. rewrite E1, E2, E3. cbn.
  repeat split.
Qed.

Lemma required_falsy (features : Obj) :
  (exists k, k ∈ required /\ truthy (get features k) = false)
  <-> negb (truthy (get features "creditScore"))
      || negb (truthy (get features "income"))
      || negb (truthy (get features "loanAmount")) = true.
Proof.
  unfold required. rewrite !orb_true_iff, !negb_true_iff. split.
  - intros (k & Hk & Hf). set_unfold.
    destruct Hk as [->|[->|[->|[]]]]; auto.
  - intros [[?|?]|?]; eexists; (split; [|eassumption]); set_solver.
Qed.

Lemma missing_falsy (features : Obj) (k : string) :
  missing features k -> truthy (get features k) = false.
Proof. unfold missing. by intros ->. Qed.

(** C6, as amended. [POST] answers 400 exactly when one of creditScore,
    income and loanAmount is falsy in the submitted features, which a
    missing field is, and so are null, false, 0, NaN and the empty string;
    when the three are truthy it answers 200 with the prediction of
    [calculateCreditScore]. *)
Theorem C6_bad_request_iff_falsy (env : Env) (body : Body) :
  let features := features_of body in
  (status (POST env body) = 400%Z
   <-> exists k, k ∈ required /\ truthy (get features k) = false)
  /\ (status (POST env body) = 200%Z
      <-> exists p, POST env body = Ok p
            /\ prediction p = calculateCreditScore features (env_random env))
  /\ (forall k, k ∈ required -> missing features k ->
      status (POST env body) = 400%Z).
Proof.
  cbn zeta. rewrite required_falsy. unfold POST.
  destruct (negb (truthy (get (features_of body) "creditScore"))
            || negb (truthy (get (features_of body) "income"))
            || negb (truthy (get (features_of body) "loanAmount"))) eqn:G;
    cbn [status]; split; [| split | | split].
  - done.
  - split; [done|]. by intros (p & Hp & _).
  - done.
  - done.
  - split; [|done]. intros _. eexists. split; reflexivity.
  - intros k Hk Hm. apply missing_falsy in Hm.
    assert (Hex : exists k, k ∈ required /\ truthy (get (features_of body) k) = false)
      by eauto.
    apply required_falsy in Hex. congruence.
Qed.

End WithHost.
End PredictFacts.

(** ** [shap/explain] *)

Module ShapFacts.
Import NumFacts Shap ShapSpec.

Lemma insert_sorted_Permutation {A} (after : A -> A -> bool) (x : A) (l : list A) :
  insert_sorted after x l ≡ₚ x :: l.
Proof.
  induction l as [|y l IH]; cbn; [done|].
  destruct (after x y); [|done].
  by rewrite IH, Permutation_swap.
Qed.

Lemma sort_Permutation {A} (after : A -> A -> bool) (l : list A) :
  sort after l ≡ₚ l.
Proof.
  induction l as [|x l IH]; cbn; [done|].
  fold (sort after l). by rewrite insert_sorted_Permutation, IH.
Qed.

Section WithHost.
Context `{Host}.

Lemma calculateShapValues_Permutation (features : Obj) (prediction : JsValue) :
  calculateShapValues features prediction ≡ₚ pushed features.
Proof. apply sort_Permutation. Qed.

Lemma derogContribution_below_infinity (v : JsValue) :
  below_infinity (derogContribution v) = true.
Proof.
  unfold derogContribution, gt, mul, js_gt. case_match eqn:E; [|done].
  destruct (ToNumber v) as [| |q|]; try done.
Qed.


Lemma pushed_below_infinity (features : Obj) :
  Forall (fun c => below_infinity c = true) (map contribution (pushed features)).
Proof.
  unfold pushed. cbn [map contribution].
  repeat apply Forall_cons_2; [..|apply Forall_nil_2];
    try apply derogContribution_below_infinity;
    unfold creditContribution, incomeContribution, loanContribution,
      dtiContribution, empContribution, ageContribution, homeContribution;
    by repeat case_match.
Qed.



End WithHost.
End ShapFacts.

(** ** [fairness/analyze] *)

Module FairnessFacts.
Import NumFacts Fairness FairnessSpec.

Lemma filter_length_le {A} (f g : A -> bool) (l : list A) :
  (forall x, f x = true -> g x = true) ->
  (length (List.filter f l) <= length (List.filter g l))%nat.
Proof.
  intros Hfg. induction l as [|x l IH]; cbn; [done|].
  destruct (f x) eqn:Ef.
  - rewrite (Hfg x Ef). cbn. lia.
  - destruct (g x); cbn; lia.
Qed.

Lemma filter_length {A} (f : A -> bool) (l : list A) :
  (length (List.filter f l) <= length l)%nat.
Proof.
  induction l as [|x l IH]; cbn; [done|]. destruct (f x); cbn; lia.
Qed.

Lemma of_nat_zero : of_nat 0 = num 0.
Proof. reflexivity. Qed.

(** The quotient of two counts, the first at most the second, which is
    positive, is a rate. *)
Lemma ratio_unit_interval (a b : nat) :
  (a <= b)%nat -> (0 < b)%nat -> unit_interval (ratio a b).
Proof.
  intros Hab Hb. unfold ratio, of_nat, js_div, num.
  assert (Ha' : (0 <= inject_Z (Z.of_nat a))%Q).
  { change 0%Q with (inject_Z 0). rewrite <- Zle_Qle. lia. }
  assert (Hb' : (0 < inject_Z (Z.of_nat b))%Q).
  { change 0%Q with (inject_Z 0). rewrite <- Zlt_Qlt. lia. }
  assert (Hab' : (inject_Z (Z.of_nat a) <= inject_Z (Z.of_nat b))%Q).
  { rewrite <- Zle_Qle. lia. }
  destruct (Qeq_bool _ 0) eqn:E.
  - qprop. lra.
  - eexists. split; [reflexivity|]. qprop. split.
    + apply Qle_shift_div_l; [done|]. lra.
    + apply Qle_shift_div_r; [done|]. lra.
Qed.

Lemma num_unit_interval_0 : unit_interval (num 0).
Proof. exists 0%Q. split; [reflexivity|]. split; lra. Qed.

Lemma unit_interval_finite (a : JsNum) : unit_interval a -> is_finite a = true.
Proof. by intros (q & -> & _). Qed.

(** What [calculateGroupMetrics] returns, in terms of the rows of the
    group. *)
Lemma calculateGroupMetrics_unfold (data : list Row) (groupKey : string)
    (groupValue : JsValue) :
  let m := calculateGroupMetrics data groupKey groupValue in
  let rows := group_rows data groupKey groupValue in
  let truePositives :=
    length (List.filter (fun row => predicted_positive row && actual_positive row) rows) in
  let falsePositives :=
    length (List.filter (fun row => predicted_positive row && actual_negative row) rows) in
  totalCount m = length rows
  /\ approvalRate m
     = (if (length rows =? 0)%nat then num 0
        else ratio (length (approved_rows rows)) (length rows))
  /\ truePositiveRate m
     = (if (length rows =? 0)%nat || (length (positive_rows rows) =? 0)%nat
        then num 0 else ratio truePositives (length (positive_rows rows)))
  /\ falsePositiveRate m
     = (if (length rows =? 0)%nat || (length (negative_rows rows) =? 0)%nat
        then num 0 else ratio falsePositives (length (negative_rows rows)))
  /\ precision m
     = (if (length rows =? 0)%nat || (length (approved_rows rows) =? 0)%nat
        then num 0 else ratio truePositives (length (approved_rows rows))).
Proof.
  cbn zeta. unfold calculateGroupMetrics, approved_rows, positive_rows, negative_rows.
  fold (group_rows data groupKey groupValue).
  set (rows := group_rows data groupKey groupValue).
  destruct (Nat.eqb_spec (length rows) 0) as [E|E].
  { cbn. rewrite E. repeat split; reflexivity. }
  cbn [approvalRate truePositiveRate falsePositiveRate precision totalCount orb].
  repeat split.
  - destruct (length (List.filter actual_positive rows)); reflexivity.
  - destruct (length (List.filter actual_negative rows)); reflexivity.
  - destruct (length (List.filter predicted_positive rows)); reflexivity.
Qed.

Lemma guarded_ratio_unit_interval (a b : nat) (guard : bool) :
  (a <= b)%nat ->
  unit_interval (if guard || (b =? 0)%nat then num 0 else ratio a b).
Proof.
  intros Hab. destruct guard; cbn [orb]; [apply num_unit_interval_0|].
  destruct (Nat.eqb_spec b 0); [apply num_unit_interval_0|].
  apply ratio_unit_interval; lia.
Qed.

Lemma rates_unit_interval (data : list Row) (groupKey : string)
    (groupValue : JsValue) :
  let m := calculateGroupMetrics data groupKey groupValue in
  unit_interval (approvalRate m) /\ unit_interval (truePositiveRate m)
  /\ unit_interval (falsePositiveRate m) /\ unit_interval (precision m).
Proof.
  cbn zeta.
  destruct (calculateGroupMetrics_unfold data groupKey groupValue)
    as (_ & -> & -> & -> & ->).
  unfold approved_rows, positive_rows, negative_rows.
  split; [|split; [|split]].
  - apply (guarded_ratio_unit_interval _ _ false), filter_length.
  - apply guarded_ratio_unit_interval, filter_length_le.
    intros x Hx. by apply andb_true_iff in Hx as [_ ?].
  - apply guarded_ratio_unit_interval, filter_length_le.
    intros x Hx. by apply andb_true_iff in Hx as [_ ?].
  - apply guarded_ratio_unit_interval, filter_length_le.
    intros x Hx. by apply andb_true_iff in Hx as [? _].
Qed.

(** C8. [calculateGroupMetrics] divides by no zero: each of its four rates
    is the quotient of two counts when its denominator (the size of the
    group, its actual positives, its actual negatives, its approved rows) is
    positive, and 0 when the denominator is 0; and each rate is a finite
    number in [0, 1]. *)
Theorem C8_rates_guarded_and_bounded (data : list Row) (groupKey : string)
    (groupValue : JsValue) :
  let m := calculateGroupMetrics data groupKey groupValue in
  let rows := group_rows data groupKey groupValue in
  let truePositives :=
    length (List.filter (fun row => predicted_positive row && actual_positive row) rows) in
  let falsePositives :=
    length (List.filter (fun row => predicted_positive row && actual_negative row) rows) in
  (unit_interval (approvalRate m) /\ unit_interval (truePositiveRate m)
   /\ unit_interval (falsePositiveRate m) /\ unit_interval (precision m))
  /\ totalCount m = length rows
  /\ approvalRate m
     = (if (length rows =? 0)%nat then num 0
        else ratio (length (approved_rows rows)) (length rows))
  /\ truePositiveRate m
     = (if (length rows =? 0)%nat || (length (positive_rows rows) =? 0)%nat
        then num 0 else ratio truePositives (length (positive_rows rows)))
  /\ falsePositiveRate m
     = (if (length rows =? 0)%nat || (length (negative_rows rows) =? 0)%nat
        then num 0 else ratio falsePositives (length (negative_rows rows)))
  /\ precision m
     = (if (length rows =? 0)%nat || (length (approved_rows rows) =? 0)%nat
        then num 0 else ratio truePositives (length (approved_rows rows))).
Proof.
  cbn zeta. split.
  - apply rates_unit_interval.
  - apply calculateGroupMetrics_unfold.
Qed.

(** SameValueZero is an equivalence. *)
Lemma same_value_zero_refl (a : JsValue) : same_value_zero a a = true.
Proof.
  destruct a as [| |b|n|s]; cbn; try done.
  - by destruct b.
  - destruct n; cbn; try done. by apply Qeq_bool_iff.
  - apply String.eqb_refl.
Qed.

Lemma same_value_zero_sym (a b : JsValue) :
  same_value_zero a b = true -> same_value_zero b a = true.
Proof.
  destruct a as [| |x|[| |p|]|s], b as [| |y|[| |q|]|t]; cbn; try done.
  - by destruct x, y.
  - intros. qprop. by symmetry.
  - rewrite !String.eqb_eq. congruence.
Qed.

Lemma same_value_zero_trans (a b c : JsValue) :
  same_value_zero a b = true -> same_value_zero b c = true ->
  same_value_zero a c = true.
Proof.
  destruct a as [| |x|[| |p|]|s], b as [| |y|[| |q|]|t], c as [| |z|[| |r|]|u];
    cbn; try done.
  - by destruct x, y, z.
  - intros. qprop. by etransitivity.
  - rewrite !String.eqb_eq. congruence.
Qed.

(** The set of a list has at least two elements exactly when the list has
    an element that differs from its first. *)
Lemma add_unique_cons (x v : JsValue) (acc : list JsValue) :
  exists acc', add_unique (x :: acc) v = x :: acc'
    /\ (acc' = [] <-> acc = [] /\ same_value_zero v x = true).
Proof.
  unfold add_unique. cbn [existsb].
  destruct (same_value_zero v x) eqn:E; cbn [orb].
  - exists acc. split; [done|]. split; [by intros ->|by intros [-> _]].
  - destruct (existsb (same_value_zero v) acc) eqn:Eacc.
    + exists acc. split; [done|]. split; [|by intros [_ ?]].
      intros ->. discriminate Eacc.
    + exists (acc ++ [v]). split; [done|]. split; [|by intros [_ ?]].
      intros Hnil. by destruct acc.
Qed.

Lemma unique_from (x : JsValue) (l acc : list JsValue) :
  exists rest, fold_left add_unique l (x :: acc) = x :: rest
    /\ (rest = [] <-> acc = [] /\ Forall (fun v => same_value_zero v x = true) l).
Proof.
  revert acc. induction l as [|v l IH]; intros acc; cbn [fold_left].
  - exists acc. split; [done|]. split; [by intros ->|by intros [-> _]].
  - destruct (add_unique_cons x v acc) as (acc' & -> & Hacc').
    destruct (IH acc') as (rest & -> & Hrest).
    exists rest. split; [done|]. rewrite Hrest, Hacc', Forall_cons. tauto.
Qed.

Lemma unique_nil : unique [] = [].
Proof. reflexivity. Qed.

Lemma unique_two (l : list JsValue) :
  (2 <= length (unique l))%nat
  <-> exists a b, a ∈ l /\ b ∈ l /\ same_value_zero a b = false.
Proof.
  destruct l as [|x l].
  { cbn. split; [lia|]. intros (a & _ & Ha & _). by apply elem_of_nil in Ha. }
  unfold unique. cbn [fold_left]. unfold add_unique at 2. cbn [existsb app].
  destruct (unique_from x l []) as (rest & -> & Hrest).
  split.
  - intros Hlen.
    assert (Hne : ~ Forall (fun v => same_value_zero v x = true) l).
    { intros Hall. destruct Hrest as [_ Hrest].
      rewrite Hrest in Hlen by done. cbn in Hlen. lia. }
    apply not_Forall_Exists in Hne; [|intros v; apply _].
    apply Exists_exists in Hne as (v & Hv & Hvx).
    exists v, x. split; [by apply list_elem_of_further|].
    split; [apply list_elem_of_here|]. by apply not_true_is_false.
  - intros (a & b & Ha & Hb & Hab).
    destruct rest as [|r rest]; [|cbn; lia].
    destruct Hrest as [Hrest _]. destruct (Hrest eq_refl) as [_ Hall].
    assert (Hx : forall v, v ∈ x :: l -> same_value_zero v x = true).
    { intros v Hv. apply elem_of_cons in Hv as [->|Hv].
      - apply same_value_zero_refl.
      - by eapply Forall_forall in Hall. }
    rewrite (same_value_zero_trans a x b) in Hab; [done|by apply Hx|].
    apply same_value_zero_sym. by apply Hx.
Qed.

Section WithHost.
Context `{Host}.

Lemma uniqueGroups_two (rows : list Row) (attribute : JsValue) :
  (2 <= length (uniqueGroups rows attribute))%nat <-> two_groups rows attribute.
Proof.
  unfold uniqueGroups, two_groups, column. rewrite unique_two. split.
  - intros (a & b & Ha & Hb & Hab).
    apply list_elem_of_fmap in Ha as (r1 & -> & Hr1).
    apply list_elem_of_fmap in Hb as (r2 & -> & Hr2).
    by exists r1, r2.
  - intros (r1 & r2 & Hr1 & Hr2 & Hne).
    eexists _, _. split; [|split; [|exact Hne]];
      by apply (list_elem_of_fmap_2 (fun row => get row (ToString attribute))).
Qed.

Lemma invalid_data_no_rows (data : Data) :
  invalid_data data = true <-> no_rows data.
Proof.
  unfold invalid_data. destruct data as [v|rows]; cbn.
  - by rewrite orb_true_r.
  - by destruct rows.
Qed.

(** C7. [POST] answers 400, with an error message and no fairness
    metrics, exactly when the submitted data is missing, not an array or
    empty, or the protected attribute takes fewer than two distinct values
    among the rows; for a non-empty array of rows with at least two distinct
    values it answers 200 with the analysis. *)
Theorem C7_bad_request_iff (now : string) (req : Request) :
  let rows := rows_of (req_data req) in
  let attribute := attribute_of req in
  (status (POST now req) = 400%Z
   <-> no_rows (req_data req) \/ ~ two_groups rows attribute)
  /\ (status (POST now req) = 400%Z <-> exists error, POST now req = BadRequest error)
  /\ (~ no_rows (req_data req) /\ two_groups rows attribute
      <-> exists fairness, POST now req = Ok fairness now).
Proof.
  cbn zeta. unfold POST, attribute_of.
  rewrite <- invalid_data_no_rows, <- uniqueGroups_two.
  destruct (invalid_data (req_data req)) eqn:Einv; cbn [status].
  { split; [|split].
    - split; [by left|done].
    - split; [by eexists|done].
    - split; [by intros [? _]|by intros [? ?]]. }
  destruct (Nat.ltb_spec (length (uniqueGroups (rows_of (req_data req))
    (Predict.with_default (req_protectedAttribute req) (JStr "gender")))) 2)
    as [Hlt|Hge]; cbn [status].
  - split; [|split].
    + split; [right; lia|done].
    + split; [by eexists|done].
    + split; [intros [_ ?]; lia|by intros [? ?]].
  - split; [|split].
    + split; [done|]. intros [?|?]; [done|lia].
    + split; [done|]. by intros [? ?].
    + split; [by eexists|]. intros _. split; [done|lia].
Qed.

Lemma assign_insert (gm : gmap string GroupMetrics) (k : string) (m : GroupMetrics) :
  k <> "__proto__" -> assign gm k m = <[k := m]> gm.
Proof. intros Hk. unfold assign. by apply String.eqb_neq in Hk as ->. Qed.

(** With distinct names, [groupMetrics] has one entry for each group. *)
Lemma collect_from (f : JsValue -> GroupMetrics) (groups : list JsValue)
    (gm : gmap string GroupMetrics) :
  NoDup (map ToString groups) -> "__proto__" ∉ map ToString groups ->
  (forall g, g ∈ groups -> gm !! ToString g = None) ->
  map_to_list (fold_left (fun gm g => assign gm (ToString g) (f g)) groups gm)
  ≡ₚ map (fun g => (ToString g, f g)) groups ++ map_to_list gm.
Proof.
  revert gm. induction groups as [|g groups IH]; intros gm Hnd Hproto Hfresh;
    cbn [fold_left map app]; [done|].
  cbn [map] in Hnd, Hproto. apply NoDup_cons in Hnd as [Hg Hnd].
  apply not_elem_of_cons in Hproto as [Hne Hproto].
  rewrite assign_insert by done.
  rewrite IH; [|done|done|].
  - rewrite map_to_list_insert by (apply Hfresh, list_elem_of_here).
    by rewrite Permutation_middle.
  - intros g' Hg'. rewrite lookup_insert_ne.
    + by apply Hfresh, list_elem_of_further.
    + intros Heq. apply Hg. rewrite Heq. by apply (list_elem_of_fmap_2 ToString).
Qed.

Lemma collect_values (data : list Row) (attribute : JsValue) (groups : list JsValue) :
  distinct_names groups ->
  values (collect data attribute groups)
  ≡ₚ map (calculateGroupMetrics data (ToString attribute)) groups.
Proof.
  intros [Hnd Hproto]. unfold values, collect.
  rewrite collect_from by done.
  rewrite map_to_list_empty, app_nil_r.
  by rewrite <- list_fmap_compose.
Qed.

Lemma group_rates_unit_interval (rows : list Row) (attribute : JsValue) :
  Forall unit_interval (group_rates rows attribute).
Proof.
  unfold group_rates. apply Forall_fmap, Forall_forall. intros g _.
  apply rates_unit_interval.
Qed.

Lemma unit_interval_not_zero (a : JsNum) :
  unit_interval a -> a <> num 0 -> num_truthy a = true.
Proof.
  intros (q & -> & _) Hne. cbn. apply negb_true_iff, not_true_iff_false.
  intros E. apply Hne, num_eq. by qprop.
Qed.

Lemma unit_interval_le_zero (a : JsNum) :
  unit_interval a -> js_le a (num 0) = true -> a = num 0.
Proof.
  intros (q & -> & [Hq _]) Hle. apply num_eq. cbn in Hle. qprop. lra.
Qed.

Lemma unit_interval_div (a b : JsNum) :
  unit_interval a -> unit_interval b -> js_le a b = true -> b <> num 0 ->
  unit_interval (js_div a b).
Proof.
  intros (p & -> & [Hp _]) (q & -> & [Hq _]) Hle Hne. cbn in Hle. cbn.
  destruct (Qeq_bool (Qred q) 0) eqn:E.
  { exfalso. apply Hne, num_eq. by qprop. }
  eexists. split; [reflexivity|]. qprop.
  assert (0 < q)%Q by lra.
  split.
  - apply Qle_shift_div_l; [done|]. lra.
  - apply Qle_shift_div_r; [done|]. lra.
Qed.

(** The analysis of a request with at least two groups of distinct names:
    the extreme approval rates that [POST] computes from [groupMetrics] are
    those of the groups. *)
Lemma POST_analysis (now : string) (req : Request) :
  let rows := rows_of (req_data req) in
  let attribute := attribute_of req in
  let rates := group_rates rows attribute in
  ~ no_rows (req_data req) ->
  two_groups rows attribute ->
  distinct_names (uniqueGroups rows attribute) ->
  exists fairness mn mx,
    POST now req = Ok fairness now
    /\ least mn rates /\ greatest mx rates
    /\ demographicParityDifference (metrics fairness) = js_sub mx mn
    /\ disparateImpact (metrics fairness)
       = js_div mn (if num_truthy mx then mx else num 1)
    /\ _80PercentRule (complianceStatus fairness)
       = js_ge (disparateImpact (metrics fairness)) (num 0.8).
Proof.
  cbn zeta. intros Hrows Hgroups Hnames. unfold POST.
  rewrite <- invalid_data_no_rows in Hrows. apply not_true_is_false in Hrows.
  rewrite Hrows. fold (attribute_of req).
  apply uniqueGroups_two in Hgroups.
  destruct (Nat.ltb_spec (length (uniqueGroups (rows_of (req_data req))
    (attribute_of req))) 2) as [Hlt|_]; [lia|].
  set (approvalRates := map approvalRate (values _)).
  assert (Hperm : approvalRates
                  ≡ₚ group_rates (rows_of (req_data req)) (attribute_of req)).
  { unfold approvalRates, group_rates. rewrite collect_values by done.
    by rewrite <- list_fmap_compose. }
  assert (Hfin : Forall (fun x => is_finite x = true) approvalRates).
  { rewrite Hperm. eapply Forall_impl; [apply group_rates_unit_interval|].
    apply unit_interval_finite. }
  assert (Hne : approvalRates <> []).
  { intros Hnil. rewrite Hnil in Hperm. apply Permutation_nil_l in Hperm.
    unfold group_rates in Hperm. symmetry in Hperm. apply fmap_nil_inv in Hperm.
    rewrite Hperm in Hgroups. cbn in Hgroups. lia. }
  destruct (Math_max_spec approvalRates Hne Hfin) as [Hmax_in Hmax].
  destruct (Math_min_spec approvalRates Hne Hfin) as [Hmin_in Hmin].
  eexists _, (Math_min approvalRates), (Math_max approvalRates).
  split; [reflexivity|]. cbn [metrics complianceStatus demographicParityDifference
    disparateImpact _80PercentRule].
  unfold least, greatest. rewrite <- Hperm. done.
Qed.

(** C1, as amended. For a request whose data is a non-empty array in which
    the protected attribute takes at least two distinct values, of distinct
    names, the disparate impact is the minimum group approval rate divided
    by the maximum one when the maximum is not zero, and 0 when it is zero
    (the divisor is then 1); it lies in [0, 1]; and the 80 percent rule
    holds exactly when the disparate impact is at least 0.8. *)
Theorem C1_disparate_impact (now : string) (req : Request) :
  let rows := rows_of (req_data req) in
  let attribute := attribute_of req in
  let rates := group_rates rows attribute in
  ~ no_rows (req_data req) ->
  two_groups rows attribute ->
  distinct_names (uniqueGroups rows attribute) ->
  exists fairness mn mx,
    POST now req = Ok fairness now
    /\ least mn rates /\ greatest mx rates
    /\ (mx <> num 0 -> disparateImpact (metrics fairness) = js_div mn mx)
    /\ (mx = num 0 -> disparateImpact (metrics fairness) = num 0)
    /\ unit_interval (disparateImpact (metrics fairness))
    /\ (_80PercentRule (complianceStatus fairness) = true
        <-> js_ge (disparateImpact (metrics fairness)) (num 0.8) = true).
Proof.
  cbn zeta. intros Hrows Hgroups Hnames.
  destruct (POST_analysis now req Hrows Hgroups Hnames)
    as (fairness & mn & mx & HPOST & Hmn & Hmx & _ & HDI & Hrule).
  exists fairness, mn, mx. rewrite Hrule, HDI.
  pose proof (group_rates_unit_interval (rows_of (req_data req)) (attribute_of req))
    as Hunit.
  assert (Hmn_unit : unit_interval mn).
  { destruct Hmn as [Hin _]. by eapply Forall_forall in Hunit. }
  assert (Hmx_unit : unit_interval mx).
  { destruct Hmx as [Hin _]. by eapply Forall_forall in Hunit. }
  assert (Hle : js_le mn mx = true).
  { destruct Hmn as [_ Hall], Hmx as [Hin _]. by eapply Forall_forall in Hall. }
  assert (Hzero : mx = num 0 -> js_div mn (if num_truthy mx then mx else num 1) = num 0).
  { intros ->. rewrite (unit_interval_le_zero mn) by done. reflexivity. }
  assert (Hpos : mx <> num 0 ->
                 js_div mn (if num_truthy mx then mx else num 1) = js_div mn mx).
  { intros Hne. by rewrite unit_interval_not_zero. }
  assert (Hunit_DI : unit_interval
                       (js_div mn (if num_truthy mx then mx else num 1))).
  { destruct (num_truthy mx) eqn:E.
    - apply unit_interval_div; try done. intros ->. discriminate E.
    - destruct Hmx_unit as (q & -> & Hq).
      assert (num q = num 0) as Hq0.
      { apply num_eq. cbn in E. apply negb_false_iff in E. by qprop. }
      rewrite Hq0 in Hle. rewrite (unit_interval_le_zero mn) by done.
      apply num_unit_interval_0. }
  split; [done|]. split; [done|]. split; [done|]. split; [done|].
  split; [done|]. split; [done|]. reflexivity.
Qed.

(** For a request as in C1, the demographic parity difference is the
    maximum group approval rate minus the minimum one. *)
Lemma demographicParityDifference_distinct_names (now : string) (req : Request) :
  let rows := rows_of (req_data req) in
  let attribute := attribute_of req in
  let rates := group_rates rows attribute in
  ~ no_rows (req_data req) ->
  two_groups rows attribute ->
  distinct_names (uniqueGroups rows attribute) ->
  exists fairness mn mx,
    POST now req = Ok fairness now
    /\ least mn rates /\ greatest mx rates
    /\ demographicParityDifference (metrics fairness) = js_sub mx mn.
Proof.
  cbn zeta. intros Hrows Hgroups Hnames.
  destruct (POST_analysis now req Hrows Hgroups Hnames)
    as (fairness & mn & mx & HPOST & Hmn & Hmx & HDP & _).
  by exists fairness, mn, mx.
Qed.

End WithHost.
End FairnessFacts.

(** ** The handlers at the example inputs, at every host *)

Module AtEveryHost.
Import Examples.

Section WithHost.
Context `{Host}.

(** The prediction for the applicant: 0.5 + 0.18 + 0.15 + 0.10 + 0.08 - 0.04
    is 0.97, clamped to 0.95. *)
Example applicant_prediction :
  let r := Predict.calculateCreditScore applicant (num 0.5) in
  Predict.score_probability (Predict.score applicant) = num 0.97
  /\ Predict.probability r = num 0.95
  /\ Predict.approved r = true
  /\ Predict.riskScore r = num 5
  /\ Predict.confidence r = num 0.84.
Proof. repeat split; vm_compute; reflexivity. Qed.

(** The explanation of the applicant: the contributions add up to 0.34. *)
Example applicant_explanation :
  exists e,
    Shap.POST explain_applicant = Shap.OkIndividual e
    /\ map Shap.feature (Shap.shapValues e)
       = ["creditScore"; "debtToIncome"; "loanAmount"; "income";
          "employmentLength"; "age"; "derogatory"; "homeOwnership"]
    /\ map Shap.contribution (Shap.shapValues e)
       = map num [0.15; 0.10; 0.08; 0.05; -0.04; -0.02; 0.02; 0]%Q
    /\ Shap.finalPrediction e = num 0.84
    /\ Shap.decision (Shap.interpretation e) = "Approved".
Proof.
  eexists. split; [vm_compute; reflexivity|].
  repeat split; vm_compute; reflexivity.
Qed.

(** The analysis of the mixed rows: approval rates 1/2 and 1. *)
Example mixed_analysis :
  exists fairness,
    Fairness.POST noon (analyze mixed) = Fairness.Ok fairness noon
    /\ FairnessSpec.group_rates mixed (JStr "gender") = [num 0.5; num 1]
    /\ Fairness.demographicParityDifference (Fairness.metrics fairness) = num 0.5
    /\ Fairness.disparateImpact (Fairness.metrics fairness) = num 0.5
    /\ Fairness._80PercentRule (Fairness.complianceStatus fairness) = false
    /\ Fairness.overallScore fairness = num (200 / 3).
Proof.
  eexists. split; [vm_compute; reflexivity|].
  repeat split; vm_compute; reflexivity.
Qed.

Lemma no_approvals_analysis :
  exists fairness,
    Fairness.POST noon (analyze no_approvals) = Fairness.Ok fairness noon
    /\ FairnessSpec.least (num 0) (FairnessSpec.group_rates no_approvals (JStr "gender"))
    /\ FairnessSpec.greatest (num 0) (FairnessSpec.group_rates no_approvals (JStr "gender"))
    /\ Fairness.disparateImpact (Fairness.metrics fairness) = num 0
    /\ Fairness.disparateImpact (Fairness.metrics fairness) <> js_div (num 0) (num 0).
Proof.
  eexists. split; [vm_compute; reflexivity|].
  assert (Hrates : FairnessSpec.group_rates no_approvals (JStr "gender")
                   = [num 0; num 0]) by (vm_compute; reflexivity).
  rewrite Hrates. unfold FairnessSpec.least, FairnessSpec.greatest.
  repeat split; try apply list_elem_of_here;
    try (repeat constructor; reflexivity).
  discriminate.
Qed.

Lemma same_name_analysis :
  exists fairness,
    Fairness.POST noon (analyze same_name) = Fairness.Ok fairness noon
    /\ Fairness.uniqueGroups same_name (JStr "gender") = [JNull; JStr "null"]
    /\ FairnessSpec.group_rates same_name (JStr "gender") = [num 1; num 0]
    /\ js_sub (Math_max [num 1; num 0]) (Math_min [num 1; num 0]) = num 1
    /\ Fairness.values (Fairness.groupMetrics fairness)
       = [Fairness.calculateGroupMetrics same_name "gender" (JStr "null")]
    /\ Fairness.demographicParityDifference (Fairness.metrics fairness) = num 0.
Proof.
  eexists. split; [vm_compute; reflexivity|].
  repeat split; vm_compute; reflexivity.
Qed.


Lemma applicant_confidence :
  exists p1 p2,
    Predict.POST first_call applicant_body = Predict.Ok p1
    /\ Predict.POST second_call applicant_body = Predict.Ok p2
    /\ Predict.confidence (Predict.prediction p1) = num 0.78
    /\ Predict.confidence (Predict.prediction p2) = num 0.84
    /\ Predict.POST first_call applicant_body
       <> Predict.POST second_call applicant_body.
Proof.
  eexists _, _. split; [reflexivity|]. split; [reflexivity|].
  split; [vm_compute; reflexivity|]. split; [vm_compute; reflexivity|].
  intros Heq. apply (f_equal (fun r =>
    match r with
    | Predict.Ok p => Predict.confidence (Predict.prediction p)
    | Predict.BadRequest _ => NaN
    end)) in Heq.
  vm_compute in Heq. discriminate Heq.
Qed.

Lemma zero_score_rejected :
  Predict.status (Predict.POST first_call zero_score_body) = 400%Z
  /\ Forall (fun k => ~ PredictSpec.missing (Predict.features_of zero_score_body) k)
       PredictSpec.required
  /\ get (Predict.features_of zero_score_body) "creditScore" = JNum (num 0).
Proof.
  split; [vm_compute; reflexivity|]. split; [|vm_compute; reflexivity].
  unfold PredictSpec.required, PredictSpec.missing.
  repeat apply Forall_cons_2; [..|apply Forall_nil_2];
    intros Hm; vm_compute in Hm; discriminate Hm.
Qed.

End WithHost.
End AtEveryHost.

(** ** The handlers at the example inputs, at the host of the examples *)

Module AtExamples.
Import Examples.

#[local] Existing Instance example_host.

(** C1, counterexample. With two groups and no approval the minimum and
    the maximum group approval rate are both 0; their ratio is not a number,
    and the disparate impact that [POST] returns is 0. *)
Lemma C1_counterexample :
  exists fairness,
    Fairness.POST noon (analyze no_approvals) = Fairness.Ok fairness noon
    /\ FairnessSpec.least (num 0) (FairnessSpec.group_rates no_approvals (JStr "gender"))
    /\ FairnessSpec.greatest (num 0) (FairnessSpec.group_rates no_approvals (JStr "gender"))
    /\ Fairness.disparateImpact (Fairness.metrics fairness) = num 0
    /\ Fairness.disparateImpact (Fairness.metrics fairness) <> js_div (num 0) (num 0).
Proof. exact AtEveryHost.no_approvals_analysis. Qed.

(** C1, witness: two groups with approval rates 1/2 and 1. *)
Lemma C1_witness :
  ~ FairnessSpec.no_rows (Fairness.req_data (analyze mixed))
  /\ FairnessSpec.two_groups mixed (JStr "gender")
  /\ FairnessSpec.distinct_names (Fairness.uniqueGroups mixed (JStr "gender"))
  /\ exists fairness mn mx,
       Fairness.POST noon (analyze mixed) = Fairness.Ok fairness noon
       /\ FairnessSpec.least mn (FairnessSpec.group_rates mixed (JStr "gender"))
       /\ FairnessSpec.greatest mx (FairnessSpec.group_rates mixed (JStr "gender"))
       /\ (mx <> num 0 ->
           Fairness.disparateImpact (Fairness.metrics fairness) = js_div mn mx)
       /\ (mx = num 0 ->
           Fairness.disparateImpact (Fairness.metrics fairness) = num 0)
       /\ FairnessSpec.unit_interval
            (Fairness.disparateImpact (Fairness.metrics fairness))
       /\ (Fairness._80PercentRule (Fairness.complianceStatus fairness) = true
           <-> js_ge (Fairness.disparateImpact (Fairness.metrics fairness))
                 (num 0.8) = true).
Proof.
  assert (H1 : ~ FairnessSpec.no_rows (Fairness.req_data (analyze mixed)))
    by discriminate.
  assert (H2 : FairnessSpec.two_groups mixed (JStr "gender")).
  { exists (object [("gender", JStr "M"); ("approved", JNum (num 1))]),
      (object [("gender", JStr "F"); ("approved", JNum (num 1))]).
    split; [apply list_elem_of_here|].
    split; [do 2 apply list_elem_of_further; apply list_elem_of_here|].
    vm_compute. reflexivity. }
  assert (H3 : FairnessSpec.distinct_names
                 (Fairness.uniqueGroups mixed (JStr "gender"))).
  { assert (Hg : Fairness.uniqueGroups mixed (JStr "gender")
                 = [JStr "M"; JStr "F"]) by (vm_compute; reflexivity).
    rewrite Hg. split; cbn [map ToString];
      apply (bool_decide_unpack _); vm_compute; reflexivity. }
  split; [exact H1|]. split; [exact H2|]. split; [exact H3|].
  exact (FairnessFacts.C1_disparate_impact noon (analyze mixed) H1 H2 H3).
Defined.

(** C2, at two groups of the same name. The rows hold a group [null] with
    approval rate 1 and a group ['null'] with approval rate 0, whose rates
    differ by 1; both are stored under the property [null] of
    [groupMetrics], the second over the first, and [POST] returns a
    demographic parity difference of 0. *)
Theorem C2_same_name_groups_collide :
  exists fairness,
    Fairness.POST noon (analyze same_name) = Fairness.Ok fairness noon
    /\ Fairness.uniqueGroups same_name (JStr "gender") = [JNull; JStr "null"]
    /\ FairnessSpec.group_rates same_name (JStr "gender") = [num 1; num 0]
    /\ js_sub (Math_max [num 1; num 0]) (Math_min [num 1; num 0]) = num 1
    /\ Fairness.values (Fairness.groupMetrics fairness)
       = [Fairness.calculateGroupMetrics same_name "gender" (JStr "null")]
    /\ Fairness.demographicParityDifference (Fairness.metrics fairness) = num 0.
Proof. exact AtEveryHost.same_name_analysis. Qed.


(** C5, counterexample. Two invocations on the same body that differ in
    the draw of [Math.random()] return the confidences 0.78 and 0.84, and so
    different response bodies. *)
Lemma C5_counterexample :
  exists p1 p2,
    Predict.POST first_call applicant_body = Predict.Ok p1
    /\ Predict.POST second_call applicant_body = Predict.Ok p2
    /\ Predict.confidence (Predict.prediction p1) = num 0.78
    /\ Predict.confidence (Predict.prediction p2) = num 0.84
    /\ Predict.POST first_call applicant_body
       <> Predict.POST second_call applicant_body.
Proof. exact AtEveryHost.applicant_confidence. Qed.

(** C6, counterexample. The features carry creditScore, income and
    loanAmount, none is missing, and [POST] answers 400, because the credit
    score is 0. *)
Lemma C6_counterexample :
  Predict.status (Predict.POST first_call zero_score_body) = 400%Z
  /\ Forall (fun k => ~ PredictSpec.missing (Predict.features_of zero_score_body) k)
       PredictSpec.required
  /\ get (Predict.features_of zero_score_body) "creditScore" = JNum (num 0).
Proof. exact AtEveryHost.zero_score_rejected. Qed.


End AtExamples.

(** * Further properties *)

(** ** Order and arithmetic *)

Module OrderFacts.
Import NumFacts.

Lemma js_add_comm (a b : JsNum) : js_add a b = js_add b a.
Proof. destruct a, b; cbn; try reflexivity. apply num_eq. ring. Qed.

Lemma sum_cons (x : JsNum) (l : list JsNum) :
  sum (x :: l) = js_add x (sum l).
Proof.
  unfold sum. cbn [fold_left].
  rewrite (js_add_comm (num 0) x). apply fold_left_js_add.
Qed.

Lemma sum_snoc (l : list JsNum) (x : JsNum) :
  sum (l ++ [x]) = js_add (sum l) x.
Proof. unfold sum. by rewrite fold_left_app. Qed.

Lemma js_add_le_mono_r (a b c : JsNum) :
  js_le a b = true -> below_infinity a = true -> below_infinity b = true ->
  below_infinity c = true ->
  js_le (js_add c a) (js_add c b) = true.
Proof. destruct a, b, c; cbn; try done. intros. qprop. lra. Qed.

Lemma js_add_le_mono_l (a b c : JsNum) :
  js_le a b = true -> below_infinity a = true -> below_infinity b = true ->
  below_infinity c = true ->
  js_le (js_add a c) (js_add b c) = true.
Proof. destruct a, b, c; cbn; try done. intros. qprop. lra. Qed.

Lemma clamp_mono (a b : JsNum) :
  js_le a b = true -> js_le (clamp a) (clamp b) = true.
Proof.
  intros Hle.
  assert (Ha : a <> NaN) by (by destruct a).
  assert (Hb : b <> NaN) by (by destruct a, b).
  destruct (clamp_range a Ha) as (p & Hp & Hp1 & Hp2).
  destruct (clamp_range b Hb) as (q & Hq & Hq1 & Hq2).
  rewrite Hp, Hq. cbn. qprop.
  destruct a as [| |x|], b as [| |y|]; try done;
    unfold clamp, min2, max2, num in Hp, Hq; cbn in Hp, Hq, Hle;
    repeat match goal with
    | H : context [if Qlt_bool ?u ?v then _ else _] |- _ =>
        destruct (Qlt_bool u v) eqn:?; cbn in H
    end;
    repeat match goal with
    | H : Fin _ = Fin _ |- _ => injection H as <-
    end;
    qprop; try lra.
Qed.

Lemma js_gt_le_trans (a b c : JsNum) :
  js_gt a c = true -> js_le a b = true -> js_gt b c = true.
Proof. unfold js_gt. destruct a, b, c; cbn; try done. intros. qprop. lra. Qed.

Lemma below_infinity_fold (l : list JsNum) :
  Forall (fun x => below_infinity x = true) l -> below_infinity (sum l) = true.
Proof. intros Hl. by apply below_infinity_sum. Qed.

End OrderFacts.

(** ** [model/predict]: monotonicity, confidence and reasoning *)

Module PredictMore.
Import NumFacts OrderFacts Predict PredictSpec PredictFacts.

Lemma get_insert_eq (o : Obj) (k : string) (v : JsValue) :
  get (<[k := v]> o) k = v.
Proof. unfold get. by rewrite lookup_insert_eq. Qed.

Lemma get_insert_ne (o : Obj) (k k' : string) (v : JsValue) :
  k <> k' -> get (<[k := v]> o) k' = get o k'.
Proof. intros Hne. unfold get. by rewrite lookup_insert_ne. Qed.

Lemma probability_mono (total total' : JsNum) :
  js_le total total' = true ->
  js_le (clamp total) (clamp total') = true
  /\ (js_gt (clamp total) (num 0.5) = true -> js_gt (clamp total') (num 0.5) = true)
  /\ js_le (js_mul (js_sub (num 1) (clamp total')) (num 100))
       (js_mul (js_sub (num 1) (clamp total)) (num 100)) = true.
Proof.
  intros Hle. pose proof (clamp_mono _ _ Hle) as Hc.
  split; [done|]. split.
  - intros Hgt. by eapply js_gt_le_trans.
  - destruct (clamp total), (clamp total'); cbn in *; try done. qprop. lra.
Qed.

Section WithHost.
Context `{Host}.

Lemma creditScoreTerm_mono (a b : JsNum) :
  js_le a b = true ->
  js_le (creditScoreTerm (JNum a)) (creditScoreTerm (JNum b)) = true.
Proof.
  intros Hle. unfold creditScoreTerm, ge, js_ge. cbn [ToNumber].
  repeat match goal with
  | |- context [if js_le (num ?c) ?x then _ else _] =>
      destruct (js_le (num c) x) eqn:?
  end; try reflexivity;
  repeat match goal with
  | Ha : js_le (num ?c) a = true, Hb : js_le (num ?c) b = false |- _ =>
      rewrite (js_le_trans _ _ _ Ha Hle) in Hb; discriminate Hb
  end.
Qed.

Lemma derogatoryTerm_antitone (a b : JsNum) :
  js_le a b = true ->
  js_le (derogatoryTerm (JNum b)) (derogatoryTerm (JNum a)) = true.
Proof.
  unfold derogatoryTerm, gt, mul, js_gt. cbn [ToNumber].
  destruct a as [| |p|], b as [| |q|]; cbn; try done;
    repeat match goal with
    | |- context [Qlt_bool ?u ?v] => destruct (Qlt_bool u v) eqn:?; cbn
    end; try done; intros; qprop; lra.
Qed.

Lemma terms_insert_creditScore (features : Obj) (v : JsValue) :
  terms (<["creditScore" := v]> features)
  = creditScoreTerm v :: tail (terms features).
Proof.
  unfold terms, threshold_terms, debtToIncome_of, derogatory_of.
  rewrite get_insert_eq. by rewrite !get_insert_ne.
Qed.

Lemma terms_insert_derogatory (features : Obj) (n : JsNum) :
  terms (<["derogatory" := JNum n]> features)
  = threshold_terms features ++ [derogatoryTerm (JNum n)].
Proof.
  unfold terms, threshold_terms, debtToIncome_of, derogatory_of.
  rewrite get_insert_eq. by rewrite !get_insert_ne.
Qed.

Lemma threshold_terms_below_infinity (features : Obj) :
  Forall (fun x => below_infinity x = true) (threshold_terms features).
Proof.
  eapply Forall_impl; [apply threshold_terms_coefficients|].
  intros t Ht. unfold coefficients in Ht.
  apply list_elem_of_fmap in Ht as (q & -> & _). done.
Qed.

Lemma creditScoreTerm_below_infinity (v : JsValue) :
  below_infinity (creditScoreTerm v) = true.
Proof. unfold creditScoreTerm. by repeat case_match. Qed.

(** X1. Raising the credit score never lowers the prediction: when the
    credit score of the features is a number and is replaced by a number at
    least as large, the other features being the same, the probability does
    not decrease, an approved applicant stays approved, and the risk score
    does not increase. *)
Theorem X1_probability_monotone_in_creditScore (features : Obj) (a b random : JsNum) :
  get features "creditScore" = JNum a ->
  js_le a b = true ->
  let r := calculateCreditScore features random in
  let r' := calculateCreditScore (<["creditScore" := JNum b]> features) random in
  js_le (probability r) (probability r') = true
  /\ (approved r = true -> approved r' = true)
  /\ js_le (riskScore r') (riskScore r) = true.
Proof.
  intros Ha Hle. cbn zeta. unfold calculateCreditScore.
  cbn [probability approved riskScore].
  apply probability_mono. rewrite !score_is_sum.
  rewrite terms_insert_creditScore.
  assert (Hterms : terms features = creditScoreTerm (JNum a) :: tail (terms features)).
  { unfold terms, threshold_terms. by rewrite Ha. }
  rewrite Hterms at 1. rewrite !sum_cons.
  assert (Htail : below_infinity (sum (tail (terms features))) = true).
  { apply below_infinity_fold.
    pose proof (terms_below_infinity features) as Hall.
    rewrite Hterms in Hall. by apply Forall_cons in Hall as [_ ?]. }
  apply js_add_le_mono_r; [|by apply below_infinity_add; [apply creditScoreTerm_below_infinity|]..|done].
  apply js_add_le_mono_l; [by apply creditScoreTerm_mono|..|done];
    apply creditScoreTerm_below_infinity.
Qed.

(** X2. More derogatory marks never raise the prediction: when the number
    of derogatory marks of the features (0 when the field is missing) is a
    number and is replaced by a number at least as large, the other
    features being the same, the probability does not increase and a
    rejected applicant stays rejected. *)
Theorem X2_probability_antitone_in_derogatory (features : Obj) (a b random : JsNum) :
  derogatory_of features = JNum a ->
  js_le a b = true ->
  let r := calculateCreditScore features random in
  let r' := calculateCreditScore (<["derogatory" := JNum b]> features) random in
  js_le (probability r') (probability r) = true
  /\ (approved r' = true -> approved r = true)
  /\ js_le (riskScore r) (riskScore r') = true.
Proof.
  intros Ha Hle. cbn zeta. unfold calculateCreditScore.
  cbn [probability approved riskScore].
  apply probability_mono. rewrite !score_is_sum.
  rewrite terms_insert_derogatory. unfold terms. rewrite Ha, !sum_snoc.
  pose proof (below_infinity_fold _ (threshold_terms_below_infinity features)) as Hsum.
  apply js_add_le_mono_r;
    [|by apply below_infinity_add; [|apply derogatoryTerm_below_infinity]..|done].
  apply js_add_le_mono_r; [by apply derogatoryTerm_antitone|..|done];
    apply derogatoryTerm_below_infinity.
Qed.

End WithHost.
End PredictMore.

Module PredictReasoning.
Import NumFacts OrderFacts Predict PredictSpec PredictFacts MoreSpec.

Section WithHost.
Context `{Host}.

Ltac one_reason :=
  intros st; repeat case_match; cbn [push plus minus score_reasoning];
  first [ exists []; split; [by rewrite app_nil_r | cbn; lia]
        | eexists [_]; split; [reflexivity | cbn; lia] ].

Lemma loanAmountImpact_pushes v : pushes_at_most_one (loanAmountImpact v).
Proof. unfold loanAmountImpact. one_reason. Qed.

Lemma debtToIncomeImpact_pushes v : pushes_at_most_one (debtToIncomeImpact v).
Proof. unfold debtToIncomeImpact. one_reason. Qed.

Lemma employmentImpact_pushes v : pushes_at_most_one (employmentImpact v).
Proof. unfold employmentImpact. one_reason. Qed.

Lemma ageImpact_pushes v : pushes_at_most_one (ageImpact v).
Proof. unfold ageImpact. one_reason. Qed.

Lemma homeOwnershipImpact_pushes v : pushes_at_most_one (homeOwnershipImpact v).
Proof. unfold homeOwnershipImpact. one_reason. Qed.

Lemma derogatoryImpact_pushes v : pushes_at_most_one (derogatoryImpact v).
Proof. unfold derogatoryImpact. one_reason. Qed.

Lemma creditScoreImpact_pushes v st :
  exists msg, msg ∈ creditScore_reasons
    /\ score_reasoning (creditScoreImpact v st) = score_reasoning st ++ [msg].
Proof.
  unfold creditScoreImpact, creditScore_reasons.
  repeat case_match; cbn [push plus minus score_reasoning];
    eexists; (split; [|reflexivity]); set_solver.
Qed.

Lemma incomeImpact_pushes r st :
  exists msg, msg ∈ income_reasons
    /\ score_reasoning (incomeImpact r st) = score_reasoning st ++ [msg].
Proof.
  unfold incomeImpact, income_reasons.
  repeat case_match; cbn [push plus minus score_reasoning];
    eexists; (split; [|reflexivity]); set_solver.
Qed.

(** X4. The reasoning of a prediction is never empty: it starts with the
    reason of the credit-score rule, followed by the reason of the
    loan-to-income rule, and holds at most six more reasons, one for each
    of the other rules at most. *)
Theorem X4_reasoning_shape (features : Obj) (random : JsNum) :
  exists c i rest,
    reasoning (calculateCreditScore features random) = c :: i :: rest
    /\ c ∈ creditScore_reasons /\ i ∈ income_reasons
    /\ (length rest <= 6)%nat.
Proof.
  unfold calculateCreditScore. cbn [reasoning]. unfold score.
  set (st0 := {| score_probability := num 0.5; score_reasoning := [] |}).
  destruct (creditScoreImpact_pushes (get features "creditScore") st0)
    as (c & Hc & E1).
  set (st1 := creditScoreImpact _ st0) in *.
  destruct (incomeImpact_pushes
              (div (get features "loanAmount") (get features "income")) st1)
    as (i & Hi & E2).
  set (st2 := incomeImpact _ st1) in *.
  destruct (loanAmountImpact_pushes (get features "loanAmount") st2)
    as (m3 & E3 & L3).
  set (st3 := loanAmountImpact _ st2) in *.
  destruct (debtToIncomeImpact_pushes (debtToIncome_of features) st3)
    as (m4 & E4 & L4).
  set (st4 := debtToIncomeImpact _ st3) in *.
  destruct (employmentImpact_pushes (get features "employmentLength") st4)
    as (m5 & E5 & L5).
  set (st5 := employmentImpact _ st4) in *.
  destruct (ageImpact_pushes (get features "age") st5) as (m6 & E6 & L6).
  set (st6 := ageImpact _ st5) in *.
  destruct (homeOwnershipImpact_pushes (get features "homeOwnership") st6)
    as (m7 & E7 & L7).
  set (st7 := homeOwnershipImpact _ st6) in *.
  destruct (derogatoryImpact_pushes (derogatory_of features) st7)
    as (m8 & E8 & L8).
  exists c, i, (m3 ++ m4 ++ m5 ++ m6 ++ m7 ++ m8).
  split; [|split; [done|split; [done|]]].
  - rewrite E8, E7, E6, E5, E4, E3, E2, E1. cbn [score_reasoning st0 app].
    by rewrite <- !app_assoc.
  - rewrite !length_app. lia.
Qed.

(** X3. The confidence of a prediction: when creditScore, income and
    loanAmount are truthy, as they are whenever [POST] answers 200, it is
    0.78 plus 0.12 times the draw of [Math.random()] and lies in
    [0.78, 0.90]; when one of them is falsy, [calculateCreditScore] draws
    no number and returns the confidence 0.65. *)
Theorem X3_confidence_range (features : Obj) (random : JsNum) :
  draw random ->
  let r := calculateCreditScore features random in
  ((forall k, k ∈ required -> truthy (get features k) = true) ->
   between 0.78 0.90 (confidence r))
  /\ ((exists k, k ∈ required /\ truthy (get features k) = false) ->
      confidence r = num 0.65)
  /\ (forall env body p,
        env_random env = random -> POST env body = Ok p ->
        between 0.78 0.90 (confidence (prediction p))).
Proof.
  intros (q & -> & Hq). cbn zeta.
  assert (Hin : between 0.78 0.90 (js_add (num 0.78) (js_mul (Fin q) (num 0.12)))).
  { eexists. split; [reflexivity|]. qprop. split; lra. }
  split; [|split].
  - intros Hall. unfold calculateCreditScore. cbn [confidence].
    rewrite (Hall "creditScore"), (Hall "income"), (Hall "loanAmount")
      by (unfold required; repeat constructor).
    exact Hin.
  - intros Hex. apply required_falsy in Hex.
    unfold calculateCreditScore. cbn [confidence].
    destruct (truthy (get features "creditScore")),
      (truthy (get features "income")),
      (truthy (get features "loanAmount")); try reflexivity.
    discriminate Hex.
  - intros env body p Hrandom. unfold POST.
    destruct (negb (truthy (get (features_of body) "creditScore"))
              || negb (truthy (get (features_of body) "income"))
              || negb (truthy (get (features_of body) "loanAmount"))) eqn:G;
      [discriminate|].
    intros [= <-]. cbn [prediction]. unfold calculateCreditScore. cbn [confidence].
    apply orb_false_iff in G as [G G3]. apply orb_false_iff in G as [G1 G2].
    apply negb_false_iff in G1, G2, G3. rewrite G1, G2, G3, Hrandom. exact Hin.
Qed.

End WithHost.
End PredictReasoning.

(** ** [shap/explain]: order, responses and interpretation *)

Module ShapMore.
Import NumFacts OrderFacts Shap ShapSpec ShapFacts MoreSpec.

Lemma insert_sorted_StronglySorted {A} (R : relation A) (after : A -> A -> bool)
    (P : A -> Prop) :
  Transitive R ->
  (forall x y, P x -> P y -> after x y = true -> R y x) ->
  (forall x y, P x -> P y -> after x y = false -> R x y) ->
  forall x l, P x -> Forall P l -> StronglySorted R l ->
    StronglySorted R (insert_sorted after x l).
Proof.
  intros Htrans Hafter Hbefore x l Hx Hl Hsorted.
  induction Hsorted as [|y l Hsorted IH Hy]; cbn.
  - repeat constructor.
  - apply Forall_cons in Hl as [HPy Hl].
    destruct (after x y) eqn:E.
    + constructor; [by apply IH|].
      rewrite insert_sorted_Permutation. constructor; [by apply Hafter|done].
    + constructor; [by constructor|].
      assert (Hxy : R x y) by by apply Hbefore.
      constructor; [done|].
      eapply Forall_impl; [exact Hy|]. intros z Hz. by etransitivity.
Qed.

Lemma sort_StronglySorted {A} (R : relation A) (after : A -> A -> bool)
    (P : A -> Prop) :
  Transitive R ->
  (forall x y, P x -> P y -> after x y = true -> R y x) ->
  (forall x y, P x -> P y -> after x y = false -> R x y) ->
  forall l, Forall P l -> StronglySorted R (sort after l).
Proof.
  intros Htrans Hafter Hbefore l Hl.
  induction Hl as [|x l Hx Hl IH]; cbn; [constructor|].
  fold (sort after l).
  apply (insert_sorted_StronglySorted R after P); try done.
  by rewrite sort_Permutation.
Qed.

Lemma by_magnitude_trans : Transitive by_magnitude.
Proof. intros a b c Hab Hbc. unfold by_magnitude in *. by eapply js_le_trans. Qed.

Lemma sorts_after_true (a b : ShapValue) :
  below_infinity (contribution a) = true ->
  below_infinity (contribution b) = true ->
  sorts_after a b = true -> by_magnitude b a.
Proof.
  unfold sorts_after, by_magnitude, compare_contribution, js_gt, js_sub.
  destruct (contribution a) as [| |p|], (contribution b) as [| |q|];
    cbn; try done.
  intros _ _ Hlt. qprop. lra.
Qed.

Lemma sorts_after_false (a b : ShapValue) :
  below_infinity (contribution a) = true ->
  below_infinity (contribution b) = true ->
  sorts_after a b = false -> by_magnitude a b.
Proof.
  unfold sorts_after, by_magnitude, compare_contribution, js_gt, js_sub.
  destruct (contribution a) as [| |p|], (contribution b) as [| |q|];
    cbn; try done.
  intros _ _ Hlt. qprop. lra.
Qed.

Lemma sum_Permutation (l l' : list JsNum) : l ≡ₚ l' -> sum l = sum l'.
Proof.
  induction 1 as [|x l l' _ IH|x y l|l l' l'' _ IH1 _ IH2].
  - done.
  - by rewrite !sum_cons, IH.
  - rewrite !sum_cons, <- !js_add_assoc. by rewrite (js_add_comm y x).
  - by rewrite IH1.
Qed.

Section WithHost.
Context `{Host}.

Lemma pushed_contributions_below_infinity (features : Obj) :
  Forall (fun sv => below_infinity (contribution sv) = true) (pushed features).
Proof.
  pose proof (pushed_below_infinity features) as Hall.
  by apply Forall_fmap in Hall.
Qed.

(** X5. The explanation is ordered by the magnitude of the contributions:
    in the list that [calculateShapValues] returns, no feature comes after
    one whose contribution is smaller in absolute value. *)
Theorem X5_shap_values_sorted (features : Obj) (prediction : JsValue) :
  StronglySorted by_magnitude (calculateShapValues features prediction).
Proof.
  unfold calculateShapValues.
  apply (sort_StronglySorted by_magnitude sorts_after
           (fun sv => below_infinity (contribution sv) = true)).
  - apply by_magnitude_trans.
  - apply sorts_after_true.
  - apply sorts_after_false.
  - apply pushed_contributions_below_infinity.
Qed.

(** X6. The three answers of [POST]: a request of type [global] gets the
    nine global importances whether or not it carries features; any other
    request gets a 400 when its features are missing or falsy, and an
    individual explanation otherwise. *)
Theorem X6_explain_responses (req : Request) :
  (req_type req = JStr "global"
   <-> exists g, POST req = OkGlobal g)
  /\ (forall g, POST req = OkGlobal g ->
       featureImportance g = generateGlobalImportance
       /\ totalFeatures g = 9%nat /\ length (featureImportance g) = 9%nat)
  /\ (req_type req <> JStr "global" /\ field_truthy (req_features req) = false
      <-> status (POST req) = 400%Z)
  /\ (req_type req <> JStr "global" /\ field_truthy (req_features req) = true
      <-> exists e, POST req = OkIndividual e).
Proof.
  unfold POST.
  destruct (strict_eq (Predict.with_default (req_type req) (JStr "individual"))
              (JStr "global")) eqn:Etype.
  - assert (Hglobal : req_type req = JStr "global").
    { destruct (req_type req) as [| | | |s]; try discriminate Etype.
      cbn in Etype. by apply String.eqb_eq in Etype as ->. }
    split; [split; [by eexists|done]|].
    split; [by intros g [= <-]|].
    split; [split; [by intros [? _]|discriminate]|].
    split; [by intros [? _]|by intros [? ?]].
  - assert (Hglobal : req_type req <> JStr "global").
    { intros E. rewrite E in Etype. discriminate Etype. }
    split; [split; [done|]|].
    { destruct (negb _); by intros [? ?]. }
    split.
    { destruct (negb _); by intros g. }
    destruct (field_truthy (req_features req)); cbn [negb status].
    + split; [split; [by intros [_ ?]|discriminate]|].
      split; [by eexists|done].
    + split; [done|]. split; [by intros [_ ?]|by intros [? ?]].
Qed.

End WithHost.
End ShapMore.

Module ShapInterpretation.
Import NumFacts OrderFacts Shap ShapSpec ShapFacts ShapMore MoreSpec.

Lemma exists_or_forall {A} (f : A -> bool) (l : list A) :
  (exists x, x ∈ l /\ f x = true) \/ Forall (fun x => f x = false) l.
Proof.
  induction l as [|x l [(y & Hy & Hfy)|IH]].
  - right. constructor.
  - left. exists y. split; [by apply list_elem_of_further|done].
  - destruct (f x) eqn:E.
    + left. exists x. split; [apply list_elem_of_here|done].
    + right. by constructor.
Qed.

Lemma sum_nonpositive (l : list JsNum) :
  Forall (fun c => js_le c (num 0) = true) l -> js_le (sum l) (num 0) = true.
Proof.
  induction 1 as [|x l Hx _ IH]; [reflexivity|].
  rewrite sum_cons. destruct x, (sum l); cbn in *; try done. qprop. lra.
Qed.

Lemma sum_nonnegative (l : list JsNum) :
  Forall (fun c => js_le (num 0) c = true) l -> js_le (num 0) (sum l) = true.
Proof.
  induction 1 as [|x l Hx _ IH]; [reflexivity|].
  rewrite sum_cons. destruct x, (sum l); cbn in *; try done. qprop. lra.
Qed.

Lemma sum_positive (l : list JsNum) (x : JsNum) :
  Forall (fun c => js_le (num 0) c = true) l ->
  x ∈ l -> js_lt (num 0) x = true -> js_lt (num 0) (sum l) = true.
Proof.
  intros Hall Hx Hpos.
  apply elem_of_Permutation in Hx as (l' & Hperm).
  rewrite (sum_Permutation _ _ Hperm), sum_cons.
  rewrite Hperm in Hall. apply Forall_cons in Hall as [_ Hall].
  pose proof (sum_nonnegative l' Hall) as Hsum.
  destruct x, (sum l'); cbn in *; try done. qprop. lra.
Qed.

Lemma take_filter_elem {A} (f : A -> bool) (n : nat) (l : list A) (x : A) :
  x ∈ take n (List.filter f l) -> x ∈ l /\ f x = true.
Proof.
  intros Hx. apply elem_of_take in Hx as (i & Hx & _).
  apply list_elem_of_lookup_2, list_elem_of_In, filter_In in Hx as [Hx Hf].
  split; [by apply list_elem_of_In|done].
Qed.

Lemma filter_nonempty {A} (f : A -> bool) (l : list A) (x : A) :
  x ∈ l -> f x = true -> (0 < length (List.filter f l))%nat.
Proof.
  intros Hx Hf.
  assert (Hin : In x (List.filter f l)).
  { apply filter_In. split; [by apply list_elem_of_In|done]. }
  destruct (List.filter f l); [done|cbn; lia].
Qed.

Section WithHost.
Context `{Host}.

(** The contribution of the derogatory marks is never zero. *)
Lemma derogContribution_sign (v : JsValue) :
  js_lt (derogContribution v) (num 0) = true
  \/ js_gt (derogContribution v) (num 0) = true.
Proof.
  unfold derogContribution, gt, mul, js_gt.
  destruct (js_lt (num 0) (ToNumber v)) eqn:E; [left|by right].
  destruct (ToNumber v) as [| |q|]; try done.
  cbn in *. qprop. lra.
Qed.

Lemma derogatory_pushed (features : Obj) :
  exists sv, sv ∈ pushed features
    /\ contribution sv = derogContribution (Predict.derogatory_of features).
Proof.
  exists {| feature := "derogatory";
            value := Predict.derogatory_of features;
            contribution := derogContribution (Predict.derogatory_of features);
            displayName := "Derogatory Marks" |}.
  split; [|reflexivity]. unfold pushed.
  do 7 apply list_elem_of_further. apply list_elem_of_here.
Qed.

(** The individual explanation, spelled out. *)
Lemma POST_individual (req : Request) (e : Individual) :
  POST req = OkIndividual e ->
  let positive := List.filter (fun sv => js_gt (contribution sv) (num 0)) (shapValues e) in
  let negative := List.filter (fun sv => js_lt (contribution sv) (num 0)) (shapValues e) in
  shapValues e ≡ₚ pushed (properties (req_features req))
  /\ finalPrediction e
     = clamp (js_add (num 0.5) (sum (map contribution (shapValues e))))
  /\ confidence (interpretation e)
     = js_mul (js_abs (js_sub (finalPrediction e) (num 0.5))) (num 2)
  /\ decision (interpretation e)
     = (if js_gt (finalPrediction e) (num 0.5) then "Approved" else "Rejected")
  /\ mainFactors (interpretation e)
     = (if (0 <? length (map displayName (take 3 positive)))%nat
        then map displayName (take 3 positive)
        else map displayName (take 3 negative)).
Proof.
  unfold POST.
  destruct (strict_eq _ (JStr "global")); [discriminate|].
  destruct (negb (field_truthy (req_features req))); [discriminate|].
  intros [= <-]. cbn zeta.
  cbn [shapValues finalPrediction interpretation confidence decision mainFactors].
  split; [apply calculateShapValues_Permutation|done].
Qed.

Lemma contributions_below_infinity (req : Request) (e : Individual) :
  POST req = OkIndividual e ->
  Forall (fun sv => below_infinity (contribution sv) = true) (shapValues e).
Proof.
  intros HPOST. destruct (POST_individual req e HPOST) as (Hperm & _).
  rewrite Hperm. apply pushed_contributions_below_infinity.
Qed.

(** X7. The confidence of an individual explanation is twice the distance
    of the final prediction from 0.5, and lies in [0, 0.9]. *)
Theorem X7_interpretation_confidence (req : Request) (e : Individual) :
  POST req = OkIndividual e ->
  confidence (interpretation e)
  = js_mul (js_abs (js_sub (finalPrediction e) (num 0.5))) (num 2)
  /\ between 0 0.9 (confidence (interpretation e)).
Proof.
  intros HPOST.
  destruct (POST_individual req e HPOST) as (_ & Hfinal & Hconf & _).
  split; [done|]. rewrite Hconf, Hfinal.
  assert (Hsum : below_infinity (sum (map contribution (shapValues e))) = true).
  { apply below_infinity_fold, Forall_fmap.
    by apply (contributions_below_infinity req). }
  assert (Hnan : js_add (num 0.5) (sum (map contribution (shapValues e))) <> NaN).
  { destruct (sum (map contribution (shapValues e))); done. }
  destruct (clamp_range _ Hnan) as (p & -> & Hp1 & Hp2).
  eexists. split; [reflexivity|]. qprop.
  pose proof (Qabs_nonneg (p + - (0.5))) as Hnonneg.
  assert (Hup : (Qabs (p + - (0.5)) <= 0.45)%Q).
  { apply Qabs_Qle_condition. split; lra. }
  split; lra.
Qed.

(** X8. The factors of an individual explanation: [mainFactors] names
    between one and three of the returned features; they are features with
    a positive contribution whenever there is one, also when the decision
    is Rejected, and features with a negative contribution otherwise; an
    approved explanation has a feature with a positive contribution and a
    rejected one a feature with a negative contribution. *)
Theorem X8_main_factors (req : Request) (e : Individual) :
  POST req = OkIndividual e ->
  let positive sv := js_gt (contribution sv) (num 0) in
  let negative sv := js_lt (contribution sv) (num 0) in
  let factors := mainFactors (interpretation e) in
  (1 <= length factors <= 3)%nat
  /\ ((exists sv, sv ∈ shapValues e /\ positive sv = true) ->
      forall name, name ∈ factors ->
        exists sv, sv ∈ shapValues e /\ displayName sv = name /\ positive sv = true)
  /\ (~ (exists sv, sv ∈ shapValues e /\ positive sv = true) ->
      forall name, name ∈ factors ->
        exists sv, sv ∈ shapValues e /\ displayName sv = name /\ negative sv = true)
  /\ (decision (interpretation e) = "Approved" ->
      exists sv, sv ∈ shapValues e /\ positive sv = true)
  /\ (decision (interpretation e) = "Rejected" ->
      exists sv, sv ∈ shapValues e /\ negative sv = true).
Proof.
  intros HPOST. cbn zeta.
  destruct (POST_individual req e HPOST) as (Hperm & Hfinal & _ & Hdecision & Hmain).
  cbn zeta in Hmain.
  pose proof (contributions_below_infinity req e HPOST) as Hbelow.
  set (pos := fun sv => js_gt (contribution sv) (num 0)) in *.
  set (neg := fun sv => js_lt (contribution sv) (num 0)) in *.
  assert (Hderog : exists sv, sv ∈ shapValues e /\ (neg sv = true \/ pos sv = true)).
  { destruct (derogatory_pushed (properties (req_features req))) as (sv & Hin & Hc).
    exists sv. split; [by rewrite Hperm|].
    unfold neg, pos. rewrite Hc. apply derogContribution_sign. }
  assert (Hnone : Forall (fun sv => pos sv = false) (shapValues e) ->
                  exists sv, sv ∈ shapValues e /\ neg sv = true).
  { intros Hall. destruct Hderog as (sv & Hin & [Hneg|Hpos]); [by exists sv|].
    eapply Forall_forall in Hall; [|exact Hin]. congruence. }
  split; [|split; [|split; [|split]]].
  - rewrite Hmain.
    destruct (Nat.ltb_spec 0 (length (map displayName (take 3 (List.filter pos (shapValues e))))))
      as [Hlt|Hge].
    + split; [lia|]. rewrite length_map, length_take. lia.
    + rewrite !length_map, !length_take in *.
      destruct (exists_or_forall pos (shapValues e)) as [(sv & Hin & Hp)|Hall].
      { pose proof (filter_nonempty pos _ sv Hin Hp). lia. }
      destruct (Hnone Hall) as (sv & Hin & Hn).
      pose proof (filter_nonempty neg _ sv Hin Hn). lia.
  - intros (sv & Hin & Hp) name Hname. rewrite Hmain in Hname.
    pose proof (filter_nonempty pos _ sv Hin Hp) as Hlen.
    assert ((0 <? length (map displayName (take 3 (List.filter pos (shapValues e)))))%nat
            = true) as Hlt.
    { apply Nat.ltb_lt. rewrite length_map, length_take. lia. }
    rewrite Hlt in Hname.
    apply list_elem_of_fmap in Hname as (sv' & -> & Hsv').
    apply take_filter_elem in Hsv' as [? ?]. by exists sv'.
  - intros Hno name Hname. rewrite Hmain in Hname.
    assert ((0 <? length (map displayName (take 3 (List.filter pos (shapValues e)))))%nat
            = false) as Hlt.
    { apply Nat.ltb_ge. rewrite length_map, length_take.
      destruct (List.filter pos (shapValues e)) as [|sv l] eqn:E; [cbn; lia|].
      exfalso. apply Hno. exists sv.
      assert (Hin : In sv (List.filter pos (shapValues e)))
        by (rewrite E; by left).
      apply filter_In in Hin as [Hin ?]. split; [by apply list_elem_of_In|done]. }
    rewrite Hlt in Hname.
    apply list_elem_of_fmap in Hname as (sv' & -> & Hsv').
    apply take_filter_elem in Hsv' as [? ?]. by exists sv'.
  - intros Happroved. rewrite Hdecision in Happroved.
    destruct (js_gt (finalPrediction e) (num 0.5)) eqn:Hgt; [|discriminate].
    destruct (exists_or_forall pos (shapValues e)) as [?|Hall]; [done|].
    exfalso. rewrite Hfinal, clamp_gt_half in Hgt.
    assert (Hle : js_le (sum (map contribution (shapValues e))) (num 0) = true).
    { apply sum_nonpositive, Forall_fmap.
      assert (Hboth : Forall (fun sv => pos sv = false
                                /\ below_infinity (contribution sv) = true)
                        (shapValues e)) by by apply Forall_and.
      eapply Forall_impl; [exact Hboth|].
      intros sv [Hp Hb]. unfold pos, js_gt in Hp. cbn beta in *.
      apply js_nlt_le; [done|by destruct (contribution sv)|done]. }
    unfold js_gt in Hgt.
    destruct (sum (map contribution (shapValues e))); cbn in *; try done.
    qprop. lra.
  - intros Hrejected. rewrite Hdecision in Hrejected.
    destruct (js_gt (finalPrediction e) (num 0.5)) eqn:Hgt; [discriminate|].
    destruct (exists_or_forall neg (shapValues e)) as [?|Hall]; [done|].
    exfalso. rewrite Hfinal, clamp_gt_half in Hgt.
    destruct Hderog as (sv & Hin & [Hneg|Hpos]).
    { eapply Forall_forall in Hall; [|exact Hin]. congruence. }
    assert (Hsum : js_lt (num 0) (sum (map contribution (shapValues e))) = true).
    { apply (sum_positive _ (contribution sv)); [| |exact Hpos].
      - apply Forall_fmap.
        assert (Hboth : Forall (fun sv => neg sv = false
                                  /\ below_infinity (contribution sv) = true)
                          (shapValues e)) by by apply Forall_and.
        eapply Forall_impl; [exact Hboth|].
        intros sv' [Hn Hb]. unfold neg in Hn. cbn beta in *.
        apply js_nlt_le; [by destruct (contribution sv')|done|done].
      - by apply (list_elem_of_fmap_2 contribution). }
    unfold js_gt in Hgt.
    destruct (sum (map contribution (shapValues e))); cbn in *; try done.
    qprop. lra.
Qed.

End WithHost.
End ShapInterpretation.

(** ** [fairness/analyze]: the score *)

Module FairnessScore.
Import NumFacts OrderFacts Fairness FairnessSpec FairnessFacts MoreSpec.

(** One component of the score: 100 minus 100 times a magnitude, floored
    at 0. *)
Lemma component_range (x : JsNum) :
  x <> NaN ->
  exists s, max2 (num 0) (js_sub (num 100) (js_mul (js_abs x) (num 100))) = num s
    /\ (0 <= s <= 100)%Q
    /\ (s == 100 <-> exists q, x = Fin q /\ q == 0)%Q.
Proof.
  intros Hx. destruct x as [| |q|]; [done| | |].
  - exists 0%Q. split; [reflexivity|]. split; [lra|].
    split; [lra|]. by intros (? & ? & _).
  - unfold max2, js_sub, js_mul, js_abs, js_neg, js_add, num. cbn.
    pose proof (Qabs_nonneg q) as Hnn.
    destruct (Qlt_bool _ _) eqn:E.
    + exists (100 - Qabs q * 100)%Q. split; [apply num_eq; qprop; lra|].
      qprop. split; [lra|]. split.
      * intros Hs. exists q. split; [done|].
        assert (Qabs q == 0)%Q as H0 by lra.
        assert (Qabs q <= 0)%Q as Hle by lra.
        apply Qabs_Qle_condition in Hle. lra.
      * intros (q' & [= <-] & Hq).
        assert (Qabs q == 0)%Q by (rewrite Hq; reflexivity). lra.
    + exists 0%Q. split; [reflexivity|]. qprop. split; [lra|]. split; [lra|].
      intros (q' & [= <-] & Hq).
      assert (Qabs q == 0)%Q by (rewrite Hq; reflexivity). lra.
  - exists 0%Q. split; [reflexivity|]. split; [lra|].
    split; [lra|]. by intros (? & ? & _).
Qed.

Lemma calculateFairnessScore_spec (metrics : ScoreInput) :
  in_demographicParityDifference metrics <> NaN ->
  in_equalOpportunityDifference metrics <> NaN ->
  in_disparateImpact metrics <> NaN ->
  between 0 100 (calculateFairnessScore metrics)
  /\ (js_eq (in_demographicParityDifference metrics) (num 0) = true ->
      js_eq (in_equalOpportunityDifference metrics) (num 0) = true ->
      js_ge (in_disparateImpact metrics) (num 0.8) = true ->
      js_le (in_disparateImpact metrics) (num 1.25) = true ->
      calculateFairnessScore metrics = num 100)
  /\ (calculateFairnessScore metrics = num 100 ->
      js_ge (in_disparateImpact metrics) (num 0.8) = true
      /\ js_le (in_disparateImpact metrics) (num 1.25) = true).
Proof.
  intros Hdp Heo Hdi. unfold calculateFairnessScore.
  destruct (component_range _ Hdp) as (a & -> & Ha & Ha100).
  destruct (component_range _ Heo) as (b & -> & Hb & Hb100).
  assert (Hc : exists c,
    (if js_ge (in_disparateImpact metrics) (num 0.8)
        && js_le (in_disparateImpact metrics) (num 1.25)
     then num 100
     else max2 (num 0)
            (js_sub (num 100)
               (js_mul (js_abs (js_sub (num 1) (in_disparateImpact metrics)))
                  (num 100)))) = num c
    /\ (0 <= c <= 100)%Q
    /\ (c == 100 <-> js_ge (in_disparateImpact metrics) (num 0.8) = true
                     /\ js_le (in_disparateImpact metrics) (num 1.25) = true)%Q).
  { destruct (js_ge _ (num 0.8) && js_le _ (num 1.25)) eqn:E.
    - exists 100%Q. split; [reflexivity|]. split; [lra|].
      split; [|done]. intros _. by apply andb_true_iff in E.
    - assert (Hsub : js_sub (num 1) (in_disparateImpact metrics) <> NaN)
        by (by destruct (in_disparateImpact metrics)).
      destruct (component_range _ Hsub) as (c & -> & Hc & Hc100).
      exists c. split; [reflexivity|]. split; [done|]. rewrite Hc100. split.
      + intros (q & Hq & Hq0). exfalso.
        destruct (in_disparateImpact metrics) as [| |d|]; try done.
        cbn in Hq. injection Hq as <-. unfold js_ge in E. cbn in E.
        apply andb_false_iff in E as [E|E]; qprop; lra.
      + intros [E1 E2]. rewrite E1, E2 in E. discriminate E. }
  destruct Hc as (c & -> & Hc & Hc100).
  cbn. split; [|split].
  - eexists. split; [reflexivity|]. qprop. split.
    + apply Qle_shift_div_l; lra.
    + apply Qle_shift_div_r; lra.
  - intros Hp Hq E1 E2.
    assert (c == 100)%Q as Hc' by (by apply Hc100).
    assert (a == 100)%Q as Ha'.
    { apply Ha100. destruct (in_demographicParityDifference metrics) as [| |p|];
        try done. exists p. split; [done|]. cbn in Hp. by qprop. }
    assert (b == 100)%Q as Hb'.
    { apply Hb100. destruct (in_equalOpportunityDifference metrics) as [| |p|];
        try done. exists p. split; [done|]. cbn in Hq. by qprop. }
    apply num_eq. qprop. rewrite Ha', Hb', Hc'. reflexivity.
  - intros [= Heq]. apply Hc100.
    assert (Hv : (Qred (Qred (Qred (Qred a + Qred b) + Qred c) / Qred 3)
                  == Qred 100)%Q) by (rewrite Heq; reflexivity).
    qprop. unfold Qdiv in Hv. change (/ 3)%Q with (1 # 3)%Q in Hv. lra.
Qed.

(** X9. The composite fairness score: when none of its three inputs is
    NaN, [calculateFairnessScore] returns a number in [0, 100]; it returns
    100 when the two differences are 0 and the disparate impact lies in
    [0.8, 1.25]; and it returns 100 only when the disparate impact lies
    in [0.8, 1.25]. *)
Theorem X9_fairness_score_range (metrics : ScoreInput) :
  in_demographicParityDifference metrics <> NaN ->
  in_equalOpportunityDifference metrics <> NaN ->
  in_disparateImpact metrics <> NaN ->
  between 0 100 (calculateFairnessScore metrics)
  /\ (js_eq (in_demographicParityDifference metrics) (num 0) = true ->
      js_eq (in_equalOpportunityDifference metrics) (num 0) = true ->
      js_ge (in_disparateImpact metrics) (num 0.8) = true ->
      js_le (in_disparateImpact metrics) (num 1.25) = true ->
      calculateFairnessScore metrics = num 100)
  /\ (calculateFairnessScore metrics = num 100 ->
      js_ge (in_disparateImpact metrics) (num 0.8) = true
      /\ js_le (in_disparateImpact metrics) (num 1.25) = true).
Proof.
  intros Hdp Heo Hdi.
  destruct (calculateFairnessScore_spec metrics Hdp Heo Hdi) as (Hrange & H100 & Hdi100).
  split; [exact Hrange|]. split; [exact H100|exact Hdi100].
Qed.

End FairnessScore.

(** ** [fairness/analyze]: the analysis *)

Module FairnessAnalysis.
Import NumFacts OrderFacts Fairness FairnessSpec FairnessFacts MoreSpec.

Lemma unit_interval_sub (a b : JsNum) :
  unit_interval a -> unit_interval b -> js_le b a = true ->
  unit_interval (js_sub a b).
Proof.
  intros (p & -> & Hp) (q & -> & Hq) Hle. cbn in Hle. cbn.
  eexists. split; [reflexivity|]. qprop. split; lra.
Qed.

Lemma unit_interval_complement (a : JsNum) :
  unit_interval a -> unit_interval (js_sub (num 1) a).
Proof.
  intros (p & -> & Hp). cbn. eexists. split; [reflexivity|]. qprop. split; lra.
Qed.

Lemma unit_interval_distance (a b : JsNum) :
  unit_interval a -> unit_interval b -> unit_interval (js_abs (js_sub a b)).
Proof.
  intros (p & -> & Hp) (q & -> & Hq). cbn.
  eexists. split; [reflexivity|]. qprop. split; [apply Qabs_nonneg|].
  apply Qabs_Qle_condition. split; lra.
Qed.

Lemma unit_interval_not_NaN (a : JsNum) : unit_interval a -> a <> NaN.
Proof. by intros (q & -> & _). Qed.

Lemma unit_interval_sum (l : list JsNum) :
  Forall unit_interval l ->
  exists s, sum l = num s /\ (0 <= s <= inject_Z (Z.of_nat (length l)))%Q.
Proof.
  induction 1 as [|x l (q & -> & Hq) _ (s & Hs & Hrange)].
  - exists 0%Q. split; [reflexivity|]. split; [lra|apply Qle_refl].
  - rewrite sum_cons, Hs. cbn [length]. eexists. split; [reflexivity|].
    rewrite Nat2Z.inj_succ, <- Z.add_1_r, inject_Z_plus. qprop.
    change (inject_Z 1) with 1%Q. split; lra.
Qed.

Lemma unit_interval_average (l : list JsNum) :
  l <> [] -> Forall unit_interval l ->
  unit_interval (js_div (sum l) (of_nat (length l))).
Proof.
  intros Hne Hl. destruct (unit_interval_sum l Hl) as (s & -> & Hs).
  assert (Hlen : (0 < inject_Z (Z.of_nat (length l)))%Q).
  { change 0%Q with (inject_Z 0). rewrite <- Zlt_Qlt. destruct l; [done|cbn; lia]. }
  unfold of_nat, js_div, num. destruct (Qeq_bool _ 0) eqn:E.
  { qprop. lra. }
  eexists. split; [reflexivity|]. qprop. split.
  - apply Qle_shift_div_l; [done|]. lra.
  - apply Qle_shift_div_r; [done|]. lra.
Qed.

(** The extremes of a non-empty list of rates. *)
Lemma extremes (l : list JsNum) :
  l <> [] -> Forall unit_interval l ->
  least (Math_min l) l /\ greatest (Math_max l) l
  /\ unit_interval (Math_min l) /\ unit_interval (Math_max l)
  /\ js_le (Math_min l) (Math_max l) = true.
Proof.
  intros Hne Hl.
  assert (Hfin : Forall (fun x => is_finite x = true) l).
  { eapply Forall_impl; [exact Hl|]. apply unit_interval_finite. }
  destruct (Math_max_spec l Hne Hfin) as [Hmax_in Hmax].
  destruct (Math_min_spec l Hne Hfin) as [Hmin_in Hmin].
  split; [done|]. split; [done|].
  split; [by eapply Forall_forall in Hl|].
  split; [by eapply Forall_forall in Hl|].
  by eapply Forall_forall in Hmin.
Qed.

Lemma extremes_Permutation (l l' : list JsNum) :
  l ≡ₚ l' -> l' <> [] -> Forall unit_interval l' ->
  least (Math_min l) l' /\ greatest (Math_max l) l'.
Proof.
  intros Hperm Hne Hl'.
  assert (Hne' : l <> []).
  { intros ->. by apply Permutation_nil_l in Hperm. }
  assert (Hl : Forall unit_interval l) by by rewrite Hperm.
  destruct (extremes l Hne' Hl) as (Hmin & Hmax & _).
  unfold least, greatest in *. by rewrite <- Hperm.
Qed.

(** The spread of a non-empty list of rates: the four numbers that [POST]
    derives from the approval rates. *)
Lemma spread_ranges (l : list JsNum) :
  l <> [] -> Forall unit_interval l ->
  let mx := Math_max l in
  let mn := Math_min l in
  let avg := js_div (sum l) (of_nat (length l)) in
  unit_interval (js_sub mx mn)
  /\ unit_interval (js_div mn (if num_truthy mx then mx else num 1))
  /\ unit_interval (Math_max (map (fun rate => js_abs (js_sub rate avg)) l)).
Proof.
  intros Hne Hl. cbn zeta.
  destruct (extremes l Hne Hl) as (_ & _ & Hmn & Hmx & Hle).
  split; [by apply unit_interval_sub|]. split.
  - destruct (num_truthy (Math_max l)) eqn:E.
    + apply unit_interval_div; try done. intros Hz. rewrite Hz in E. discriminate E.
    + destruct Hmx as (q & Hq & Hq01). rewrite Hq in E, Hle.
      assert (num q = num 0) as Hq0.
      { apply num_eq. cbn in E. apply negb_false_iff in E. by qprop. }
      rewrite Hq0 in Hle. rewrite (unit_interval_le_zero (Math_min l)) by done.
      apply num_unit_interval_0.
  - pose proof (unit_interval_average l Hne Hl) as Havg.
    set (avg := js_div _ _) in *.
    assert (Hd : Forall unit_interval (map (fun rate => js_abs (js_sub rate avg)) l)).
    { apply Forall_fmap. eapply Forall_impl; [exact Hl|].
      intros r Hr. by apply unit_interval_distance. }
    assert (Hdne : map (fun rate => js_abs (js_sub rate avg)) l <> []).
    { by destruct l. }
    by destruct (extremes _ Hdne Hd) as (_ & _ & _ & ? & _).
Qed.

Section WithHost.
Context `{Host}.

(** Every entry of [groupMetrics] holds the metrics of one of the groups. *)
Lemma collect_calculated (data : list Row) (attribute : JsValue)
    (groups : list JsValue) :
  Forall (fun m => exists g,
            g ∈ groups /\ m = calculateGroupMetrics data (ToString attribute) g)
    (values (collect data attribute groups)).
Proof.
  unfold values, collect.
  set (Q := fun (gs : list JsValue) (m : GroupMetrics) =>
              exists g, g ∈ gs /\ m = calculateGroupMetrics data (ToString attribute) g).
  assert (Hfold : forall gs seen gm,
    map_Forall (fun _ m => Q seen m) gm ->
    map_Forall (fun _ m => Q (seen ++ gs) m)
      (fold_left (fun gm g => assign gm (ToString g)
                    (calculateGroupMetrics data (ToString attribute) g)) gs gm)).
  { induction gs as [|g gs IH]; intros seen gm Hgm; cbn [fold_left].
    - by rewrite app_nil_r.
    - replace (seen ++ g :: gs) with ((seen ++ [g]) ++ gs)
        by (by rewrite <- app_assoc).
      apply IH. unfold assign. destruct (String.eqb _ _).
      + eapply map_Forall_impl; [exact Hgm|].
        intros _ m (g' & Hg' & ->). exists g'. split; [|done].
        apply elem_of_app. by left.
      + apply map_Forall_insert_2.
        * exists g. split; [|done]. apply elem_of_app. right. apply list_elem_of_here.
        * eapply map_Forall_impl; [exact Hgm|].
          intros _ m (g' & Hg' & ->). exists g'. split; [|done].
          apply elem_of_app. by left. }
  specialize (Hfold groups [] ∅ (map_Forall_empty _)). cbn [app] in Hfold.
  apply Forall_fmap, Forall_forall. intros [k m] Hkm.
  apply elem_of_map_to_list in Hkm. exact (Hfold k m Hkm).
Qed.

Lemma collect_rates (data : list Row) (attribute : JsValue) (groups : list JsValue) :
  Forall unit_interval (map approvalRate (values (collect data attribute groups)))
  /\ Forall unit_interval
       (map truePositiveRate (values (collect data attribute groups))).
Proof.
  split; apply Forall_fmap;
    (eapply Forall_impl; [apply collect_calculated|]);
    intros m (g & _ & ->); apply rates_unit_interval.
Qed.

(** A group whose name is not [__proto__] has an entry in [groupMetrics]. *)
Lemma collect_lookup (data : list Row) (attribute : JsValue)
    (groups : list JsValue) (g : JsValue) :
  g ∈ groups -> ToString g <> "__proto__" ->
  is_Some (collect data attribute groups !! ToString g).
Proof.
  intros Hg Hname. unfold collect.
  assert (Hkeep : forall gs gm,
    is_Some (gm !! ToString g) ->
    is_Some (fold_left (fun gm g => assign gm (ToString g)
               (calculateGroupMetrics data (ToString attribute) g)) gs gm
             !! ToString g)).
  { induction gs as [|g' gs IH]; intros gm Hgm; cbn [fold_left]; [done|].
    apply IH. unfold assign. destruct (String.eqb _ _); [done|].
    rewrite lookup_insert. by case_decide. }
  revert Hg. generalize (∅ : gmap string GroupMetrics).
  induction groups as [|g' groups IH]; intros gm Hg; [by apply elem_of_nil in Hg|].
  cbn [fold_left]. apply elem_of_cons in Hg as [<-|Hg]; [|by apply IH].
  apply Hkeep. rewrite assign_insert by done. rewrite lookup_insert_eq. by eexists.
Qed.

Lemma unique_from_distinct (x : JsValue) (l acc : list JsValue) :
  Forall (fun v => same_value_zero v x = false) acc ->
  exists rest, fold_left add_unique l (x :: acc) = x :: rest
    /\ Forall (fun v => same_value_zero v x = false) rest.
Proof.
  revert acc. induction l as [|v l IH]; intros acc Hacc; cbn [fold_left].
  - by exists acc.
  - unfold add_unique at 2. cbn [existsb].
    destruct (same_value_zero v x) eqn:E; cbn [orb]; [by apply IH|].
    destruct (existsb (same_value_zero v) acc); [by apply IH|].
    change ((x :: acc) ++ [v]) with (x :: (acc ++ [v])).
    apply IH, Forall_app. split; [done|]. by constructor.
Qed.

Lemma ToString_proto (g : JsValue) :
  numerals -> ToString g = "__proto__" -> g = JStr "__proto__".
Proof.
  intros Hnum. destruct g as [| |[]|n|s]; cbn; try discriminate.
  - intros E. by apply Hnum in E.
  - by intros ->.
Qed.

(** With two groups, [groupMetrics] is not empty. *)
Lemma values_nonempty (data : list Row) (attribute : JsValue) :
  numerals ->
  (2 <= length (uniqueGroups data attribute))%nat ->
  values (collect data attribute (uniqueGroups data attribute)) <> [].
Proof.
  intros Hnum Hlen.
  assert (Hsome : exists g, g ∈ uniqueGroups data attribute
                            /\ ToString g <> "__proto__").
  { unfold uniqueGroups, unique in *.
    destruct (column data attribute) as [|x l]; [cbn in Hlen; lia|].
    cbn [fold_left] in *. unfold add_unique at 2 in Hlen.
    unfold add_unique at 2. cbn [existsb app] in *.
    destruct (unique_from_distinct x l [] (Forall_nil_2 _)) as (rest & E & Hrest).
    rewrite E in *. destruct rest as [|y rest]; [cbn in Hlen; lia|].
    apply Forall_cons in Hrest as [Hy _].
    destruct (decide (ToString x = "__proto__")) as [Hx|Hx].
    - exists y. split; [apply list_elem_of_further, list_elem_of_here|].
      intros Hy'. apply (ToString_proto _ Hnum) in Hx, Hy'. subst. discriminate Hy.
    - exists x. split; [apply list_elem_of_here|done]. }
  destruct Hsome as (g & Hg & Hname).
  destruct (collect_lookup data attribute _ g Hg Hname) as [m Hm].
  unfold values. intros Hnil.
  apply elem_of_map_to_list in Hm.
  apply (list_elem_of_fmap_2 snd) in Hm. rewrite Hnil in Hm.
  by apply elem_of_nil in Hm.
Qed.

(** A successful analysis, spelled out. *)
Lemma POST_ok (now : string) (req : Request) (fairness : Analysis) (ts : string) :
  POST now req = Ok fairness ts ->
  let rows := rows_of (req_data req) in
  let attribute := attribute_of req in
  let gm := collect rows attribute (uniqueGroups rows attribute) in
  let rates := map approvalRate (values gm) in
  let tprs := map truePositiveRate (values gm) in
  let dpd := js_sub (Math_max rates) (Math_min rates) in
  let eod := js_sub (Math_max tprs) (Math_min tprs) in
  let di :=
    js_div (Math_min rates)
      (if num_truthy (Math_max rates) then Math_max rates else num 1) in
  let spd :=
    Math_max (map (fun rate =>
                     js_abs (js_sub rate (js_div (sum rates) (of_nat (length rates)))))
                rates) in
  ts = now
  /\ ~ no_rows (req_data req)
  /\ (2 <= length (uniqueGroups rows attribute))%nat
  /\ groupMetrics fairness = gm
  /\ metrics fairness
     = {| demographicParity := js_sub (num 1) dpd;
          demographicParityDifference := dpd;
          equalOpportunity := js_sub (num 1) eod;
          equalOpportunityDifference := eod;
          disparateImpact := di;
          disparateImpactRatio := di;
          statisticalParity := js_sub (num 1) spd |}
  /\ overallScore fairness
     = calculateFairnessScore
         {| in_demographicParityDifference := dpd;
            in_equalOpportunityDifference := eod;
            in_disparateImpact := di |}
  /\ recommendations fairness = recommend di dpd eod
  /\ complianceStatus fairness
     = {| _80PercentRule := js_ge di (num 0.8);
          compliance_demographicParity := js_le dpd (num 0.1);
          compliance_equalOpportunity := js_le eod (num 0.1) |}
  /\ biasAnalysis fairness = analyze_bias rows attribute gm dpd eod di
  /\ protectedAttribute fairness = attribute.
Proof.
  unfold POST. fold (attribute_of req).
  destruct (invalid_data (req_data req)) eqn:Einv; [discriminate|].
  destruct (Nat.ltb_spec (length (uniqueGroups (rows_of (req_data req))
    (attribute_of req))) 2) as [Hlt|Hge]; [discriminate|].
  intros [= <- <-]. cbn zeta.
  cbn [groupMetrics metrics overallScore recommendations complianceStatus
       biasAnalysis protectedAttribute].
  split; [done|]. split; [|done].
  rewrite <- invalid_data_no_rows. by rewrite Einv.
Qed.

(** The ranges of the numbers of a successful analysis. *)
Lemma analysis_ranges (now : string) (req : Request) (fairness : Analysis)
    (ts : string) :
  numerals ->
  POST now req = Ok fairness ts ->
  unit_interval (demographicParityDifference (metrics fairness))
  /\ unit_interval (equalOpportunityDifference (metrics fairness))
  /\ unit_interval (disparateImpact (metrics fairness))
  /\ unit_interval (statisticalParity (metrics fairness)).
Proof.
  intros Hnum HPOST.
  destruct (POST_ok _ _ _ _ HPOST) as (_ & _ & Hlen & _ & -> & _).
  cbn [demographicParityDifference equalOpportunityDifference disparateImpact
       statisticalParity].
  pose proof (values_nonempty _ _ Hnum Hlen) as Hne.
  destruct (collect_rates (rows_of (req_data req)) (attribute_of req)
              (uniqueGroups (rows_of (req_data req)) (attribute_of req)))
    as [Hrates Htprs].
  set (gm := collect _ _ _) in *.
  assert (Hr : map approvalRate (values gm) <> []) by (by destruct (values gm)).
  assert (Ht : map truePositiveRate (values gm) <> []) by (by destruct (values gm)).
  destruct (spread_ranges _ Hr Hrates) as (H1 & H2 & H3).
  destruct (spread_ranges _ Ht Htprs) as (H4 & _).
  split; [done|]. split; [done|]. split; [done|].
  by apply unit_interval_complement.
Qed.

(** X10. The numbers of a successful analysis are in range: the
    demographic parity difference, the equal opportunity difference, the
    disparate impact, the statistical parity and the two complements
    [demographicParity] and [equalOpportunity] lie in [0, 1], and the
    overall score lies in [0, 100]. *)
Theorem X10_analysis_in_range (now : string) (req : Request)
    (fairness : Analysis) (ts : string) :
  numerals ->
  POST now req = Ok fairness ts ->
  let m := metrics fairness in
  unit_interval (demographicParityDifference m)
  /\ unit_interval (demographicParity m)
  /\ unit_interval (equalOpportunityDifference m)
  /\ unit_interval (equalOpportunity m)
  /\ unit_interval (disparateImpact m)
  /\ disparateImpactRatio m = disparateImpact m
  /\ unit_interval (statisticalParity m)
  /\ between 0 100 (overallScore fairness).
Proof.
  intros Hnum HPOST. cbn zeta.
  destruct (analysis_ranges _ _ _ _ Hnum HPOST) as (Hdpd & Heod & Hdi & Hsp).
  destruct (POST_ok _ _ _ _ HPOST) as (_ & _ & _ & _ & Hm & Hscore & _).
  rewrite Hm in Hdpd, Heod, Hdi, Hsp. rewrite Hm, Hscore.
  cbn [demographicParityDifference equalOpportunityDifference disparateImpact
       statisticalParity demographicParity equalOpportunity disparateImpactRatio]
    in *.
  split; [done|]. split; [by apply unit_interval_complement|].
  split; [done|]. split; [by apply unit_interval_complement|].
  split; [done|]. split; [done|]. split; [done|].
  apply FairnessScore.calculateFairnessScore_spec;
    by apply unit_interval_not_NaN.
Qed.

End WithHost.
End FairnessAnalysis.

Module FairnessOutcome.
Import NumFacts OrderFacts Fairness FairnessSpec FairnessFacts MoreSpec
  FairnessAnalysis.

(** Membership in, and equality with, a list of string literals. *)
Ltac literal :=
  solve [ split; [intros _; reflexivity
                 | intros _; apply (bool_decide_unpack _); vm_compute; reflexivity ]
        | split; [intros Hin; exfalso; revert Hin;
                  apply (bool_decide_unpack _); vm_compute; reflexivity
                 | discriminate ] ].

Lemma js_lt_negb_ge (a b : JsNum) :
  a <> NaN -> b <> NaN -> js_lt a b = negb (js_ge a b).
Proof.
  unfold js_ge. by destruct a, b.
Qed.

Lemma js_gt_negb_le (a b : JsNum) :
  a <> NaN -> b <> NaN -> js_gt a b = negb (js_le a b).
Proof.
  unfold js_gt. by destruct a, b.
Qed.

(** The recommendations against the three compliance tests. *)
Lemma recommend_spec (di dpd eod : JsNum) :
  di <> NaN -> dpd <> NaN -> eod <> NaN ->
  let r := recommend di dpd eod in
  (r = acceptable
   <-> js_ge di (num 0.8) = true /\ js_le dpd (num 0.1) = true
       /\ js_le eod (num 0.1) = true)
  /\ ("Disparate impact detected: Approval rate ratio is below 80% threshold" ∈ r
      <-> js_ge di (num 0.8) = false)
  /\ ("Significant demographic parity gap detected (>10%)" ∈ r
      <-> js_le dpd (num 0.1) = false)
  /\ ("Equal opportunity violation: Different TPR across groups" ∈ r
      <-> js_le eod (num 0.1) = false)
  /\ r <> [].
Proof.
  intros Hdi Hdpd Heod. cbn zeta. unfold recommend, acceptable.
  rewrite (js_lt_negb_ge di), (js_gt_negb_le dpd), (js_gt_negb_le eod) by done.
  destruct (js_ge di (num 0.8)), (js_le dpd (num 0.1)), (js_le eod (num 0.1));
    cbn [negb app length Nat.eqb];
    (split; [|split; [|split; [|split]]]); try literal; try discriminate;
    try (split; [discriminate|]; by intros (? & ? & ?));
    try (split; [by intros _|reflexivity]).
Qed.

Section WithHost.
Context `{Host}.

(** X11. The recommendations of a successful analysis agree with its
    compliance status: the two recommendations of an acceptable model are
    returned exactly when the three tests pass, each failed test brings its
    own warning, and the list is never empty. *)
Theorem X11_recommendations_follow_compliance (now : string) (req : Request)
    (fairness : Analysis) (ts : string) :
  numerals ->
  POST now req = Ok fairness ts ->
  let c := complianceStatus fairness in
  let r := recommendations fairness in
  (r = acceptable
   <-> _80PercentRule c = true /\ compliance_demographicParity c = true
       /\ compliance_equalOpportunity c = true)
  /\ ("Disparate impact detected: Approval rate ratio is below 80% threshold" ∈ r
      <-> _80PercentRule c = false)
  /\ ("Significant demographic parity gap detected (>10%)" ∈ r
      <-> compliance_demographicParity c = false)
  /\ ("Equal opportunity violation: Different TPR across groups" ∈ r
      <-> compliance_equalOpportunity c = false)
  /\ r <> [].
Proof.
  intros Hnum HPOST. cbn zeta.
  destruct (analysis_ranges _ _ _ _ Hnum HPOST) as (Hdpd & Heod & Hdi & _).
  destruct (POST_ok _ _ _ _ HPOST) as (_ & _ & _ & _ & Hm & _ & -> & -> & _).
  rewrite Hm in Hdpd, Heod, Hdi.
  cbn [demographicParityDifference equalOpportunityDifference disparateImpact
       _80PercentRule compliance_demographicParity compliance_equalOpportunity]
    in *.
  apply recommend_spec; by apply unit_interval_not_NaN.
Qed.

(** X12. With groups of distinct names the two differences are those of
    the groups: the demographic parity difference is the largest group
    approval rate minus the smallest, the equal opportunity difference is
    the largest group true positive rate minus the smallest, and each of
    the two compliance tests passes exactly when its difference is at most
    0.1. *)
Theorem X12_differences_of_groups (now : string) (req : Request) :
  let rows := rows_of (req_data req) in
  let attribute := attribute_of req in
  ~ no_rows (req_data req) ->
  two_groups rows attribute ->
  distinct_names (uniqueGroups rows attribute) ->
  exists fairness mn mx tmn tmx,
    POST now req = Ok fairness now
    /\ least mn (group_rates rows attribute)
    /\ greatest mx (group_rates rows attribute)
    /\ least tmn (group_tprs rows attribute)
    /\ greatest tmx (group_tprs rows attribute)
    /\ demographicParityDifference (metrics fairness) = js_sub mx mn
    /\ equalOpportunityDifference (metrics fairness) = js_sub tmx tmn
    /\ (compliance_demographicParity (complianceStatus fairness) = true
        <-> js_le (js_sub mx mn) (num 0.1) = true)
    /\ (compliance_equalOpportunity (complianceStatus fairness) = true
        <-> js_le (js_sub tmx tmn) (num 0.1) = true).
Proof.
  cbn zeta. intros Hrows Hgroups Hnames.
  destruct (POST_analysis now req Hrows Hgroups Hnames)
    as (fairness & mn & mx & HPOST & Hmn & Hmx & HDP & _).
  destruct (POST_ok _ _ _ _ HPOST) as (_ & _ & Hlen & _ & Hm & _ & _ & Hc & _).
  set (rows := rows_of (req_data req)) in *.
  set (attribute := attribute_of req) in *.
  set (gm := collect rows attribute (uniqueGroups rows attribute)) in *.
  assert (Hperm : map truePositiveRate (values gm) ≡ₚ group_tprs rows attribute).
  { unfold gm, group_tprs. rewrite collect_values by done.
    by rewrite <- list_fmap_compose. }
  assert (Hne : group_tprs rows attribute <> []).
  { unfold group_tprs. intros Hnil. apply fmap_nil_inv in Hnil.
    rewrite Hnil in Hlen. cbn in Hlen. lia. }
  assert (Hunit : Forall unit_interval (group_tprs rows attribute)).
  { unfold group_tprs. apply Forall_fmap, Forall_forall. intros g _.
    apply rates_unit_interval. }
  destruct (extremes_Permutation _ _ Hperm Hne Hunit) as [Htmn Htmx].
  exists fairness, mn, mx, (Math_min (map truePositiveRate (values gm))),
    (Math_max (map truePositiveRate (values gm))).
  split; [done|]. split; [done|]. split; [done|]. split; [done|]. split; [done|].
  split; [done|]. rewrite Hc. rewrite Hm in HDP |- *.
  cbn [demographicParityDifference equalOpportunityDifference
       compliance_demographicParity compliance_equalOpportunity] in *.
  split; [reflexivity|]. by rewrite HDP.
Qed.

End WithHost.
End FairnessOutcome.

Module FairnessGroups.
Import NumFacts OrderFacts Fairness FairnessSpec FairnessFacts MoreSpec
  FairnessAnalysis.

Lemma sum_list_with_ext_in {A} (f g : A -> nat) (l : list A) :
  (forall x, x ∈ l -> f x = g x) -> sum_list_with f l = sum_list_with g l.
Proof.
  induction l as [|x l IH]; intros Hfg; cbn [sum_list_with]; [done|].
  rewrite (Hfg x) by apply list_elem_of_here.
  rewrite IH; [done|]. intros y Hy. by apply Hfg, list_elem_of_further.
Qed.

Lemma sum_list_with_one {A} (l : list A) : sum_list_with (fun _ => 1%nat) l = length l.
Proof. induction l as [|x l IH]; cbn [sum_list_with length]; [done|]. by rewrite IH. Qed.

(** The pairs of a value and a group that are related, counted by group
    and counted by value. *)
Lemma count_pairs {A B} (R : A -> B -> bool) (xs : list A) (gs : list B) :
  sum_list_with (fun g => length (List.filter (fun x => R x g) xs)) gs
  = sum_list_with (fun x => length (List.filter (R x) gs)) xs.
Proof.
  induction gs as [|g gs IH]; cbn [sum_list_with].
  - induction xs as [|x xs IHx]; [done|]. cbn in *. exact IHx.
  - rewrite IH. clear IH.
    induction xs as [|x xs IHx]; cbn [List.filter sum_list_with length] in *;
      [done|].
    destruct (R x g); cbn [length]; lia.
Qed.

Lemma filter_map_length {A B} (f : A -> B) (p : B -> bool) (l : list A) :
  length (List.filter (fun x => p (f x)) l) = length (List.filter p (map f l)).
Proof.
  induction l as [|x l IH]; cbn [List.filter map]; [done|].
  destruct (p (f x)); cbn [length]; by rewrite IH.
Qed.

Lemma same_value_zero_sym_false (a b : JsValue) :
  same_value_zero a b = false -> same_value_zero b a = false.
Proof.
  intros E. destruct (same_value_zero b a) eqn:E'; [|done].
  apply same_value_zero_sym in E'. congruence.
Qed.

(** Outside NaN, [===] is the equality of [Set]. *)
Lemma strict_eq_same_value_zero (v g : JsValue) :
  v <> JNum NaN -> strict_eq v g = same_value_zero v g.
Proof. destruct v as [| |b|[| |p|]|s], g as [| |c|[| |q|]|t]; by cbn. Qed.

Lemma existsb_filter_nil (v w : JsValue) (seen : list JsValue) :
  existsb (same_value_zero v) seen = false -> same_value_zero w v = true ->
  List.filter (same_value_zero w) seen = [].
Proof.
  intros Hex Hwv. induction seen as [|g seen IH]; [done|].
  cbn [existsb] in Hex. apply orb_false_iff in Hex as [Hg Hseen].
  cbn [List.filter]. destruct (same_value_zero w g) eqn:E; [|by apply IH].
  rewrite (same_value_zero_trans v w g) in Hg; [done| |done].
  by apply same_value_zero_sym.
Qed.

Lemma existsb_filter_length (v : JsValue) (seen : list JsValue) :
  existsb (same_value_zero v) seen = true ->
  (1 <= length (List.filter (same_value_zero v) seen))%nat.
Proof.
  induction seen as [|g seen IH]; cbn [existsb List.filter]; [done|].
  destruct (same_value_zero v g); cbn [orb length]; [lia|done].
Qed.

(** [add_unique] keeps every value at most once. *)
Lemma add_unique_once (seen : list JsValue) (v : JsValue) :
  (forall w, (length (List.filter (same_value_zero w) seen) <= 1)%nat) ->
  forall w, (length (List.filter (same_value_zero w) (add_unique seen v)) <= 1)%nat.
Proof.
  intros Hseen w. unfold add_unique.
  destruct (existsb (same_value_zero v) seen) eqn:Hex; [done|].
  rewrite List.filter_app, length_app. cbn [List.filter].
  destruct (same_value_zero w v) eqn:E; cbn [length].
  - by rewrite (existsb_filter_nil v w seen).
  - specialize (Hseen w). lia.
Qed.

Lemma add_unique_grows (seen : list JsValue) (v w : JsValue) :
  (length (List.filter (same_value_zero w) seen)
   <= length (List.filter (same_value_zero w) (add_unique seen v)))%nat.
Proof.
  unfold add_unique. destruct (existsb _ seen); [done|].
  rewrite List.filter_app, length_app. lia.
Qed.

Lemma add_unique_holds (seen : list JsValue) (v : JsValue) :
  (1 <= length (List.filter (same_value_zero v) (add_unique seen v)))%nat.
Proof.
  unfold add_unique. destruct (existsb _ seen) eqn:Hex.
  - by apply existsb_filter_length.
  - rewrite List.filter_app, length_app. cbn [List.filter].
    rewrite same_value_zero_refl. cbn [length]. lia.
Qed.

Lemma unique_fold_once (l acc : list JsValue) :
  (forall w, (length (List.filter (same_value_zero w) acc) <= 1)%nat) ->
  forall w,
    (length (List.filter (same_value_zero w) (fold_left add_unique l acc)) <= 1)%nat.
Proof.
  revert acc. induction l as [|v l IH]; intros acc Hacc; cbn [fold_left]; [done|].
  by apply IH, add_unique_once.
Qed.

Lemma unique_fold_grows (l acc : list JsValue) (w : JsValue) :
  (length (List.filter (same_value_zero w) acc)
   <= length (List.filter (same_value_zero w) (fold_left add_unique l acc)))%nat.
Proof.
  revert acc. induction l as [|v l IH]; intros acc; cbn [fold_left]; [done|].
  etransitivity; [apply (add_unique_grows acc v w)|apply IH].
Qed.

Lemma unique_fold_holds (l acc : list JsValue) (w : JsValue) :
  w ∈ l ->
  (1 <= length (List.filter (same_value_zero w) (fold_left add_unique l acc)))%nat.
Proof.
  revert acc. induction l as [|v l IH]; intros acc Hw; [by apply elem_of_nil in Hw|].
  cbn [fold_left]. apply elem_of_cons in Hw as [->|Hw]; [|by apply IH].
  etransitivity; [apply (add_unique_holds acc v)|apply unique_fold_grows].
Qed.

(** [[...new Set(l)]] holds every value of [l] exactly once. *)
Lemma unique_once (l : list JsValue) (w : JsValue) :
  w ∈ l -> length (List.filter (same_value_zero w) (unique l)) = 1%nat.
Proof.
  intros Hw. unfold unique.
  pose proof (unique_fold_holds l [] w Hw).
  pose proof (unique_fold_once l [] (fun _ => Nat.le_0_l 1) w). lia.
Qed.

(** The groups of a column without NaN divide the rows among them. *)
Lemma groups_divide (data : list Row) (k : string) :
  Forall (fun row => get row k <> JNum NaN) data ->
  sum_list_with (fun g => length (group_rows data k g))
    (unique (map (fun row => get row k) data))
  = length data.
Proof.
  intros Hnan. unfold group_rows.
  rewrite (sum_list_with_ext_in _
    (fun g => length (List.filter (fun row => same_value_zero (get row k) g) data))).
  2:{ intros g _. f_equal. apply List.filter_ext_in. intros row Hrow.
      apply strict_eq_same_value_zero.
      rewrite Forall_forall in Hnan. apply Hnan. by apply list_elem_of_In. }
  rewrite (count_pairs (fun row g => same_value_zero (get row k) g)).
  rewrite (sum_list_with_ext_in _ (fun _ => 1%nat)); [apply sum_list_with_one|].
  intros row Hrow. apply unique_once. by apply (list_elem_of_fmap_2 (fun row => get row k)).
Qed.

(** Without an approved row, a group has approval rate 0 and true
    positive rate 0. *)
Lemma none_approved_rates (data : list Row) (k : string) (g : JsValue) :
  none_approved data ->
  approvalRate (calculateGroupMetrics data k g) = num 0
  /\ truePositiveRate (calculateGroupMetrics data k g) = num 0.
Proof.
  intros Hnone. unfold calculateGroupMetrics.
  set (groupData := List.filter _ data).
  assert (Hgroup : Forall (fun row => predicted_positive row = false) groupData).
  { apply Forall_forall. intros row Hrow. unfold groupData in Hrow.
    apply list_elem_of_In, List.filter_In in Hrow as [Hrow _].
    unfold none_approved in Hnone. rewrite Forall_forall in Hnone.
    by apply Hnone, list_elem_of_In. }
  assert (Happroved : List.filter predicted_positive groupData = []).
  { clear -Hgroup. induction Hgroup as [|row l Hrow _ IH]; [done|].
    cbn [List.filter]. by rewrite Hrow. }
  assert (Htp : List.filter (fun row => predicted_positive row && actual_positive row)
                  groupData = []).
  { clear -Hgroup. induction Hgroup as [|row l Hrow _ IH]; [done|].
    cbn [List.filter]. by rewrite Hrow. }
  destruct (Nat.eqb_spec (length groupData) 0) as [|Hpos]; [done|].
  cbn [approvalRate truePositiveRate]. rewrite Happroved, Htp. cbn [length].
  assert (Hzero : forall n, (0 < n)%nat -> ratio 0 n = num 0).
  { intros n Hn. unfold ratio, of_nat, js_div, num.
    assert (0 < inject_Z (Z.of_nat n))%Q.
    { change 0%Q with (inject_Z 0). rewrite <- Zlt_Qlt. lia. }
    destruct (Qeq_bool _ 0) eqn:E; [qprop; lra|].
    by f_equal. }
  split; [apply Hzero; lia|].
  destruct (Nat.ltb_spec 0 (length (List.filter actual_positive groupData)));
    [by apply Hzero|done].
Qed.

Lemma all_zero_extremes (l : list JsNum) :
  l <> [] -> Forall (fun x => x = num 0) l ->
  Math_max l = num 0 /\ Math_min l = num 0.
Proof.
  intros Hne Hl.
  assert (Hunit : Forall unit_interval l).
  { eapply Forall_impl; [exact Hl|]. intros x ->. apply num_unit_interval_0. }
  destruct (extremes l Hne Hunit) as ([Hmin _] & [Hmax _] & _).
  rewrite Forall_forall in Hl. split; by apply Hl.
Qed.

Section WithHost.
Context `{Host}.

(** X13. When no row is approved (neither [predicted] nor [approved] is
    the number 1 in any row), a successful analysis reports a demographic
    parity difference of 0 and a disparate impact of 0: the 80 percent rule
    fails, the overall score is 200/3, and the recommendations are the two
    about disparate impact. *)
Theorem X13_no_approval_fails_80_percent_rule (now : string) (req : Request)
    (fairness : Analysis) (ts : string) :
  numerals ->
  POST now req = Ok fairness ts ->
  none_approved (rows_of (req_data req)) ->
  demographicParityDifference (metrics fairness) = num 0
  /\ equalOpportunityDifference (metrics fairness) = num 0
  /\ disparateImpact (metrics fairness) = num 0
  /\ _80PercentRule (complianceStatus fairness) = false
  /\ compliance_demographicParity (complianceStatus fairness) = true
  /\ overallScore fairness = num (200 # 3)
  /\ recommendations fairness
     = [ "Disparate impact detected: Approval rate ratio is below 80% threshold";
         "Consider reviewing feature selection and model training data for bias" ].
Proof.
  intros Hnum HPOST Hnone.
  destruct (POST_ok _ _ _ _ HPOST)
    as (_ & _ & Hlen & _ & Hm & Hscore & Hrec & Hc & _).
  set (rows := rows_of (req_data req)) in *.
  set (attribute := attribute_of req) in *.
  pose proof (values_nonempty rows attribute Hnum Hlen) as Hne.
  set (gm := collect rows attribute (uniqueGroups rows attribute)) in *.
  assert (Hrates : Forall (fun x => x = num 0) (map approvalRate (values gm))).
  { apply Forall_fmap. eapply Forall_impl; [apply collect_calculated|].
    intros m (g & _ & ->). by apply none_approved_rates. }
  assert (Htprs : Forall (fun x => x = num 0) (map truePositiveRate (values gm))).
  { apply Forall_fmap. eapply Forall_impl; [apply collect_calculated|].
    intros m (g & _ & ->). by apply none_approved_rates. }
  destruct (all_zero_extremes (map approvalRate (values gm))) as [Hmax Hmin];
    [by destruct (values gm)|done|].
  destruct (all_zero_extremes (map truePositiveRate (values gm))) as [Htmax Htmin];
    [by destruct (values gm)|done|].
  rewrite Hm, Hscore, Hrec, Hc, Hmax, Hmin, Htmax, Htmin.
  cbn [demographicParityDifference equalOpportunityDifference disparateImpact
       _80PercentRule compliance_demographicParity].
  repeat split; vm_compute; reflexivity.
Qed.

(** X14. When no row has NaN as the value of the protected attribute,
    the groups divide the rows among them: the [totalCount]s of the groups
    add up to the number of rows, and so do those of the [groupMetrics] of
    a successful analysis whose groups have distinct names. *)
Theorem X14_groups_divide_the_rows (now : string) (req : Request)
    (fairness : Analysis) (ts : string) :
  let rows := rows_of (req_data req) in
  let attribute := attribute_of req in
  POST now req = Ok fairness ts ->
  no_NaN rows attribute ->
  distinct_names (uniqueGroups rows attribute) ->
  sum_list_with
    (fun g => totalCount (calculateGroupMetrics rows (ToString attribute) g))
    (uniqueGroups rows attribute)
  = length rows
  /\ sum_list_with totalCount (values (groupMetrics fairness)) = length rows.
Proof.
  cbn zeta. intros HPOST Hnan Hnames.
  destruct (POST_ok _ _ _ _ HPOST) as (_ & _ & _ & -> & _).
  set (rows := rows_of (req_data req)) in *.
  set (attribute := attribute_of req) in *.
  assert (Hsum : sum_list_with
    (fun g => totalCount (calculateGroupMetrics rows (ToString attribute) g))
    (uniqueGroups rows attribute) = length rows).
  { rewrite (sum_list_with_ext_in _
      (fun g => length (group_rows rows (ToString attribute) g))).
    - by apply groups_divide.
    - intros g _.
      by destruct (calculateGroupMetrics_unfold rows (ToString attribute) g)
        as (-> & _). }
  split; [done|]. rewrite collect_values by done.
  rewrite <- Hsum. clear.
  induction (uniqueGroups rows attribute) as [|g gs IH];
    cbn [map sum_list_with]; [done|]. by rewrite IH.
Qed.

End WithHost.
End FairnessGroups.

Module FairnessBias.
Import NumFacts OrderFacts Fairness FairnessSpec FairnessFacts MoreSpec
  FairnessAnalysis.

Section WithHost.
Context `{Host}.

(** The [forEach] over brackets of distinct names, looked up by name. *)
Lemma brackets_lookup (data : list Row) (brackets : list (string * (JsValue -> bool)))
    (acc : gmap string AgeMetrics) (name : string) :
  NoDup brackets.*1 ->
  fold_left
    (fun ageMetrics bracket =>
       let groupData := List.filter (fun r => bracket.2 (get r "age")) data in
       if (0 <? length groupData)%nat then
         let approved := length (List.filter predicted_positive groupData) in
         <[bracket.1 := {| count := length groupData;
                           bracket_approvalRate :=
                             ratio approved (length groupData) |}]> ageMetrics
       else ageMetrics)
    brackets acc !! name
  = match (list_to_map brackets : gmap string (JsValue -> bool)) !! name with
    | Some test =>
        let groupData := List.filter (fun r => test (get r "age")) data in
        if (0 <? length groupData)%nat then
          Some {| count := length groupData;
                  bracket_approvalRate :=
                    ratio (length (List.filter predicted_positive groupData))
                      (length groupData) |}
        else acc !! name
    | None => acc !! name
    end.
Proof.
  revert acc. induction brackets as [|[key test] brackets IH]; intros acc Hnd;
    cbn [fold_left]; [by rewrite list_to_map_nil, lookup_empty|].
  rewrite list_to_map_cons. rewrite fmap_cons in Hnd. apply NoDup_cons in Hnd as [Hkey Hnd].
  rewrite IH by done. cbn [fst snd]. cbn zeta.
  destruct (decide (name = key)) as [->|Hne].
  - rewrite lookup_insert_eq, (not_elem_of_list_to_map_1 _ key) by done.
    destruct (0 <? _)%nat; [by rewrite lookup_insert_eq|done].
  - rewrite (lookup_insert_ne _ key name) by done.
    assert (Hacc :
      (if (0 <? length (List.filter (fun r => test (get r "age")) data))%nat
       then <[key := {| count := length (List.filter (fun r => test (get r "age")) data);
                        bracket_approvalRate :=
                          ratio (length (List.filter predicted_positive
                                   (List.filter (fun r => test (get r "age")) data)))
                            (length (List.filter (fun r => test (get r "age")) data)) |}]> acc
       else acc) !! name = acc !! name).
    { destruct (0 <? _)%nat; [by rewrite lookup_insert_ne|done]. }
    by rewrite Hacc.
Qed.

Lemma ageGroups_names : NoDup ageGroups.*1.
Proof. apply (bool_decide_unpack _). vm_compute. reflexivity. Qed.

(** An entry of [ageMetrics]. *)
Lemma ageMetrics_lookup (data : list Row) (name : string) (m : AgeMetrics) :
  ageMetrics data !! name = Some m
  <-> exists test,
        (name, test) ∈ ageGroups
        /\ (0 < length (List.filter (fun r => test (get r "age")) data))%nat
        /\ m = {| count := length (List.filter (fun r => test (get r "age")) data);
                  bracket_approvalRate :=
                    ratio (length (List.filter predicted_positive
                             (List.filter (fun r => test (get r "age")) data)))
                      (length (List.filter (fun r => test (get r "age")) data)) |}.
Proof.
  unfold ageMetrics. rewrite brackets_lookup by apply ageGroups_names.
  rewrite lookup_empty. split.
  - destruct (list_to_map ageGroups !! name) as [test|] eqn:E; [|done].
    apply elem_of_list_to_map in E; [|apply ageGroups_names].
    cbn zeta. destruct (Nat.ltb_spec 0 (length (List.filter
      (fun r => test (get r "age")) data))) as [Hpos|]; [|done].
    intros [= <-]. by exists test.
  - intros (test & Hin & Hpos & ->).
    apply elem_of_list_to_map in Hin; [|apply ageGroups_names].
    rewrite Hin. cbn zeta. apply Nat.ltb_lt in Hpos. by rewrite Hpos.
Qed.

(** No age lies in two brackets. *)
Lemma brackets_disjoint (age : JsValue) :
  (length (List.filter (fun bracket : string * (JsValue -> bool) => bracket.2 age)
             ageGroups) <= 1)%nat.
Proof.
  unfold ageGroups. cbn [List.filter snd].
  destruct (ge age (num 18) && le age (num 30)) eqn:E1,
    (ge age (num 31) && le age (num 45)) eqn:E2,
    (ge age (num 46) && le age (num 60)) eqn:E3,
    (gt age (num 60)) eqn:E4; cbn [length]; try lia; exfalso;
    unfold ge, le, gt, js_ge, js_gt in *;
    destruct (ToNumber age) as [| |q|]; cbn in *; try done;
    repeat match goal with
           | E : _ && _ = true |- _ => apply andb_true_iff in E as [? ?]
           end;
    qprop; lra.
Qed.

(** X15. [ageMetrics] has an entry for a bracket exactly when the age of
    some row lies in it. The count of an entry is the number of those
    rows, which is positive and at most the number of rows; its approval
    rate lies in [0, 1]; and no age lies in two brackets. *)
Theorem X15_age_brackets (data : list Row) :
  (forall name test, (name, test) ∈ ageGroups ->
     is_Some (ageMetrics data !! name)
     <-> exists row, row ∈ data /\ test (get row "age") = true)
  /\ (forall name m, ageMetrics data !! name = Some m ->
        exists test,
          (name, test) ∈ ageGroups
          /\ count m = length (List.filter (fun r => test (get r "age")) data)
          /\ (0 < count m <= length data)%nat
          /\ unit_interval (bracket_approvalRate m))
  /\ (forall row,
        (length (List.filter
                   (fun bracket : string * (JsValue -> bool) =>
                      bracket.2 (get row "age")) ageGroups) <= 1)%nat).
Proof.
  split; [|split].
  - intros name test Hin. split.
    + intros [m Hm]. apply ageMetrics_lookup in Hm as (test' & Hin' & Hpos & _).
      assert (test' = test) as ->.
      { pose proof ageGroups_names as Hnd.
        apply elem_of_list_to_map in Hin, Hin'; try done. congruence. }
      destruct (List.filter _ data) as [|row l] eqn:E; [cbn in Hpos; lia|].
      assert (Hrow : List.In row (List.filter (fun r => test (get r "age")) data))
        by (rewrite E; by left).
      apply List.filter_In in Hrow as [Hrow Htest].
      exists row. split; [by apply list_elem_of_In|done].
    + intros (row & Hrow & Htest). eexists. apply ageMetrics_lookup.
      exists test. split; [done|]. split; [|reflexivity].
      assert (Hin' : List.In row (List.filter (fun r => test (get r "age")) data)).
      { apply List.filter_In. split; [by apply list_elem_of_In|done]. }
      destruct (List.filter _ data); [done|cbn; lia].
  - intros name m Hm. apply ageMetrics_lookup in Hm as (test & Hin & Hpos & ->).
    exists test. cbn [count bracket_approvalRate].
    split; [done|]. split; [done|]. split.
    + split; [done|apply filter_length].
    + apply ratio_unit_interval; [apply filter_length|done].
  - intros row. apply brackets_disjoint.
Qed.

(** X16. The [biasAnalysis] of a successful analysis has no entry but
    those under the name of the protected attribute and under [age]. The
    entry under [age] holds the age brackets exactly when the age of the
    first row is truthy; the entry of the protected attribute holds the
    group metrics and the three measures of the analysis, and is missing
    exactly when the attribute is named [age] and the age of the first row
    is truthy, the age brackets having replaced it. *)
Theorem X16_bias_analysis_entries (now : string) (req : Request)
    (fairness : Analysis) (ts : string) :
  let rows := rows_of (req_data req) in
  let name := ToString (attribute_of req) in
  POST now req = Ok fairness ts ->
  exists first rest,
    rows = first :: rest
    /\ (forall k, is_Some (biasAnalysis fairness !! k) -> k = name \/ k = "age")
    /\ (biasAnalysis fairness !! "age" = Some (ByAge (ageMetrics rows))
        <-> truthy (get first "age") = true)
    /\ ((exists b, biasAnalysis fairness !! name = Some (ByAttribute b))
        <-> ~ (name = "age" /\ truthy (get first "age") = true))
    /\ (forall b, biasAnalysis fairness !! name = Some (ByAttribute b) ->
          groups b = groupMetrics fairness
          /\ bias_demographicParity b = demographicParity (metrics fairness)
          /\ bias_equalOpportunity b = equalOpportunity (metrics fairness)
          /\ bias_disparateImpact b = disparateImpact (metrics fairness)).
Proof.
  cbn zeta. intros HPOST.
  destruct (POST_ok _ _ _ _ HPOST)
    as (_ & Hrows & _ & Hgm & Hm & _ & _ & _ & Hbias & _).
  rewrite Hbias, Hgm, Hm.
  cbn [demographicParity equalOpportunity disparateImpact].
  set (name := ToString (attribute_of req)).
  destruct (req_data req) as [v|rows]; [by destruct Hrows|].
  cbn [rows_of no_rows] in *. destruct rows as [|first rest]; [done|].
  exists first, rest. split; [done|].
  unfold analyze_bias. fold name.
  destruct (truthy (get first "age")) eqn:Hage.
  - split; [|split; [|split]].
    + intros k [b Hb]. destruct (decide (k = "age")) as [|Hk]; [by right|].
      rewrite lookup_insert_ne in Hb by done.
      apply lookup_singleton_Some in Hb as [<- _]. by left.
    + by rewrite lookup_insert_eq.
    + destruct (decide (name = "age")) as [E|E].
      * rewrite E, lookup_insert_eq. split; [by intros [b [=]]|].
        intros Hno. by destruct Hno.
      * rewrite lookup_insert_ne by done. rewrite lookup_singleton_eq.
        split; [by intros _ [? _]|]. intros _. by eexists.
    + intros b. destruct (decide (name = "age")) as [E|E].
      * rewrite E, lookup_insert_eq. by intros [=].
      * rewrite lookup_insert_ne by done. rewrite lookup_singleton_eq.
        by intros [= <-].
  - split; [|split; [|split]].
    + intros k [b Hb]. apply lookup_singleton_Some in Hb as [<- _]. by left.
    + split; [|done]. intros Hb. apply lookup_singleton_Some in Hb as [_ [=]].
    + rewrite lookup_singleton_eq. split; [by intros _ [_ ?]|]. intros _. by eexists.
    + intros b. rewrite lookup_singleton_eq. by intros [= <-].
Qed.

End WithHost.
End FairnessBias.

Module TrainFacts.
Import NumFacts OrderFacts Fairness FairnessSpec FairnessFacts MoreSpec
  FairnessGroups.
Import Train.

Lemma falsy_not_one (v : JsValue) :
  truthy v = false -> equals_number 1 v = false.
Proof.
  unfold equals_number. destruct v as [| |b|[| |q|]|s]; cbn; try done.
  intros E. apply negb_false_iff in E. destruct (Qeq_bool q _) eqn:E1; [|done].
  qprop. lra.
Qed.

(** [(row.loan_status || row.approved || 0) === 1] *)
Lemma label_is_one (row : Obj) :
  strict_eq (label_of row) (JNum (num 1))
  = equals_number 1 (get row "loan_status")
    || negb (truthy (get row "loan_status"))
       && equals_number 1 (get row "approved").
Proof.
  unfold label_of, either, or_else.
  destruct (truthy (get row "loan_status")) eqn:Els.
  - rewrite Els. cbn [negb andb]. by rewrite orb_false_r.
  - rewrite (falsy_not_one _ Els). cbn [negb andb orb].
    destruct (truthy (get row "approved")) eqn:Eap; [done|].
    by rewrite (falsy_not_one _ Eap).
Qed.

(** [base + Math.random() * width] for the four simulated metrics. *)
Ltac scaled :=
  match goal with
  | Hr : draw ?r |- _ =>
      let q := fresh "q" in let Hq := fresh "Hq" in
      destruct Hr as (q & -> & Hq); cbn; eexists; split; [reflexivity|];
      qprop; split; lra
  end.

Lemma accuracy_range (r : JsNum) :
  draw r -> between 0.873 0.893 (js_add (num 0.873) (js_mul r (num 0.02))).
Proof. intros Hr. scaled. Qed.

Lemma precision_range (r : JsNum) :
  draw r -> between 0.85 0.88 (js_add (num 0.85) (js_mul r (num 0.03))).
Proof. intros Hr. scaled. Qed.

Lemma recall_range (r : JsNum) :
  draw r -> between 0.88 0.90 (js_add (num 0.88) (js_mul r (num 0.02))).
Proof. intros Hr. scaled. Qed.

Lemma rocAuc_range (r : JsNum) :
  draw r -> between 0.89 0.91 (js_add (num 0.89) (js_mul r (num 0.02))).
Proof. intros Hr. scaled. Qed.

(** [2 * (precision * recall) / (precision + recall)] *)
Lemma f1Score_range (p r : JsNum) :
  between 0.85 0.88 p -> between 0.88 0.90 r ->
  between 0.86 0.89 (js_div (js_mul (num 2) (js_mul p r)) (js_add p r)).
Proof.
  intros (x & -> & Hx) (y & -> & Hy). unfold between.
  cbn [js_mul js_add js_div num].
  destruct (Qeq_bool (Qred (x + y)) 0) eqn:E; [qprop; lra|].
  eexists. split; [reflexivity|]. qprop.
  assert (Hpos : (0 < x + y)%Q) by lra. split.
  - apply Qle_shift_div_l; [done|]. nra.
  - apply Qle_shift_div_r; [done|]. nra.
Qed.

Section WithHost.
Context `{Host}.

(** X17. [POST] answers 400 with its error message exactly when the
    training data is missing, not an array or empty; for a non-empty array
    of rows it answers 200 with a model whose data set size is the number
    of rows. *)
Theorem X17_training_data_required (env : Env) (req : Request) :
  let rows := rows_of (req_data req) in
  (POST env req = BadRequest "Invalid training data provided"
   <-> no_rows (req_data req))
  /\ (status (POST env req) = 400%Z <-> no_rows (req_data req))
  /\ (~ no_rows (req_data req)
      <-> exists model,
            POST env req = Ok model "Model trained successfully"
            /\ datasetSize model = length rows
            /\ (0 < datasetSize model)%nat).
Proof.
  cbn zeta. unfold POST. rewrite <- invalid_data_no_rows.
  destruct (invalid_data (req_data req)) eqn:Einv; cbn [status].
  - split; [done|]. split; [done|]. split; [done|]. by intros (? & ? & _).
  - split; [done|]. split; [done|]. split; [|done]. intros _.
    eexists. split; [reflexivity|]. cbn [datasetSize]. split; [done|].
    unfold invalid_data in Einv. apply orb_false_iff in Einv as [_ Elen].
    apply Nat.eqb_neq in Elen. lia.
Qed.

(** X18. The class distribution of a trained model: [approved] counts the
    rows whose [loan_status] is the number 1, or whose [loan_status] is
    falsy and whose [approved] is the number 1; [approved] and [rejected]
    add up to the data set size; and the approval rate is [approved]
    divided by the data set size, a number in [0, 1]. *)
Theorem X18_class_distribution (env : Env) (req : Request) (model : ModelMetadata)
    (message : string) :
  let rows := rows_of (req_data req) in
  let c := classDistribution model in
  POST env req = Ok model message ->
  approved c
  = length (List.filter
              (fun row =>
                 equals_number 1 (get row "loan_status")
                 || negb (truthy (get row "loan_status"))
                    && equals_number 1 (get row "approved")) rows)
  /\ (approved c + rejected c = datasetSize model)%nat
  /\ approvalRate c = ratio (approved c) (datasetSize model)
  /\ unit_interval (approvalRate c).
Proof.
  cbn zeta. unfold POST.
  destruct (invalid_data (req_data req)) eqn:Einv; [discriminate|].
  intros [= <- _]. cbn [classDistribution approved rejected approvalRate datasetSize].
  set (rows := rows_of (req_data req)).
  assert (Hpos : (0 < length rows)%nat).
  { unfold invalid_data in Einv. apply orb_false_iff in Einv as [_ Elen].
    apply Nat.eqb_neq in Elen. fold rows in Elen. lia. }
  assert (Happroved :
    length (List.filter (fun l => strict_eq l (JNum (num 1))) (map label_of rows))
    = length (List.filter
                (fun row =>
                   equals_number 1 (get row "loan_status")
                   || negb (truthy (get row "loan_status"))
                      && equals_number 1 (get row "approved")) rows)).
  { rewrite <- (filter_map_length label_of (fun l => strict_eq l (JNum (num 1)))).
    f_equal. apply List.filter_ext. intros row. apply label_is_one. }
  pose proof (filter_length (fun l => strict_eq l (JNum (num 1))) (map label_of rows))
    as Hle.
  rewrite length_map in Hle |- *.
  split; [done|]. split; [lia|]. split; [done|].
  by apply ratio_unit_interval.
Qed.

(** X19. With draws of [Math.random()] in [0, 1), the simulated metrics
    of a trained model are finite and lie in fixed ranges: the accuracy in
    [0.873, 0.893], the precision in [0.85, 0.88], the recall in
    [0.88, 0.90], the F1 score in [0.86, 0.89] and the ROC AUC in
    [0.89, 0.91]; the precision is at most the recall. *)
Theorem X19_metric_ranges (env : Env) (req : Request) (model : ModelMetadata)
    (message : string) :
  draw (random_accuracy env) -> draw (random_precision env) ->
  draw (random_recall env) -> draw (random_rocAuc env) ->
  POST env req = Ok model message ->
  let m := Train.metrics model in
  between 0.873 0.893 (accuracy m)
  /\ between 0.85 0.88 (Train.precision m)
  /\ between 0.88 0.90 (recall m)
  /\ between 0.86 0.89 (f1Score m)
  /\ between 0.89 0.91 (rocAuc m)
  /\ js_le (Train.precision m) (recall m) = true.
Proof.
  intros Ha Hp Hr Hroc. unfold POST.
  destruct (invalid_data (req_data req)); [discriminate|].
  intros [= <- _]. cbn zeta.
  cbn [Train.metrics accuracy Train.precision recall f1Score rocAuc].
  pose proof (precision_range _ Hp) as Hprecision.
  pose proof (recall_range _ Hr) as Hrecall.
  split; [by apply accuracy_range|]. split; [done|]. split; [done|].
  split; [by apply f1Score_range|]. split; [by apply rocAuc_range|].
  assert (Hle : forall p r, between 0.85 0.88 p -> between 0.88 0.90 r ->
                            js_le p r = true).
  { intros p r (x & -> & Hx) (y & -> & Hy). cbn. qprop. lra. }
  exact (Hle _ _ Hprecision Hrecall).
Qed.

End WithHost.
End TrainFacts.

(** ** The further properties at the examples *)

Module PredictAt.
Import Examples MoreExamples MoreSpec Predict PredictSpec.

#[local] Existing Instance example_host.

(** X1, witness: the applicant of the examples, with a credit score raised
    from 720 to 760. *)
Lemma X1_witness :
  get applicant "creditScore" = JNum (num 720)
  /\ js_le (num 720) (num 760) = true
  /\ let r := calculateCreditScore applicant half in
     let r' :=
       calculateCreditScore (<["creditScore" := JNum (num 760)]> applicant) half in
     js_le (probability r) (probability r') = true
     /\ (approved r = true -> approved r' = true)
     /\ js_le (riskScore r') (riskScore r) = true.
Proof.
  assert (H1 : get applicant "creditScore" = JNum (num 720))
    by (vm_compute; reflexivity).
  assert (H2 : js_le (num 720) (num 760) = true) by (vm_compute; reflexivity).
  split; [exact H1|]. split; [exact H2|].
  exact (PredictMore.X1_probability_monotone_in_creditScore applicant
           (num 720) (num 760) half H1 H2).
Defined.

(** X2, witness: the applicant with seven derogatory marks, raised to
    nine. *)
Lemma X2_witness :
  derogatory_of seven_marks = JNum (num 7)
  /\ js_le (num 7) (num 9) = true
  /\ let r := calculateCreditScore seven_marks half in
     let r' :=
       calculateCreditScore (<["derogatory" := JNum (num 9)]> seven_marks) half in
     js_le (probability r') (probability r) = true
     /\ (approved r' = true -> approved r = true)
     /\ js_le (riskScore r) (riskScore r') = true.
Proof.
  assert (H1 : derogatory_of seven_marks = JNum (num 7))
    by (vm_compute; reflexivity).
  assert (H2 : js_le (num 7) (num 9) = true) by (vm_compute; reflexivity).
  split; [exact H1|]. split; [exact H2|].
  exact (PredictMore.X2_probability_antitone_in_derogatory seven_marks
           (num 7) (num 9) half H1 H2).
Defined.

(** X3, witness: the applicant of the examples and the draw 0.5. *)
Lemma X3_witness :
  draw half
  /\ let r := calculateCreditScore applicant half in
     ((forall k, k ∈ required -> truthy (get applicant k) = true) ->
      between 0.78 0.90 (confidence r))
     /\ ((exists k, k ∈ required /\ truthy (get applicant k) = false) ->
         confidence r = num 0.65)
     /\ (forall env body p,
           env_random env = half -> POST env body = Ok p ->
           between 0.78 0.90 (confidence (prediction p))).
Proof.
  assert (H1 : draw half).
  { exists (1 # 2)%Q. split; [vm_compute; reflexivity|]. split; [discriminate|reflexivity]. }
  split; [exact H1|].
  exact (PredictReasoning.X3_confidence_range applicant half H1).
Defined.

End PredictAt.

Module ShapAt.
Import Examples MoreExamples MoreSpec Shap.

#[local] Existing Instance example_host.

(** X7, witness: the explanation of the applicant of the examples. *)
Lemma X7_witness :
  exists e,
    POST explain_applicant = OkIndividual e
    /\ confidence (interpretation e)
       = js_mul (js_abs (js_sub (finalPrediction e) (num 0.5))) (num 2)
    /\ between 0 0.9 (confidence (interpretation e)).
Proof.
  assert (H1 : exists e, POST explain_applicant = OkIndividual e)
    by (vm_compute; eexists; reflexivity).
  destruct H1 as [e H1]. exists e. split; [exact H1|].
  exact (ShapInterpretation.X7_interpretation_confidence explain_applicant e H1).
Defined.

(** X8, witness: the explanation of the applicant of the examples. *)
Lemma X8_witness :
  exists e,
    POST explain_applicant = OkIndividual e
    /\ let positive sv := js_gt (contribution sv) (num 0) in
       let negative sv := js_lt (contribution sv) (num 0) in
       let factors := mainFactors (interpretation e) in
       (1 <= length factors <= 3)%nat
       /\ ((exists sv, sv ∈ shapValues e /\ positive sv = true) ->
           forall name, name ∈ factors ->
             exists sv,
               sv ∈ shapValues e /\ displayName sv = name /\ positive sv = true)
       /\ (~ (exists sv, sv ∈ shapValues e /\ positive sv = true) ->
           forall name, name ∈ factors ->
             exists sv,
               sv ∈ shapValues e /\ displayName sv = name /\ negative sv = true)
       /\ (decision (interpretation e) = "Approved" ->
           exists sv, sv ∈ shapValues e /\ positive sv = true)
       /\ (decision (interpretation e) = "Rejected" ->
           exists sv, sv ∈ shapValues e /\ negative sv = true).
Proof.
  assert (H1 : exists e, POST explain_applicant = OkIndividual e)
    by (vm_compute; eexists; reflexivity).
  destruct H1 as [e H1]. exists e. split; [exact H1|].
  exact (ShapInterpretation.X8_main_factors explain_applicant e H1).
Defined.

End ShapAt.

Module FairnessAt.
Import Examples MoreExamples MoreSpec Fairness FairnessSpec.

#[local] Existing Instance example_host.

(** The hypotheses of the examples, by evaluation. *)
Ltac evaluated :=
  lazymatch goal with
  | |- numerals => intros n; vm_compute; discriminate
  | |- exists fairness, POST _ _ = Ok fairness _ =>
      vm_compute; eexists; reflexivity
  | |- ~ no_rows _ => vm_compute; discriminate
  | |- two_groups _ _ =>
      solve [ eexists _, _;
              split; [apply list_elem_of_here|];
              split; [apply list_elem_of_further, list_elem_of_here|];
              vm_compute; reflexivity
            | eexists _, _;
              split; [apply list_elem_of_here|];
              split; [do 2 apply list_elem_of_further; apply list_elem_of_here|];
              vm_compute; reflexivity ]
  | |- distinct_names _ =>
      split; apply (bool_decide_unpack _); vm_compute; reflexivity
  | |- none_approved _ => repeat constructor
  | |- no_NaN _ _ => repeat constructor; vm_compute; discriminate
  end.

(** X9, witness: differences of 0.05 and 0.02 and a disparate impact of
    0.9. *)
Lemma X9_witness :
  in_demographicParityDifference small_gap <> NaN
  /\ in_equalOpportunityDifference small_gap <> NaN
  /\ in_disparateImpact small_gap <> NaN
  /\ between 0 100 (calculateFairnessScore small_gap)
  /\ (js_eq (in_demographicParityDifference small_gap) (num 0) = true ->
      js_eq (in_equalOpportunityDifference small_gap) (num 0) = true ->
      js_ge (in_disparateImpact small_gap) (num 0.8) = true ->
      js_le (in_disparateImpact small_gap) (num 1.25) = true ->
      calculateFairnessScore small_gap = num 100)
  /\ (calculateFairnessScore small_gap = num 100 ->
      js_ge (in_disparateImpact small_gap) (num 0.8) = true
      /\ js_le (in_disparateImpact small_gap) (num 1.25) = true).
Proof.
  assert (H1 : in_demographicParityDifference small_gap <> NaN) by discriminate.
  assert (H2 : in_equalOpportunityDifference small_gap <> NaN) by discriminate.
  assert (H3 : in_disparateImpact small_gap <> NaN) by discriminate.
  split; [exact H1|]. split; [exact H2|]. split; [exact H3|].
  exact (FairnessScore.X9_fairness_score_range small_gap H1 H2 H3).
Defined.

(** X10, witness: two groups with approval rates 1/2 and 1. *)
Lemma X10_witness :
  numerals
  /\ exists fairness,
       POST noon (analyze mixed) = Ok fairness noon
       /\ let m := metrics fairness in
          unit_interval (demographicParityDifference m)
          /\ unit_interval (demographicParity m)
          /\ unit_interval (equalOpportunityDifference m)
          /\ unit_interval (equalOpportunity m)
          /\ unit_interval (disparateImpact m)
          /\ disparateImpactRatio m = disparateImpact m
          /\ unit_interval (statisticalParity m)
          /\ between 0 100 (overallScore fairness).
Proof.
  assert (H1 : numerals) by evaluated.
  assert (H2 : exists fairness, POST noon (analyze mixed) = Ok fairness noon)
    by evaluated.
  destruct H2 as [fairness H2]. split; [exact H1|].
  exists fairness. split; [exact H2|].
  exact (FairnessAnalysis.X10_analysis_in_range noon (analyze mixed) fairness noon
           H1 H2).
Defined.

(** X11, witness: two groups with approval rates 1/2 and 1. *)
Lemma X11_witness :
  numerals
  /\ exists fairness,
       POST noon (analyze mixed) = Ok fairness noon
       /\ let c := complianceStatus fairness in
          let r := recommendations fairness in
          (r = acceptable
           <-> _80PercentRule c = true /\ compliance_demographicParity c = true
               /\ compliance_equalOpportunity c = true)
          /\ ("Disparate impact detected: Approval rate ratio is below 80% threshold"
                ∈ r
              <-> _80PercentRule c = false)
          /\ ("Significant demographic parity gap detected (>10%)" ∈ r
              <-> compliance_demographicParity c = false)
          /\ ("Equal opportunity violation: Different TPR across groups" ∈ r
              <-> compliance_equalOpportunity c = false)
          /\ r <> [].
Proof.
  assert (H1 : numerals) by evaluated.
  assert (H2 : exists fairness, POST noon (analyze mixed) = Ok fairness noon)
    by evaluated.
  destruct H2 as [fairness H2]. split; [exact H1|].
  exists fairness. split; [exact H2|].
  exact (FairnessOutcome.X11_recommendations_follow_compliance noon (analyze mixed)
           fairness noon H1 H2).
Defined.

(** X12, witness: two groups with approval rates 1/2 and 1. *)
Lemma X12_witness :
  ~ no_rows (req_data (analyze mixed))
  /\ two_groups mixed (JStr "gender")
  /\ distinct_names (uniqueGroups mixed (JStr "gender"))
  /\ exists fairness mn mx tmn tmx,
       POST noon (analyze mixed) = Ok fairness noon
       /\ least mn (group_rates mixed (JStr "gender"))
       /\ greatest mx (group_rates mixed (JStr "gender"))
       /\ least tmn (group_tprs mixed (JStr "gender"))
       /\ greatest tmx (group_tprs mixed (JStr "gender"))
       /\ demographicParityDifference (metrics fairness) = js_sub mx mn
       /\ equalOpportunityDifference (metrics fairness) = js_sub tmx tmn
       /\ (compliance_demographicParity (complianceStatus fairness) = true
           <-> js_le (js_sub mx mn) (num 0.1) = true)
       /\ (compliance_equalOpportunity (complianceStatus fairness) = true
           <-> js_le (js_sub tmx tmn) (num 0.1) = true).
Proof.
  assert (H1 : ~ no_rows (req_data (analyze mixed))) by evaluated.
  assert (H2 : two_groups mixed (JStr "gender")) by evaluated.
  assert (H3 : distinct_names (uniqueGroups mixed (JStr "gender"))) by evaluated.
  split; [exact H1|]. split; [exact H2|]. split; [exact H3|].
  exact (FairnessOutcome.X12_differences_of_groups noon (analyze mixed) H1 H2 H3).
Defined.

(** X13, witness: two groups, no approval. *)
Lemma X13_witness :
  numerals
  /\ none_approved (rows_of (req_data (analyze no_approvals)))
  /\ exists fairness,
       POST noon (analyze no_approvals) = Ok fairness noon
       /\ demographicParityDifference (metrics fairness) = num 0
       /\ equalOpportunityDifference (metrics fairness) = num 0
       /\ disparateImpact (metrics fairness) = num 0
       /\ _80PercentRule (complianceStatus fairness) = false
       /\ compliance_demographicParity (complianceStatus fairness) = true
       /\ overallScore fairness = num (200 # 3)
       /\ recommendations fairness
          = [ "Disparate impact detected: Approval rate ratio is below 80% threshold";
              "Consider reviewing feature selection and model training data for bias" ].
Proof.
  assert (H1 : numerals) by evaluated.
  assert (H2 : exists fairness,
                 POST noon (analyze no_approvals) = Ok fairness noon) by evaluated.
  assert (H3 : none_approved (rows_of (req_data (analyze no_approvals))))
    by evaluated.
  destruct H2 as [fairness H2]. split; [exact H1|]. split; [exact H3|].
  exists fairness. split; [exact H2|].
  exact (FairnessGroups.X13_no_approval_fails_80_percent_rule noon
           (analyze no_approvals) fairness noon H1 H2 H3).
Defined.

(** X14, witness: three rows in two groups. *)
Lemma X14_witness :
  no_NaN (rows_of (req_data (analyze mixed))) (attribute_of (analyze mixed))
  /\ distinct_names
       (uniqueGroups (rows_of (req_data (analyze mixed)))
          (attribute_of (analyze mixed)))
  /\ exists fairness,
       POST noon (analyze mixed) = Ok fairness noon
       /\ sum_list_with
            (fun g => totalCount (calculateGroupMetrics mixed "gender" g))
            (uniqueGroups mixed (JStr "gender"))
          = 3%nat
       /\ sum_list_with totalCount (values (groupMetrics fairness)) = 3%nat.
Proof.
  assert (H1 : exists fairness, POST noon (analyze mixed) = Ok fairness noon)
    by evaluated.
  assert (H2 : no_NaN (rows_of (req_data (analyze mixed)))
                 (attribute_of (analyze mixed))) by evaluated.
  assert (H3 : distinct_names
                 (uniqueGroups (rows_of (req_data (analyze mixed)))
                    (attribute_of (analyze mixed)))) by evaluated.
  destruct H1 as [fairness H1]. split; [exact H2|]. split; [exact H3|].
  exists fairness. split; [exact H1|].
  exact (FairnessGroups.X14_groups_divide_the_rows noon (analyze mixed) fairness
           noon H1 H2 H3).
Defined.

(** X16, witness: rows without an age, analysed by gender. *)
Lemma X16_witness :
  exists fairness,
    POST noon (analyze mixed) = Ok fairness noon
    /\ exists first rest,
         mixed = first :: rest
         /\ (forall k, is_Some (biasAnalysis fairness !! k) ->
               k = "gender" \/ k = "age")
         /\ (biasAnalysis fairness !! "age" = Some (ByAge (ageMetrics mixed))
             <-> truthy (get first "age") = true)
         /\ ((exists b, biasAnalysis fairness !! "gender" = Some (ByAttribute b))
             <-> ~ ("gender" = "age" /\ truthy (get first "age") = true))
         /\ (forall b, biasAnalysis fairness !! "gender" = Some (ByAttribute b) ->
               groups b = groupMetrics fairness
               /\ bias_demographicParity b = demographicParity (metrics fairness)
               /\ bias_equalOpportunity b = equalOpportunity (metrics fairness)
               /\ bias_disparateImpact b = disparateImpact (metrics fairness)).
Proof.
  assert (H1 : exists fairness, POST noon (analyze mixed) = Ok fairness noon)
    by evaluated.
  destruct H1 as [fairness H1]. exists fairness. split; [exact H1|].
  exact (FairnessBias.X16_bias_analysis_entries noon (analyze mixed) fairness noon
           H1).
Defined.

End FairnessAt.

Module TrainAt.
Import Examples MoreExamples MoreSpec Fairness FairnessSpec.
Import Train.

#[local] Existing Instance example_host.

(** X18, witness: three rows, two of them labelled 1. *)
Lemma X18_witness :
  exists model message,
    POST training_run training = Ok model message
    /\ let c := classDistribution model in
       approved c
       = length (List.filter
                   (fun row =>
                      equals_number 1 (get row "loan_status")
                      || negb (truthy (get row "loan_status"))
                         && equals_number 1 (get row "approved")) labelled)
       /\ (approved c + rejected c = datasetSize model)%nat
       /\ approvalRate c = ratio (approved c) (datasetSize model)
       /\ unit_interval (approvalRate c).
Proof.
  assert (H1 : exists model message,
                 POST training_run training = Ok model message)
    by (vm_compute; eexists _, _; reflexivity).
  destruct H1 as (model & message & H1). exists model, message.
  split; [exact H1|].
  exact (TrainFacts.X18_class_distribution training_run training model message H1).
Defined.

(** X19, witness: the draws 0.5, 0.25, 0.75 and 0. *)
Lemma X19_witness :
  draw (random_accuracy training_run) /\ draw (random_precision training_run)
  /\ draw (random_recall training_run) /\ draw (random_rocAuc training_run)
  /\ exists model message,
       POST training_run training = Ok model message
       /\ let m := Train.metrics model in
          between 0.873 0.893 (accuracy m)
          /\ between 0.85 0.88 (Train.precision m)
          /\ between 0.88 0.90 (recall m)
          /\ between 0.86 0.89 (f1Score m)
          /\ between 0.89 0.91 (rocAuc m)
          /\ js_le (Train.precision m) (recall m) = true.
Proof.
  assert (Hdraw : forall q : Q,
            Qle_bool 0 q = true -> Qlt_bool q 1 = true -> draw (num q)).
  { intros q H0 H1. exists (Qred q). split; [reflexivity|].
    rewrite Qred_correct. split; [by apply Qle_bool_iff|].
    by apply NumFacts.Qlt_bool_iff. }
  assert (H1 : draw (random_accuracy training_run))
    by (apply Hdraw; vm_compute; reflexivity).
  assert (H2 : draw (random_precision training_run))
    by (apply Hdraw; vm_compute; reflexivity).
  assert (H3 : draw (random_recall training_run))
    by (apply Hdraw; vm_compute; reflexivity).
  assert (H4 : draw (random_rocAuc training_run))
    by (apply Hdraw; vm_compute; reflexivity).
  assert (H5 : exists model message,
                 POST training_run training = Ok model message)
    by (vm_compute; eexists _, _; reflexivity).
  destruct H5 as (model & message & H5).
  split; [exact H1|]. split; [exact H2|]. split; [exact H3|]. split; [exact H4|].
  exists model, message. split; [exact H5|].
  exact (TrainFacts.X19_metric_ranges training_run training model message
           H1 H2 H3 H4 H5).
Defined.

End TrainAt.
